(** * ClauseGuard: the policy analysis pipeline

    A shallow embedding of the LLM integration module of ClauseGuard
    ([utils/llm], the second module in [src/utils/browser.js]:
    [analyzeInChunks], [mergeChunkResults], [callLLM],
    [parseAnalysisResponse] and [extractJSON]) together with the properties
    its specification states.  The second half of the file covers the
    code around these functions: the settings check and the orchestrator
    [analyzePolicyWithLLM] with the requests it sends, the cache and the
    message router of the background script, the browser layer, and the
    parts of the popup that feed the analysis.

    Conventions.
    - A JavaScript string is a sequence of UTF-16 code units.  For the
      texts that are only sliced and measured (the policy text) the code
      unit type is left abstract; for the strings whose content is
      inspected (replies, property names) a Rocq [string] is used, one
      [ascii] per code unit, which covers the code units below 256.
    - A number is an IEEE 754 double, i.e. a primitive [float].
    - A value is JSON-like data: no functions, accessors or proxies.  Every
      object or array occurring in a value is a distinct heap object, as in
      the result of [JSON.parse].  Such an object inherits from
      [Object.prototype] and an array from [Array.prototype]; what they
      inherit is modelled where the module can reach it: in the object that
      [mergeChunkResults] uses as a map, and in the conversion to a string
      that [new Error] performs.
    - The module is an ES module, hence strict mode code. *)

From Stdlib Require Import ZArith String Ascii Floats Lia.
From stdpp Require Import base option list strings gmap pretty.
From Equations Require Import Equations.

#[local] Set Warnings "-register-all".
Local Open Scope string_scope.
Local Open Scope list_scope.
Local Open Scope Z_scope.

(** * JavaScript values and the operations the module performs on them *)

Module JS.

(** [VObj props] lists the own properties of an object in the order in
    which the object enumerates them, each key once. *)
Inductive value : Type :=
| VUndefined
| VNull
| VBool (b : bool)
| VNum (n : float)
| VStr (s : string)
| VArr (elems : list value)
| VObj (props : list (string * value)).

(** Exceptions.  [Error] carries the message of the error object, the
    string that [new Error(v)] makes of its argument. *)
Inductive exn : Type :=
| TypeError
| SyntaxError
| Error (message : value).

(** The outcome of a computation: a value, or the exception thrown. *)
Inductive result (A : Type) : Type :=
| Ok (a : A)
| Throw (e : exn).
Arguments Ok {A} a.
Arguments Throw {A} e.

#[global] Instance result_ret : MRet result := λ A, Ok.

#[global] Instance result_bind : MBind result := λ A B k r,
  match r with
  | Ok a => k a
  | Throw e => Throw e
  end.

(** [try { body } catch { handler }] where the handler cannot throw. *)
Definition try_catch {A} (body : result A) (handler : A) : A :=
  match body with
  | Ok a => a
  | Throw _ => handler
  end.

(** [v] is [null] or [undefined]. *)
Definition nullish (v : value) : bool :=
  match v with
  | VUndefined | VNull => true
  | _ => false
  end.

(** ToBoolean. *)
Definition truthy (v : value) : bool :=
  match v with
  | VUndefined | VNull => false
  | VBool b => b
  | VNum n => negb (PrimFloat.eqb n 0 || PrimFloat.is_nan n)
  | VStr s => negb (String.eqb s "")
  | VArr _ | VObj _ => true
  end.

(** [v] is an object that is not an array. *)
Definition is_object (v : value) : bool :=
  match v with
  | VObj _ => true
  | _ => false
  end.

(** [Array.isArray(v)]. *)
Definition isArray (v : value) : bool :=
  match v with
  | VArr _ => true
  | _ => false
  end.

(** [typeof v === 'object']. *)
Definition typeof_object (v : value) : bool :=
  match v with
  | VNull | VArr _ | VObj _ => true
  | _ => false
  end.

(** Own property lookup in a property list (first binding of the key). *)
Fixpoint lookup_prop (k : string) (props : list (string * value)) : option value :=
  match props with
  | [] => None
  | (k', v) :: rest => if String.eqb k k' then Some v else lookup_prop k rest
  end.

(** The value of [o.k] for a non-nullish [o].  The module reads only the
    names grade, summary, dirtyDozen, highlights, good, bad, criticalQuotes,
    status, error, message, choices, candidates, content, parts and text
    this way; none of them is an array index, [length] or an inherited
    member, so on strings, arrays, numbers and booleans the read yields
    [undefined]. *)
Definition prop (o : value) (k : string) : value :=
  match o with
  | VObj props =>
      match lookup_prop k props with
      | Some v => v
      | None => VUndefined
      end
  | _ => VUndefined
  end.

(** [o.k]: a TypeError on [null] and [undefined]. *)
Definition get (o : value) (k : string) : result value :=
  if nullish o then Throw TypeError else Ok (prop o k).

(** [o?.k]. *)
Definition get_opt (o : value) (k : string) : value :=
  if nullish o then VUndefined else prop o k.

(** [o.k = v] in strict mode: creating a property on a primitive is a
    TypeError.  The read of [o.k] that follows yields [v], which is what
    the function returns. *)
Definition set (o : value) (k : string) (v : value) : result value :=
  match o with
  | VObj _ | VArr _ => Ok v
  | _ => Throw TypeError
  end.

(** [a || b]. *)
Definition or_else (a b : value) : value := if truthy a then a else b.

(** The index of [s] in an array of string literals that starts at index
    [i]; [indexOf] compares by strict equality, so only a string can be
    found. *)
Fixpoint index_from (i : Z) (order : list string) (s : string) : Z :=
  match order with
  | [] => -1
  | x :: rest => if String.eqb x s then i else index_from (i + 1) rest s
  end.

(** [order.indexOf(v)], -1 when [v] is not in [order]. *)
Definition indexOf (order : list string) (v : value) : Z :=
  match v with
  | VStr s => index_from 0 order s
  | _ => -1
  end.

(** [order.includes(s)] for a string [s]. *)
Definition includes (order : list string) (s : string) : bool :=
  existsb (String.eqb s) order.

(** SameValueZero, the equality of [Set]: primitives by value (NaN equals
    NaN, +0 equals -0), objects and arrays by identity. *)
Definition same_value_zero (x y : value) : bool :=
  match x, y with
  | VUndefined, VUndefined => true
  | VNull, VNull => true
  | VBool a, VBool b => Bool.eqb a b
  | VNum a, VNum b => PrimFloat.eqb a b || (PrimFloat.is_nan a && PrimFloat.is_nan b)
  | VStr a, VStr b => String.eqb a b
  | _, _ => false
  end.

(** The value [Set.prototype.add] stores for [v]: +0 for -0, and [v]
    itself otherwise. *)
Definition stored_in_set (v : value) : value :=
  match v with
  | VNum n => if PrimFloat.eqb n 0 then VNum 0 else v
  | _ => v
  end.

(** Adding the elements of [l] one by one to a [Set] that holds [seen], in
    insertion order: an element the set already has is skipped. *)
Fixpoint set_insert_all (seen : list value) (l : list value) : list value :=
  match l with
  | [] => seen
  | x :: rest =>
      if existsb (same_value_zero x) seen then set_insert_all seen rest
      else set_insert_all (seen ++ [stored_in_set x]) rest
  end.

(** [[...new Set(l)]]. *)
Definition spread_set (l : list value) : list value := set_insert_all [] l.

(** [l.flatMap(f)]: an array returned by [f] is spliced in, anything else
    is one element. *)
Definition flatten1 (v : value) : list value :=
  match v with
  | VArr l => l
  | _ => [v]
  end.

End JS.

Export JS.

(** Runs the binds whose first computation is a value or an exception. *)
Ltac monad_simpl := cbn [mbind mret result_bind result_ret negb].

(** Runs the binds of a hypothesis. *)
Ltac monad_simpl_in H := cbn [mbind mret result_bind result_ret negb] in H.

(** * ChunkPlanner: the splitting loop of [analyzeInChunks] *)

Module Chunking.

(** [MAX_TEXT_LENGTH] of [utils/constants.js]. *)
Definition MAX_TEXT_LENGTH : Z := 50000.

(** [const chunkSize = MAX_TEXT_LENGTH - 5000]. *)
Definition chunkSize : Z := MAX_TEXT_LENGTH - 5000.

Section Text.
(** The code unit type; the loop never looks at a code unit. *)
Context {A : Type}.

(** [text.slice(start, stop)], negative indices counting from the end. *)
Definition slice (text : list A) (start stop : Z) : list A :=
  let len := Z.of_nat (length text) in
  let from := if start <? 0 then Z.max (len + start) 0 else Z.min start len in
  let to := if stop <? 0 then Z.max (len + stop) 0 else Z.min stop len in
  take (Z.to_nat (to - from)) (drop (Z.to_nat from) text).

(** [for (let i = 0; i < policyText.length; i += chunkSize)
       chunks.push(policyText.slice(i, i + chunkSize));]
    from the loop variable [i] and the chunks pushed so far. *)
Equations chunk_loop (policyText : list A) (i : Z) (chunks : list (list A))
  : list (list A) by wf (Z.to_nat (Z.of_nat (length policyText) - i)) lt :=
chunk_loop policyText i chunks with Z_lt_dec i (Z.of_nat (length policyText)) := {
  | left _ =>
      chunk_loop policyText (i + chunkSize)
        (chunks ++ [slice policyText i (i + chunkSize)]);
  | right _ => chunks }.
Next Obligation. unfold chunkSize, MAX_TEXT_LENGTH. lia. Qed.

(** The [chunks] array when the loop has ended. *)
Definition split_chunks (policyText : list A) : list (list A) :=
  chunk_loop policyText 0 [].

(** [analyzePolicyWithLLM] takes the chunked path when this holds. *)
Definition needs_chunking (policyText : list A) : bool :=
  MAX_TEXT_LENGTH <? Z.of_nat (length policyText).

(** [ceil(len / chunkSize)]. *)
Definition chunk_count (policyText : list A) : Z :=
  (Z.of_nat (length policyText) + chunkSize - 1) / chunkSize.

End Text.

(** ** Vocabulary of the properties *)

(** A text of 50001 code units, one above the threshold. *)
Definition long_text : list ascii := replicate (Z.to_nat 50001) "x"%char.

End Chunking.

(** ** Properties of the splitting loop *)

Module ChunkingFacts.
Import Chunking.

Section TextFacts.
Context {A : Type}.
Implicit Types (text : list A) (i n : Z) (chunks : list (list A)).

Lemma slice_take_drop text i n :
  0 ≤ i ≤ Z.of_nat (length text) → 0 ≤ n →
  slice text i (i + n) = take (Z.to_nat n) (drop (Z.to_nat i) text).
Proof.
  intros Hi Hn. unfold slice.
  destruct (Z.ltb_spec i 0), (Z.ltb_spec (i + n) 0); try lia.
  rewrite (Z.min_l i) by lia.
  destruct (Z.le_gt_cases (i + n) (Z.of_nat (length text))).
  - rewrite Z.min_l by lia. f_equal. lia.
  - rewrite Z.min_r by lia.
    rewrite !take_ge; [done | rewrite length_drop; lia ..].
Qed.

Lemma length_slice text i n :
  0 ≤ i ≤ Z.of_nat (length text) → 0 ≤ n →
  Z.of_nat (length (slice text i (i + n))) = Z.min n (Z.of_nat (length text) - i).
Proof.
  intros Hi Hn. rewrite slice_take_drop, length_take, length_drop by done. lia.
Qed.

Lemma chunk_loop_lt text i chunks :
  i < Z.of_nat (length text) →
  chunk_loop text i chunks
  = chunk_loop text (i + chunkSize) (chunks ++ [slice text i (i + chunkSize)]).
Proof.
  intros Hi. rewrite chunk_loop_equation_1.
  destruct (Z_lt_dec i (Z.of_nat (length text))); [done | lia].
Qed.

Lemma chunk_loop_ge text i chunks :
  Z.of_nat (length text) ≤ i → chunk_loop text i chunks = chunks.
Proof.
  intros Hi. rewrite chunk_loop_equation_1.
  destruct (Z_lt_dec i (Z.of_nat (length text))); [lia | done].
Qed.

(** Induction along the loop: [i] grows towards the length of the text. *)
Lemma loop_ind text (P : Z → Prop) :
  (∀ i, Z.of_nat (length text) ≤ i → P i) →
  (∀ i, i < Z.of_nat (length text) → P (i + chunkSize) → P i) →
  ∀ i, P i.
Proof.
  intros Hstop Hstep i.
  remember (Z.to_nat (Z.of_nat (length text) - i)) as m eqn:Hm.
  revert i Hm. induction m as [m IH] using lt_wf_ind. intros i ->.
  destruct (Z_lt_dec i (Z.of_nat (length text))) as [Hlt | Hge].
  - apply Hstep; [done |]. eapply IH; [| reflexivity].
    unfold chunkSize, MAX_TEXT_LENGTH. lia.
  - apply Hstop. lia.
Qed.

(** What the loop has pushed when it ends: the slices at the multiples of
    [chunkSize] counted from [i]. *)
Lemma chunk_loop_closed text i chunks :
  0 ≤ i →
  chunk_loop text i chunks
  = chunks ++ ((λ k, slice text (i + k * chunkSize) (i + k * chunkSize + chunkSize))
               <$> seqZ 0 ((Z.of_nat (length text) - i + chunkSize - 1) / chunkSize)).
Proof.
  revert chunks. pattern i. apply (loop_ind text); clear i.
  - intros i Hi chunks Hi0. rewrite chunk_loop_ge by done.
    rewrite seqZ_nil, app_nil_r; [done |].
    apply Z.lt_succ_r, Z.div_lt_upper_bound; unfold chunkSize, MAX_TEXT_LENGTH; lia.
  - intros i Hi IH chunks Hi0. rewrite chunk_loop_lt by done.
    rewrite IH by (unfold chunkSize, MAX_TEXT_LENGTH; lia).
    rewrite <- app_assoc. f_equal.
    replace (Z.of_nat (length text) - i + chunkSize - 1)
      with (Z.of_nat (length text) - (i + chunkSize) + chunkSize - 1 + 1 * chunkSize) by lia.
    rewrite Z.div_add by done.
    set (n := (Z.of_nat (length text) - (i + chunkSize) + chunkSize - 1) / chunkSize).
    assert (0 ≤ n) by (apply Z.div_pos; unfold chunkSize, MAX_TEXT_LENGTH; lia).
    rewrite (seqZ_cons 0 (n + 1)) by lia. rewrite fmap_cons. simpl.
    rewrite Z.add_0_r. f_equal.
    replace (Z.pred (n + 1)) with n by lia.
    rewrite <- (fmap_add_seqZ 1 0), <- list_fmap_compose.
    apply list_fmap_ext. intros _ k _. simpl. f_equal; lia.
Qed.

Lemma concat_chunk_loop text i chunks :
  0 ≤ i →
  concat (chunk_loop text i chunks) = concat chunks ++ drop (Z.to_nat i) text.
Proof.
  revert chunks. pattern i. apply (loop_ind text); clear i.
  - intros i Hi chunks Hi0. rewrite chunk_loop_ge by done.
    rewrite drop_ge, app_nil_r by lia. done.
  - intros i Hi IH chunks Hi0. rewrite chunk_loop_lt by done.
    rewrite IH by (unfold chunkSize, MAX_TEXT_LENGTH; lia).
    rewrite concat_app, <- app_assoc. f_equal. simpl. rewrite app_nil_r.
    rewrite slice_take_drop by (unfold chunkSize, MAX_TEXT_LENGTH; lia).
    rewrite Z2Nat.inj_add by (unfold chunkSize, MAX_TEXT_LENGTH; lia).
    rewrite <- drop_drop. apply take_drop.
Qed.

Lemma chunk_count_ceiling text :
  (chunk_count text - 1) * chunkSize < Z.of_nat (length text)
  ≤ chunk_count text * chunkSize.
Proof.
  unfold chunk_count.
  pose proof (Z.div_mod (Z.of_nat (length text) + chunkSize - 1) chunkSize) as Hd.
  pose proof (Z.mod_pos_bound (Z.of_nat (length text) + chunkSize - 1) chunkSize) as Hm.
  unfold chunkSize, MAX_TEXT_LENGTH in *. lia.
Qed.

Lemma split_chunks_closed text :
  split_chunks text
  = (λ k, slice text (k * chunkSize) (k * chunkSize + chunkSize))
    <$> seqZ 0 (chunk_count text).
Proof.
  unfold split_chunks, chunk_count. rewrite chunk_loop_closed by done.
  rewrite Z.sub_0_r. done.
Qed.

Lemma chunk_count_nonneg text : 0 ≤ chunk_count text.
Proof. apply Z.div_pos; unfold chunkSize, MAX_TEXT_LENGTH; lia. Qed.

Lemma length_split_chunks text :
  Z.of_nat (length (split_chunks text)) = chunk_count text.
Proof.
  rewrite split_chunks_closed, length_fmap, length_seqZ.
  pose proof (chunk_count_nonneg text). lia.
Qed.

Lemma lookup_split_chunks text (k : nat) :
  (k < length (split_chunks text))%nat →
  split_chunks text !! k
  = Some (slice text (Z.of_nat k * chunkSize) (Z.of_nat k * chunkSize + chunkSize)).
Proof.
  intros Hk. pose proof (length_split_chunks text) as Hlen.
  rewrite split_chunks_closed, list_lookup_fmap, lookup_seqZ_lt by lia. done.
Qed.

Lemma split_chunks_sizes text :
  Forall (λ c, 0 < Z.of_nat (length c) ≤ chunkSize) (split_chunks text).
Proof.
  rewrite split_chunks_closed. apply Forall_fmap, Forall_seqZ. intros k Hk. simpl.
  pose proof (chunk_count_ceiling text) as Hc.
  rewrite length_slice; unfold chunkSize, MAX_TEXT_LENGTH in *; lia.
Qed.

(** C2. For every text longer than the threshold 50000, the loop of
    [analyzeInChunks] yields chunks whose concatenation is the text; there
    are ceil(length / 45000) of them; the k-th one is the slice of the text
    from [k * 45000] to [k * 45000 + 45000] (so consecutive chunks are
    adjacent, do not overlap and follow the order of the text); each one is
    non-empty and at most 45000 long; and a text of length 120000 gives
    three chunks of 45000, 45000 and 30000 code units. *)
Theorem split_chunks_partition (policyText : list A) :
  needs_chunking policyText = true →
  let chunks := split_chunks policyText in
  concat chunks = policyText
  ∧ Z.of_nat (length chunks) = chunk_count policyText
  ∧ (chunk_count policyText - 1) * 45000 < Z.of_nat (length policyText)
      ≤ chunk_count policyText * 45000
  ∧ (∀ k : nat, (k < length chunks)%nat →
       chunks !! k = Some (slice policyText (Z.of_nat k * 45000) (Z.of_nat k * 45000 + 45000)))
  ∧ Forall (λ c, 0 < Z.of_nat (length c) ≤ 45000) chunks
  ∧ (Z.of_nat (length policyText) = 120000 →
       (λ c, Z.of_nat (length c)) <$> chunks = [45000; 45000; 30000]).
Proof.
  intros _ chunks. subst chunks. repeat split.
  - unfold split_chunks. rewrite concat_chunk_loop by done. done.
  - apply length_split_chunks.
  - apply (chunk_count_ceiling policyText).
  - apply (chunk_count_ceiling policyText).
  - apply lookup_split_chunks.
  - apply split_chunks_sizes.
  - intros Hlen. rewrite split_chunks_closed. unfold chunk_count. rewrite Hlen.
    change ((120000 + chunkSize - 1) / chunkSize) with 3.
    change (seqZ 0 3) with [0; 1; 2]. simpl.
    rewrite !length_slice; unfold chunkSize, MAX_TEXT_LENGTH; rewrite ?Hlen; try lia.
    done.
Qed.

End TextFacts.

Lemma split_chunks_partition_witness :
  needs_chunking long_text = true ∧ concat (split_chunks long_text) = long_text.
Proof.
  assert (H : needs_chunking long_text = true) by (vm_compute; reflexivity).
  split; [exact H |].
  exact (proj1 (split_chunks_partition long_text H)).
Defined.

End ChunkingFacts.

(** * ResponseNormalizer: [extractJSON] and [parseAnalysisResponse] *)

Module Normalizer.

(** ** String operations *)

(** The code units below 256 that [trim] and the regular expression class
    [\s] treat as white space: TAB, LF, VT, FF, CR, SPACE and NBSP. *)
Definition is_space (c : ascii) : bool :=
  existsb (Ascii.eqb c) (ascii_of_nat <$> [9; 10; 11; 12; 13; 32; 160]%nat).

(** [s.trimStart()]. *)
Fixpoint trimStart (s : string) : string :=
  match s with
  | String c rest => if is_space c then trimStart rest else s
  | EmptyString => EmptyString
  end.

(** [s.trimEnd()]. *)
Fixpoint trimEnd (s : string) : string :=
  match s with
  | String c rest =>
      match trimEnd rest with
      | EmptyString => if is_space c then EmptyString else String c EmptyString
      | kept => String c kept
      end
  | EmptyString => EmptyString
  end.

(** [s.trim()]. *)
Definition trim (s : string) : string := trimEnd (trimStart s).

(** The rest of [s] after the prefix [p], when [s] starts with [p]. *)
Fixpoint strip_prefix (p s : string) : option string :=
  match p, s with
  | EmptyString, _ => Some s
  | String a p', String b s' => if Ascii.eqb a b then strip_prefix p' s' else None
  | String _ _, EmptyString => None
  end.

(** [s] without the suffix [p], when [s] ends with [p]. *)
Definition strip_suffix (p s : string) : option string :=
  let n := (String.length s - String.length p)%nat in
  if (String.length p <=? String.length s)%nat && String.eqb (substring n (String.length p) s) p
  then Some (substring 0 n s) else None.

(** [s.startsWith(p)]. *)
Definition startsWith (p s : string) : bool := bool_decide (is_Some (strip_prefix p s)).

(** [s.replace(/^```(?:json)?\s*/, '')]: the match is anchored at the
    start, takes the word json when it follows, then all white space. *)
Definition strip_opening_fence (s : string) : string :=
  match strip_prefix "```" s with
  | Some rest => trimStart (default rest (strip_prefix "json" rest))
  | None => s
  end.

(** [s.replace(/\s*```$/, '')]: the match ends at the end of [s], and the
    leftmost one starts at the white space that precedes the fence. *)
Definition strip_closing_fence (s : string) : string :=
  match strip_suffix "```" s with
  | Some rest => trimEnd rest
  | None => s
  end.

(** [s.indexOf(c)] for a one code unit string [c]; [None] stands for -1. *)
Fixpoint indexOf_char (c : ascii) (s : string) : option nat :=
  match s with
  | EmptyString => None
  | String c' rest => if Ascii.eqb c c' then Some 0%nat else S <$> indexOf_char c rest
  end.

(** [s.lastIndexOf(c)]. *)
Fixpoint lastIndexOf_char (c : ascii) (s : string) : option nat :=
  match s with
  | EmptyString => None
  | String c' rest =>
      match lastIndexOf_char c rest with
      | Some i => Some (S i)
      | None => if Ascii.eqb c c' then Some 0%nat else None
      end
  end.

(** [s.substring(a, b)] for indices within the string: the smaller index
    is the start, whichever comes first. *)
Definition js_substring (s : string) (a b : nat) : string :=
  substring (a `min` b) ((a `max` b) - (a `min` b)) s.

(** The upper case of a code unit among a to z; any other is left alone. *)
Definition upper_code_unit (c : ascii) : ascii :=
  let n := nat_of_ascii c in
  if ((97 <=? n) && (n <=? 122))%nat then ascii_of_nat (n - 32) else c.

(** [s.toUpperCase()] on the letters a to z.  A code unit outside this
    range never maps to one of A, B, C, D, F, and the module uses the
    result only when it is one of these five letters. *)
Fixpoint toUpperCase (s : string) : string :=
  match s with
  | EmptyString => EmptyString
  | String c rest => String (upper_code_unit c) (toUpperCase rest)
  end.

(** [v.toUpperCase()]: a TypeError unless [v] is a string (no other value
    has a callable member of that name). *)
Definition call_toUpperCase (v : value) : result string :=
  match v with
  | VStr s => Ok (toUpperCase s)
  | _ => Throw TypeError
  end.

(** ** The normalizer *)

(** [const validGrades = ['A', 'B', 'C', 'D', 'F']]. *)
Definition validGrades : list string := ["A"; "B"; "C"; "D"; "F"].

(** The summary given to a reply whose own is too short. *)
Definition FALLBACK_SUMMARY : string :=
  "Analysis complete. Review the findings below.".

(** The object returned by the [catch] block. *)
Definition SENTINEL : value :=
  VObj [("grade", VStr "?");
        ("summary", VStr "Unable to parse the analysis. Check your API settings and try again.");
        ("dirtyDozen", VObj []);
        ("highlights", VObj [("good", VArr []); ("bad", VArr [])]);
        ("criticalQuotes", VArr [])].

(** The text [extractJSON] hands to [JSON.parse]. *)
Definition json_text (text : string) : string :=
  let clean := trim text in
  let clean :=
    if startsWith "```" clean
    then strip_closing_fence (strip_opening_fence clean)
    else clean in
  match indexOf_char "{" clean, lastIndexOf_char "}" clean with
  | Some start, Some stop => js_substring clean start (stop + 1)
  | _, _ => clean
  end.

Section Host.

(** [JSON.parse] of the host: the parsed value, or the SyntaxError thrown. *)
Variable JSON_parse : string → result value.

(** The host's relational comparison [v > 10] for a string, array or
    object [v]: the outcome of ToPrimitive and ToNumber followed by the
    comparison, or the TypeError the conversion throws. *)
Variable greater_than_10 : value → result bool.

(** [extractJSON(text)]: [JSON.parse] of the cleaned text. *)
Definition extractJSON (text : string) : result value :=
  JSON_parse (json_text text).

(** The [if]/[else] that normalizes [parsed.grade]; yields the value
    stored in [parsed.grade]. *)
Definition normalize_grade (parsed : value) : result value :=
  grade ← get parsed "grade";
  invalid ← (if negb (truthy grade) then mret true
             else upper ← call_toUpperCase grade;
                  mret (negb (includes validGrades upper)));
  if invalid : bool then set parsed "grade" (VStr "C")
  else upper ← call_toUpperCase grade; set parsed "grade" (VStr upper).

(** [summary?.length > 10].  A string or an array has its number of code
    units or elements as [length]; an object has the value of its own
    [length] property, if any; every other value has none, and
    [undefined > 10] is false. *)
Definition length_exceeds_10 (summary : value) : result bool :=
  match summary with
  | VStr s => Ok (10 <? Z.of_nat (String.length s))
  | VArr elems => Ok (10 <? Z.of_nat (length elems))
  | VObj props =>
      match lookup_prop "length" props with
      | Some (VNum n) => Ok (PrimFloat.ltb 10 n)
      | Some (VStr _ as v) | Some (VArr _ as v) | Some (VObj _ as v) => greater_than_10 v
      | Some VUndefined | Some VNull | Some (VBool _) | None => Ok false
      end
  | VUndefined | VNull | VBool _ | VNum _ => Ok false
  end.

(** [typeof response === 'string' ? extractJSON(response) : response]. *)
Definition parsed_reply (response : value) : result value :=
  match response with
  | VStr text => extractJSON text
  | _ => mret response
  end.

(** The rest of the [try] block, from the value bound to [parsed]. *)
Definition validate (parsed : value) : result value :=
  grade ← normalize_grade parsed;
  summary ← get parsed "summary";
  long ← length_exceeds_10 summary;
  dirtyDozen ← get parsed "dirtyDozen";
  highlights ← get parsed "highlights";
  let good := get_opt highlights "good" in
  let bad := get_opt highlights "bad" in
  criticalQuotes ← get parsed "criticalQuotes";
  mret (VObj
    [("grade", grade);
     ("summary", if long : bool then summary else VStr FALLBACK_SUMMARY);
     ("dirtyDozen", if typeof_object dirtyDozen then dirtyDozen else VObj []);
     ("highlights",
        VObj [("good", if isArray good then good else VArr []);
              ("bad", if isArray bad then bad else VArr [])]);
     ("criticalQuotes", if isArray criticalQuotes then criticalQuotes else VArr [])]).

(** The body of the [try] block. *)
Definition parse_body (response : value) : result value :=
  parsed ← parsed_reply response; validate parsed.

(** [parseAnalysisResponse(response)]: the [try] block, and the sentinel
    of the [catch] block when it throws. *)
Definition parseAnalysisResponse (response : value) : value :=
  try_catch (parse_body response) SENTINEL.

(** ** Vocabulary of the properties *)

(** The shape of what the [try] block returns. *)
Definition validated_from (parsed : value) (g : value) (long : bool) : value :=
  let summary := prop parsed "summary" in
  let dirtyDozen := prop parsed "dirtyDozen" in
  let good := get_opt (prop parsed "highlights") "good" in
  let bad := get_opt (prop parsed "highlights") "bad" in
  let criticalQuotes := prop parsed "criticalQuotes" in
  VObj
    [("grade", g);
     ("summary", if long then summary else VStr FALLBACK_SUMMARY);
     ("dirtyDozen", if typeof_object dirtyDozen then dirtyDozen else VObj []);
     ("highlights",
        VObj [("good", if isArray good then good else VArr []);
              ("bad", if isArray bad then bad else VArr [])]);
     ("criticalQuotes", if isArray criticalQuotes then criticalQuotes else VArr [])].

(** A fully validated result: the five fields in the order of the returned
    object literal, a grade among A, B, C, D, F, a summary whose length
    exceeds 10, an object-typed dirtyDozen and arrays elsewhere. *)
Definition validated (r : value) : Prop :=
  ∃ g summary dirtyDozen good bad criticalQuotes,
    r = VObj [("grade", VStr g); ("summary", summary); ("dirtyDozen", dirtyDozen);
              ("highlights", VObj [("good", VArr good); ("bad", VArr bad)]);
              ("criticalQuotes", VArr criticalQuotes)]
    ∧ g ∈ validGrades
    ∧ length_exceeds_10 summary = Ok true
    ∧ typeof_object dirtyDozen = true.

End Host.

(** A value that is neither an object nor an array. *)
Definition primitive (v : value) : bool :=
  match v with
  | VObj _ | VArr _ => false
  | _ => true
  end.

(** A well-formed analysis result, as the data model describes it. *)
Definition well_formed (x : value) : bool :=
  is_object x
  && match prop x "grade" with
     | VStr g => includes validGrades g
     | _ => false
     end
  && match prop x "summary" with
     | VStr s => 10 <? Z.of_nat (String.length s)
     | _ => false
     end
  && is_object (prop x "dirtyDozen")
  && isArray (prop (prop x "highlights") "good")
  && isArray (prop (prop x "highlights") "bad")
  && isArray (prop x "criticalQuotes").

(** The findings a dirtyDozen value holds: the property values of an
    object, the elements of an array. *)
Definition findings (dirtyDozen : value) : list value :=
  match dirtyDozen with
  | VObj props => props.*2
  | VArr elems => elems
  | _ => []
  end.

(** The four statuses of the data model. *)
Definition STATUSES : list string := ["safe"; "warning"; "danger"; "unknown"].

(** [finding.status] is one of the four statuses. *)
Definition has_valid_status (finding : value) : bool :=
  match get_opt finding "status" with
  | VStr s => includes STATUSES s
  | _ => false
  end.

(** Every finding of [dirtyDozen] has one of the four statuses. *)
Definition statuses_valid (dirtyDozen : value) : Prop :=
  Forall (λ finding, has_valid_status finding = true) (findings dirtyDozen).

(** A well-formed analysis result. *)
Definition sample_result : value :=
  VObj [("grade", VStr "B");
        ("summary", VStr "Fine print is mostly okay here.");
        ("dirtyDozen",
           VObj [("data_sale", VObj [("status", VStr "safe"); ("finding", VStr "ok")])]);
        ("highlights", VObj [("good", VArr [VStr "a"]); ("bad", VArr [])]);
        ("criticalQuotes", VArr [])].

(** A reply whose only finding carries a status outside the four. *)
Definition odd_status_reply : value :=
  VObj [("grade", VStr "D");
        ("summary", VStr "This policy sells your data.");
        ("dirtyDozen",
           VObj [("data_sale",
                  VObj [("status", VStr "catastrophic"); ("finding", VStr "sells data")])])].

End Normalizer.

(** ** Properties of the normalizer *)

Module NormalizerFacts.
Import Normalizer.

Lemma includes_elem_of (order : list string) (s : string) :
  includes order s = true ↔ s ∈ order.
Proof.
  unfold includes. induction order as [| x order IH]; simpl.
  - split; [done | by intros ?%elem_of_nil].
  - rewrite orb_true_iff, String.eqb_eq, IH, elem_of_cons. done.
Qed.

Lemma toUpperCase_validGrades g :
  includes validGrades g = true → toUpperCase g = g.
Proof.
  intros H%includes_elem_of. unfold validGrades in H.
  repeat (apply elem_of_cons in H as [-> | H]; [reflexivity |]).
  by apply elem_of_nil in H.
Qed.

Section Host.
Variable JSON_parse : string → result value.
Variable greater_than_10 : value → result bool.

Local Abbreviation validate := (validate greater_than_10).
Local Abbreviation parse_body := (parse_body JSON_parse greater_than_10).
Local Abbreviation parseAnalysisResponse := (parseAnalysisResponse JSON_parse greater_than_10).
Local Abbreviation length_exceeds_10 := (length_exceeds_10 greater_than_10).
Local Abbreviation validated := (validated greater_than_10).

Lemma normalize_grade_Ok parsed g :
  normalize_grade parsed = Ok g →
  ∃ s, g = VStr s ∧ includes validGrades s = true.
Proof.
  unfold normalize_grade, get, set. destruct (nullish parsed); [done |]. monad_simpl.
  destruct (truthy (prop parsed "grade")); monad_simpl.
  - destruct (call_toUpperCase (prop parsed "grade")) as [u | e] eqn:Hu; [| done]. monad_simpl.
    destruct (includes validGrades u) eqn:Hin; monad_simpl.
    + destruct parsed; intros [= <-]; eauto.
    + destruct parsed; intros [= <-]; eauto.
  - destruct parsed; intros [= <-]; eauto.
Qed.

Lemma normalize_grade_not_nullish parsed g :
  normalize_grade parsed = Ok g → nullish parsed = false.
Proof. unfold normalize_grade, get. by destruct (nullish parsed). Qed.

Lemma validate_Ok parsed r :
  validate parsed = Ok r →
  ∃ g long,
    normalize_grade parsed = Ok g
    ∧ length_exceeds_10 (prop parsed "summary") = Ok long
    ∧ r = validated_from parsed g long.
Proof.
  unfold validate. destruct (normalize_grade parsed) as [g | e] eqn:Hg; [| done].
  apply normalize_grade_not_nullish in Hg as Hnn. unfold get. rewrite Hnn. monad_simpl.
  destruct (length_exceeds_10 (prop parsed "summary")) as [long | e] eqn:Hlong; [| done].
  monad_simpl. intros [= <-]. by exists g, long.
Qed.

Lemma validate_complete parsed g long :
  normalize_grade parsed = Ok g →
  length_exceeds_10 (prop parsed "summary") = Ok long →
  validate parsed = Ok (validated_from parsed g long).
Proof.
  intros Hg Hlong. unfold validate. rewrite Hg.
  apply normalize_grade_not_nullish in Hg as Hnn. unfold get. rewrite Hnn. monad_simpl.
  rewrite Hlong. done.
Qed.

Lemma validGrades_truthy s : includes validGrades s = true → truthy (VStr s) = true.
Proof. destruct s; [done |]. done. Qed.

Lemma normalize_grade_valid props s :
  lookup_prop "grade" props = Some (VStr s) →
  includes validGrades s = true →
  normalize_grade (VObj props) = Ok (VStr s).
Proof.
  intros Hp Hs. unfold normalize_grade, get. cbn [nullish prop]. rewrite Hp.
  monad_simpl. rewrite (validGrades_truthy s Hs). monad_simpl.
  cbn [call_toUpperCase]. monad_simpl. rewrite (toUpperCase_validGrades s Hs), Hs.
  reflexivity.
Qed.

Lemma validate_fixed parsed r : validate parsed = Ok r → validate r = Ok r.
Proof.
  intros (g & long & Hg & Hlong & ->)%validate_Ok.
  apply normalize_grade_Ok in Hg as (s & -> & Hs).
  unfold validated_from.
  set (summary := if long then _ else _).
  set (d := prop parsed "dirtyDozen").
  set (good := get_opt (prop parsed "highlights") "good").
  set (bad := get_opt (prop parsed "highlights") "bad").
  set (q := prop parsed "criticalQuotes").
  match goal with |- validate ?r = _ => rewrite (validate_complete r (VStr s) true) end.
  - unfold validated_from. subst summary.
    destruct (typeof_object d) eqn:Hd, (isArray good) eqn:Hgood,
      (isArray bad) eqn:Hbad, (isArray q) eqn:Hq;
      cbn; rewrite ?Hd, ?Hgood, ?Hbad, ?Hq; reflexivity.
  - by apply normalize_grade_valid.
  - subst summary. destruct long; [exact Hlong | reflexivity].
Qed.

Lemma parsed_reply_not_string response :
  (∀ text, response ≠ VStr text) → parsed_reply JSON_parse response = Ok response.
Proof. intros H. destruct response; try done. by destruct (H s). Qed.

Lemma parse_body_fixed response r : parse_body response = Ok r → parse_body r = Ok r.
Proof.
  unfold Normalizer.parse_body.
  destruct (parsed_reply JSON_parse response) as [parsed | e]; [| done]. monad_simpl.
  intros H. apply validate_Ok in H as H'. destruct H' as (g & long & _ & _ & ->).
  unfold validated_from. cbn [parsed_reply]. monad_simpl.
  exact (validate_fixed _ _ H).
Qed.

Lemma parseAnalysisResponse_fixed response r :
  parse_body response = Ok r →
  parseAnalysisResponse response = r ∧ parseAnalysisResponse r = r.
Proof.
  intros H. unfold Normalizer.parseAnalysisResponse.
  rewrite (parse_body_fixed _ _ H), H. done.
Qed.

Lemma array_or_empty v : ∃ elems, (if isArray v then v else VArr []) = VArr elems.
Proof. destruct v; cbn; eauto. Qed.

Lemma validate_validated parsed r : validate parsed = Ok r → validated r.
Proof.
  intros (g & long & Hg & Hlong & ->)%validate_Ok.
  apply normalize_grade_Ok in Hg as (s & -> & Hs%includes_elem_of).
  unfold validated_from.
  destruct (array_or_empty (get_opt (prop parsed "highlights") "good")) as [good ->].
  destruct (array_or_empty (get_opt (prop parsed "highlights") "bad")) as [bad ->].
  destruct (array_or_empty (prop parsed "criticalQuotes")) as [q ->].
  eexists s, _, _, good, bad, q. split; [reflexivity |]. split; [done |]. split.
  - destruct long; [exact Hlong | reflexivity].
  - by destruct (typeof_object (prop parsed "dirtyDozen")) eqn:Hd.
Qed.

Lemma validate_primitive parsed : primitive parsed = true → ∃ e, validate parsed = Throw e.
Proof.
  intros Hp. unfold Normalizer.validate, normalize_grade, get, set.
  destruct parsed; try done; cbn [nullish prop]; monad_simpl; eauto;
    cbn [truthy negb]; monad_simpl; eauto.
Qed.

(** C1. [parseAnalysisResponse] is a total function of its input (a string
    or any other value): it never raises.  Whenever the [try] block fails,
    it returns exactly the sentinel, and otherwise a fully validated
    result, so that every result is the sentinel or fully validated.  In
    particular the sentinel is returned when [JSON.parse] rejects the text
    extracted from a string reply, and when the reply, or what it parses
    to, is neither an object nor an array. *)
Theorem parseAnalysisResponse_total (response : value) :
  (∀ e, parse_body response = Throw e → parseAnalysisResponse response = SENTINEL)
  ∧ (∀ r, parse_body response = Ok r → parseAnalysisResponse response = r ∧ validated r)
  ∧ (parseAnalysisResponse response = SENTINEL ∨ validated (parseAnalysisResponse response))
  ∧ (∀ text e, response = VStr text → JSON_parse (json_text text) = Throw e →
       parseAnalysisResponse response = SENTINEL)
  ∧ (∀ parsed, parsed_reply JSON_parse response = Ok parsed → primitive parsed = true →
       parseAnalysisResponse response = SENTINEL).
Proof.
  assert (Hok : ∀ r, parse_body response = Ok r →
                     parseAnalysisResponse response = r ∧ validated r).
  { intros r H. unfold Normalizer.parseAnalysisResponse. rewrite H. split; [done |].
    unfold Normalizer.parse_body in H.
    destruct (parsed_reply JSON_parse response) as [parsed | e]; [| done].
    exact (validate_validated _ _ H). }
  assert (Hthrow : ∀ e, parse_body response = Throw e →
                        parseAnalysisResponse response = SENTINEL).
  { intros e H. unfold Normalizer.parseAnalysisResponse. by rewrite H. }
  repeat split.
  - exact Hthrow.
  - by apply Hok.
  - by apply Hok.
  - destruct (parse_body response) as [r | e] eqn:H.
    + right. by destruct (Hok r eq_refl) as [-> ?].
    + left. by apply (Hthrow e).
  - intros text e -> H. apply (Hthrow e).
    unfold Normalizer.parse_body, parsed_reply, extractJSON. by rewrite H.
  - intros parsed Hp Hprim. destruct (validate_primitive parsed Hprim) as [e He].
    apply (Hthrow e). unfold Normalizer.parse_body. by rewrite Hp.
Qed.

(** How the grade is settled for an object or array reply, by the value of
    its grade property: a falsy grade and a string outside A, B, C, D, F
    (whatever its case) give C; a string inside gives its upper case; a
    truthy value that is not a string has no [toUpperCase] method, and the
    call throws. *)
Lemma normalize_grade_cases parsed :
  primitive parsed = false →
  normalize_grade parsed =
    match prop parsed "grade" with
    | VStr s =>
        if String.eqb s "" then Ok (VStr "C")
        else if includes validGrades (toUpperCase s) then Ok (VStr (toUpperCase s))
        else Ok (VStr "C")
    | g => if truthy g then Throw TypeError else Ok (VStr "C")
    end.
Proof.
  intros Hp. unfold normalize_grade, get, set.
  assert (nullish parsed = false) as -> by (by destruct parsed). monad_simpl.
  assert (Hset : ∀ v : value, match parsed with
                      | VObj _ | VArr _ => Ok v
                      | _ => Throw TypeError
                      end = Ok v) by (intros v; by destruct parsed).
  destruct (prop parsed "grade") as [| | b | n | s | elems | props];
    cbn [truthy call_toUpperCase]; monad_simpl; rewrite ?Hset; try done.
  - destruct b; monad_simpl; rewrite ?Hset; done.
  - destruct (_ || _); monad_simpl; rewrite ?Hset; done.
  - destruct (String.eqb s ""); monad_simpl; rewrite ?Hset; [done |].
    destruct (includes validGrades (toUpperCase s)); monad_simpl; rewrite ?Hset; done.
Qed.

(** The texts of three replies that are no JSON, and of a fenced reply, as
    [extractJSON] hands them to [JSON.parse]. *)
Lemma json_text_examples :
  json_text "not json at all" = "not json at all"
  ∧ json_text "" = ""
  ∧ json_text "```not{closed" = "not{closed"
  ∧ json_text (String.concat (String (ascii_of_nat 10) EmptyString)
                 ["Here you go:"; "```json"; "{ }"; "```"; "Bye"]) = "{ }".
Proof. repeat split; reflexivity. Qed.

(** Observed behaviour for C4 (a defect of the code): a reply that parses
    to an object whose grade is the number 5 makes [toUpperCase] throw, and
    the result is the sentinel, with grade ?, instead of grade C. *)
Theorem numeric_grade_yields_sentinel :
  parseAnalysisResponse (VObj [("grade", VNum 5)]) = SENTINEL
  ∧ prop (parseAnalysisResponse (VObj [("grade", VNum 5)])) "grade" = VStr "?".
Proof. split; reflexivity. Qed.

(** The same through a string reply, whenever the host parses the
    extracted text to that object. *)
Lemma numeric_grade_reply_yields_sentinel text :
  JSON_parse (json_text text) = Ok (VObj [("grade", VNum 5)]) →
  parseAnalysisResponse (VStr text) = SENTINEL.
Proof.
  intros H. unfold Normalizer.parseAnalysisResponse, Normalizer.parse_body, parsed_reply, extractJSON.
  rewrite H. reflexivity.
Qed.

Lemma well_formed_parse_body x :
  well_formed x = true →
  parse_body x = Ok (validated_from x (prop x "grade") true).
Proof.
  unfold well_formed. rewrite !andb_true_iff.
  intros ((((((Hobj & Hg) & Hs) & _) & _) & _) & _).
  destruct x as [| | | | | | props]; try done.
  unfold Normalizer.parse_body. cbn [parsed_reply]. monad_simpl.
  destruct (prop (VObj props) "grade") as [| | | | g | |] eqn:Hgrade; try done.
  destruct (prop (VObj props) "summary") as [| | | | s | |] eqn:Hsum; try done.
  apply validate_complete.
  - apply normalize_grade_valid; [| done]. cbn [prop] in Hgrade.
    destruct (lookup_prop "grade" props) as [v |]; [by subst | done].
  - rewrite Hsum. cbn [Normalizer.length_exceeds_10]. by rewrite Hs.
Qed.

(** C8. [parseAnalysisResponse] is idempotent on well-formed input: for
    every analysis result with a grade among A, B, C, D, F, a summary
    string longer than 10, an object dirtyDozen, array highlights and
    array criticalQuotes, normalizing twice equals normalizing once. *)
Theorem parseAnalysisResponse_idempotent (x : value) :
  well_formed x = true →
  parseAnalysisResponse (parseAnalysisResponse x) = parseAnalysisResponse x.
Proof.
  intros H%well_formed_parse_body.
  destruct (parseAnalysisResponse_fixed _ _ H) as [Hx Hr].
  rewrite Hx. exact Hr.
Qed.

(** C10. The sentinel is not a fixed point: normalizing it turns the
    grade ? into C and leaves the other four fields as they are. *)
Theorem sentinel_renormalized :
  parseAnalysisResponse SENTINEL =
    VObj [("grade", VStr "C");
          ("summary", prop SENTINEL "summary");
          ("dirtyDozen", prop SENTINEL "dirtyDozen");
          ("highlights", prop SENTINEL "highlights");
          ("criticalQuotes", prop SENTINEL "criticalQuotes")]
  ∧ prop (parseAnalysisResponse SENTINEL) "grade" = VStr "C"
  ∧ parseAnalysisResponse SENTINEL ≠ SENTINEL
  ∧ prop (parseAnalysisResponse (parseAnalysisResponse SENTINEL)) "grade" ≠ VStr "?".
Proof. repeat split; try reflexivity; discriminate. Qed.

(** The dirtyDozen of what the [try] block returns. *)
Lemma validate_dirtyDozen parsed r :
  validate parsed = Ok r →
  prop r "dirtyDozen"
  = if typeof_object (prop parsed "dirtyDozen") then prop parsed "dirtyDozen" else VObj [].
Proof. intros (g & long & _ & _ & ->)%validate_Ok. reflexivity. Qed.

(** C9, amended. The normalizer does not look at the findings.  When the
    [try] block throws, the result is the sentinel, whose dirtyDozen is
    the empty object.  When it returns, the dirtyDozen of the result is
    the dirtyDozen of the parsed reply, unchanged, when [typeof] of that
    is ['object'] ([null] and arrays included), and the empty object
    otherwise.  Hence the invariant on statuses is kept but not
    established: when every finding of the parsed reply's dirtyDozen has
    a status among safe, warning, danger and unknown, so has every
    finding of the result's dirtyDozen. *)
Theorem statuses_valid_preserved (response : value) :
  (∀ e, parse_body response = Throw e →
        parseAnalysisResponse response = SENTINEL
        ∧ prop (parseAnalysisResponse response) "dirtyDozen" = VObj [])
  ∧ (∀ parsed r, parsed_reply JSON_parse response = Ok parsed →
                 parse_body response = Ok r →
                 parseAnalysisResponse response = r
                 ∧ prop (parseAnalysisResponse response) "dirtyDozen"
                   = if typeof_object (prop parsed "dirtyDozen")
                     then prop parsed "dirtyDozen" else VObj [])
  ∧ ((∀ parsed, parsed_reply JSON_parse response = Ok parsed →
                statuses_valid (prop parsed "dirtyDozen")) →
     statuses_valid (prop (parseAnalysisResponse response) "dirtyDozen")).
Proof.
  assert (Hthrow : ∀ e, parse_body response = Throw e →
                        parseAnalysisResponse response = SENTINEL
                        ∧ prop (parseAnalysisResponse response) "dirtyDozen" = VObj []).
  { intros e He. unfold Normalizer.parseAnalysisResponse. by rewrite He. }
  assert (Hok : ∀ parsed r, parsed_reply JSON_parse response = Ok parsed →
                            parse_body response = Ok r →
                            parseAnalysisResponse response = r
                            ∧ prop (parseAnalysisResponse response) "dirtyDozen"
                              = if typeof_object (prop parsed "dirtyDozen")
                                then prop parsed "dirtyDozen" else VObj []).
  { intros parsed r Hparsed Hr. unfold Normalizer.parseAnalysisResponse. rewrite Hr.
    split; [done |]. unfold Normalizer.parse_body in Hr. rewrite Hparsed in Hr.
    by apply validate_dirtyDozen. }
  split; [exact Hthrow |]. split; [exact Hok |].
  intros Hvalid. destruct (parse_body response) as [r | e] eqn:Hbody.
  - destruct (parsed_reply JSON_parse response) as [parsed | e] eqn:Hparsed.
    + destruct (Hok parsed r eq_refl eq_refl) as [_ ->].
      destruct (typeof_object (prop parsed "dirtyDozen")); [by apply Hvalid | constructor].
    + unfold Normalizer.parse_body in Hbody. by rewrite Hparsed in Hbody.
  - destruct (Hthrow e eq_refl) as [_ ->]. constructor.
Qed.

End Host.

Lemma parseAnalysisResponse_idempotent_witness :
  well_formed sample_result = true
  ∧ ∀ JSON_parse greater_than_10,
      parseAnalysisResponse JSON_parse greater_than_10
        (parseAnalysisResponse JSON_parse greater_than_10 sample_result)
      = parseAnalysisResponse JSON_parse greater_than_10 sample_result.
Proof.
  split; [reflexivity |]. intros JSON_parse greater_than_10.
  apply (parseAnalysisResponse_idempotent JSON_parse greater_than_10 sample_result).
  reflexivity.
Defined.

Lemma statuses_valid_preserved_witness :
  statuses_valid (prop sample_result "dirtyDozen")
  ∧ ∀ JSON_parse greater_than_10,
      statuses_valid
        (prop (parseAnalysisResponse JSON_parse greater_than_10 sample_result) "dirtyDozen").
Proof.
  assert (H : statuses_valid (prop sample_result "dirtyDozen")).
  { repeat constructor. }
  split; [exact H |]. intros JSON_parse greater_than_10.
  apply (statuses_valid_preserved JSON_parse greater_than_10 sample_result).
  intros parsed [= <-]. exact H.
Defined.

(** C9 as stated fails: the status [catastrophic] of the reply is still
    there in the result, whatever the host. *)
Lemma statuses_not_validated :
  ¬ ∃ JSON_parse greater_than_10,
      statuses_valid
        (prop (parseAnalysisResponse JSON_parse greater_than_10 odd_status_reply) "dirtyDozen").
Proof.
  intros (JSON_parse & greater_than_10 & H).
  apply Forall_cons_1 in H as [H _]. discriminate H.
Qed.

End NormalizerFacts.

(** * ResultMerger: [mergeChunkResults] *)

Module Merger.

(** The [highlights] of the object [mergeChunkResults] returns. *)
Record Highlights : Type := { good : list value; bad : list value }.

(** What the object [mergedDirtyDozen] inherits from: [Object.prototype],
    as the literal [{}] leaves it, or what an assignment to its
    [__proto__] has put in that place, which is [null], an object of the
    replies or an array of the replies. *)
Inductive Prototype : Type :=
| ObjectPrototype
| NullPrototype
| ObjectParent (props : list (string * value))
| ArrayParent (elems : list value).

(** The object [mergedDirtyDozen]: its own properties, kept as a finite
    map from keys to findings, and its prototype. *)
Record DirtyDozen : Type := {
  own : gmap string value;
  prototype : Prototype
}.

(** The object [mergeChunkResults] returns.  [dirtyDozen] holds the own
    properties of its dirtyDozen, [dirtyDozenPrototype] the prototype of
    that object. *)
Record AnalysisResult : Type := {
  grade : value;
  summary : value;
  dirtyDozen : gmap string value;
  dirtyDozenPrototype : Prototype;
  highlights : Highlights;
  criticalQuotes : list value
}.

(** [const gradeOrder = ['A', 'B', 'C', 'D', 'F']]. *)
Definition gradeOrder : list string := ["A"; "B"; "C"; "D"; "F"].

(** [const statusOrder = ['safe', 'unknown', 'warning', 'danger']]. *)
Definition statusOrder : list string := ["safe"; "unknown"; "warning"; "danger"].

(** [l.reduce(f, init)], and [l.forEach] seen as a fold over the state the
    callback updates. *)
Fixpoint reduce {A B : Type} (f : A → B → result A) (init : A) (l : list B) : result A :=
  match l with
  | [] => mret init
  | x :: rest => acc ← f init x; reduce f acc rest
  end.

(** [l.flatMap(f)]. *)
Fixpoint flatMap (f : value → result value) (l : list value) : result (list value) :=
  match l with
  | [] => mret []
  | x :: rest => y ← f x; ys ← flatMap f rest; mret (flatten1 y ++ ys)
  end.

(** [Object.entries(v)] for a non-nullish [v]: the properties of an object,
    the indexed elements of an array, the indexed code units of a string,
    nothing for a number or a boolean. *)
Definition Object_entries (v : value) : list (string * value) :=
  match v with
  | VObj props => props
  | VArr elems => imap (λ i x, (pretty i, x)) elems
  | VStr s => imap (λ i c, (pretty i, VStr (String c EmptyString))) (list_ascii_of_string s)
  | _ => []
  end.

(** The callback of [results.reduce]. *)
Definition worse_grade (worst r : value) : result value :=
  grade ← get r "grade";
  let currentIdx := indexOf gradeOrder grade in
  let worstIdx := indexOf gradeOrder worst in
  mret (if currentIdx >? worstIdx then grade else worst).

(** [statusOrder.indexOf(finding.status)]. *)
Definition status_index (finding : value) : result Z :=
  status ← get finding "status"; mret (indexOf statusOrder status).

(** The string-keyed properties of [Object.prototype]: the accessor
    [__proto__], and functions. *)
Definition Object_prototype_names : list string :=
  ["constructor"; "__defineGetter__"; "__defineSetter__"; "hasOwnProperty";
   "__lookupGetter__"; "__lookupSetter__"; "isPrototypeOf"; "propertyIsEnumerable";
   "toString"; "valueOf"; "__proto__"; "toLocaleString"].

(** The string-keyed properties of [Array.prototype] besides [length]
    (ECMAScript 2023): functions. *)
Definition Array_prototype_names : list string :=
  ["constructor"; "at"; "concat"; "copyWithin"; "fill"; "find"; "findIndex";
   "findLast"; "findLastIndex"; "lastIndexOf"; "pop"; "push"; "reverse"; "shift";
   "unshift"; "slice"; "sort"; "splice"; "includes"; "indexOf"; "join"; "keys";
   "entries"; "values"; "forEach"; "filter"; "flat"; "flatMap"; "map"; "every";
   "some"; "reduce"; "reduceRight"; "toLocaleString"; "toString"; "toReversed";
   "toSorted"; "toSpliced"; "with"].

(** What a read of [mergedDirtyDozen[key]] yields: a value of the replies,
    or an object of the engine (a function of a prototype, or
    [Object.prototype] itself), which is truthy and has no [status]. *)
Inductive Member : Type :=
| Data (v : value)
| BuiltIn.

(** The property [key] as [Object.prototype] provides it; [parent] is what
    the getter of [__proto__] answers, the prototype of the object read. *)
Definition Object_prototype_member (parent : Member) (key : string) : Member :=
  if String.eqb key "__proto__" then parent
  else if includes Object_prototype_names key then BuiltIn
  else Data VUndefined.

(** The property [key] as an object inherits it through [prototype].  An
    array has its elements and its [length] as own properties. *)
Definition inherited (prototype : Prototype) (key : string) : Member :=
  match prototype with
  | ObjectPrototype => Object_prototype_member BuiltIn key
  | NullPrototype => Data VUndefined
  | ObjectParent props =>
      match lookup_prop key props with
      | Some v => Data v
      | None => Object_prototype_member (Data (VObj props)) key
      end
  | ArrayParent elems =>
      match lookup_prop key (Object_entries (VArr elems)) with
      | Some v => Data v
      | None =>
          if String.eqb key "length"
          then Data (VNum (PrimFloat.of_uint63 (Uint63.of_Z (Z.of_nat (length elems)))))
          else if includes Array_prototype_names key then BuiltIn
          else Object_prototype_member (Data (VArr elems)) key
      end
  end.

(** [mergedDirtyDozen[key]]: the own property, else the inherited one. *)
Definition read (mergedDirtyDozen : DirtyDozen) (key : string) : Member :=
  match own mergedDirtyDozen !! key with
  | Some v => Data v
  | None => inherited (prototype mergedDirtyDozen) key
  end.

(** The setter of [__proto__]: an object, an array or [null] becomes the
    prototype; any other value is ignored. *)
Definition set_prototype (mergedDirtyDozen : DirtyDozen) (value : value) : DirtyDozen :=
  match value with
  | VObj props => {| own := own mergedDirtyDozen; prototype := ObjectParent props |}
  | VArr elems => {| own := own mergedDirtyDozen; prototype := ArrayParent elems |}
  | VNull => {| own := own mergedDirtyDozen; prototype := NullPrototype |}
  | _ => mergedDirtyDozen
  end.

(** An assignment to [__proto__] through [prototype] reaches the accessor
    of [Object.prototype]: no object before it in the chain has a property
    of that name. *)
Definition reaches_setter (prototype : Prototype) : bool :=
  match prototype with
  | ObjectPrototype | ArrayParent _ => true
  | NullPrototype => false
  | ObjectParent props => bool_decide (lookup_prop "__proto__" props = None)
  end.

(** [mergedDirtyDozen[key] = value]: the setter of [__proto__] when the
    key is [__proto__], the object has no own property of that name and
    the accessor is inherited; the own property [key], created or
    updated, otherwise. *)
Definition set_property (mergedDirtyDozen : DirtyDozen) (key : string) (value : value)
  : DirtyDozen :=
  if String.eqb key "__proto__"
     && bool_decide (own mergedDirtyDozen !! key = None)
     && reaches_setter (prototype mergedDirtyDozen)
  then set_prototype mergedDirtyDozen value
  else {| own := <[key := value]> (own mergedDirtyDozen);
          prototype := prototype mergedDirtyDozen |}.

(** [!existing]. *)
Definition member_truthy (existing : Member) : bool :=
  match existing with
  | Data v => truthy v
  | BuiltIn => true
  end.

(** [statusOrder.indexOf(existing.status)]. *)
Definition member_status_index (existing : Member) : result Z :=
  match existing with
  | Data v => status_index v
  | BuiltIn => mret (indexOf statusOrder VUndefined)
  end.

(** The callback of the inner [forEach], on the object built so far. *)
Definition merge_entry (mergedDirtyDozen : DirtyDozen) (entry : string * value)
  : result DirtyDozen :=
  let '(key, value) := entry in
  let existing := read mergedDirtyDozen key in
  replace ← (if negb (member_truthy existing) then mret true
             else v ← status_index value; e ← member_status_index existing; mret (v >? e));
  mret (if replace : bool then set_property mergedDirtyDozen key value else mergedDirtyDozen).

(** The callback of the outer [forEach]. *)
Definition merge_result (mergedDirtyDozen : DirtyDozen) (result : value)
  : JS.result DirtyDozen :=
  dirtyDozen ← get result "dirtyDozen";
  reduce merge_entry mergedDirtyDozen (Object_entries (or_else dirtyDozen (VObj []))).

(** [const mergedDirtyDozen = {}]. *)
Definition empty_object : DirtyDozen := {| own := ∅; prototype := ObjectPrototype |}.

(** [r => r.highlights?.good || []]. *)
Definition good_of (r : value) : result value :=
  highlights ← get r "highlights"; mret (or_else (get_opt highlights "good") (VArr [])).

(** [r => r.highlights?.bad || []]. *)
Definition bad_of (r : value) : result value :=
  highlights ← get r "highlights"; mret (or_else (get_opt highlights "bad") (VArr [])).

(** [r => r.criticalQuotes || []]. *)
Definition quotes_of (r : value) : result value :=
  criticalQuotes ← get r "criticalQuotes"; mret (or_else criticalQuotes (VArr [])).

(** [mergeChunkResults(results)]. *)
Definition mergeChunkResults (results : list value) : result AnalysisResult :=
  worstGrade ← reduce worse_grade (VStr "A") results;
  mergedDirtyDozen ← reduce merge_result empty_object results;
  goods ← flatMap good_of results;
  let allGood := spread_set goods in
  bads ← flatMap bad_of results;
  let allBad := spread_set bads in
  allQuotes ← flatMap quotes_of results;
  mret {|
    grade := worstGrade;
    summary := or_else (get_opt (default VUndefined (head results)) "summary")
                       (VStr "Analysis complete.");
    dirtyDozen := own mergedDirtyDozen;
    dirtyDozenPrototype := prototype mergedDirtyDozen;
    highlights := {| good := take 5 allGood; bad := take 10 allBad |};
    criticalQuotes := take 5 allQuotes
  |}.

(** ** Vocabulary of the properties *)

(** The entries the merger visits in an object [r]. *)
Definition dirtyDozen_entries (r : value) : list (string * value) :=
  Object_entries (or_else (prop r "dirtyDozen") (VObj [])).

(** A key that can stand for a category: a name that is not inherited. *)
Definition category_key (k : string) : bool :=
  negb (includes Object_prototype_names k).

(** The ids of [DIRTY_DOZEN] in [utils/constants.js]. *)
Definition DIRTY_DOZEN_IDS : list string :=
  ["data_sale"; "ai_training"; "forced_arbitration"; "content_ownership";
   "location_tracking"; "cross_site_tracking"; "data_retention";
   "third_party_sharing"; "policy_changes"; "account_termination";
   "biometric_collection"; "children_data"].

(** A dirtyDozen entry: a category key with a finding object. *)
Definition finding_entry (entry : string * value) : Prop :=
  category_key entry.1 = true ∧ is_object entry.2 = true.

(** An analysis result as the merger expects it: an object whose
    dirtyDozen, if any, maps category keys to finding objects. *)
Definition analysis_result (r : value) : Prop :=
  is_object r = true ∧ Forall finding_entry (dirtyDozen_entries r).

(** The index of the grade of [r] in [gradeOrder], -1 when it has none. *)
Definition grade_index (r : value) : Z := indexOf gradeOrder (prop r "grade").

(** The index of the status of a finding in [statusOrder], -1 when it has
    none. *)
Definition status_rank (finding : value) : Z := indexOf statusOrder (prop finding "status").

(** What one entry does to the finding kept for its key. *)
Definition keep (kept : option value) (finding : value) : option value :=
  match kept with
  | None => Some finding
  | Some existing =>
      if status_rank finding >? status_rank existing then Some finding else Some existing
  end.

(** Every finding kept so far is an object. *)
Definition objects_only (m : gmap string value) : Prop :=
  map_Forall (λ _ finding, is_object finding = true) m.

(** The object with the own properties [m] and the prototype that the
    literal [{}] gives it. *)
Definition plain (m : gmap string value) : DirtyDozen :=
  {| own := m; prototype := ObjectPrototype |}.

(** The finding kept, if any, is truthy. *)
Definition kept_truthy (kept : option value) : Prop :=
  ∀ finding, kept = Some finding → truthy finding = true.

(** The findings reported for [key] among some entries, in their order. *)
Definition findings_for (key : string) (entries : list (string * value)) : list value :=
  (filter (λ entry, entry.1 = key) entries).*2.

(** All dirtyDozen entries of the results, in chunk order. *)
Definition all_entries (results : list value) : list (string * value) :=
  concat (dirtyDozen_entries <$> results).

(** [f] is the earliest of the findings whose status has the highest
    index: everything before it ranks strictly lower, nothing after it
    ranks higher. *)
Definition earliest_worst (f : value) (findings : list value) : Prop :=
  ∃ before after,
    findings = before ++ f :: after
    ∧ Forall (λ x, status_rank x < status_rank f) before
    ∧ Forall (λ x, status_rank x ≤ status_rank f) after.

(** [r.highlights.good], [undefined] when [r] has no highlights. *)
Definition good_field (r : value) : value := prop (prop r "highlights") "good".

(** [r.highlights.bad]. *)
Definition bad_field (r : value) : value := prop (prop r "highlights") "bad".

(** [r.criticalQuotes]. *)
Definition quotes_field (r : value) : value := prop r "criticalQuotes".

(** The grade of [r] is one of A, B, C, D, F. *)
Definition graded (r : value) : Prop :=
  ∃ g, prop r "grade" = VStr g ∧ g ∈ gradeOrder.

(** The grade of [r] is missing or not recognized. *)
Definition ungraded (r : value) : Prop :=
  ∀ g, g ∈ gradeOrder → prop r "grade" ≠ VStr g.

(** Two analysis results: one graded A, one graded D. *)
Definition result_A : value :=
  VObj [("grade", VStr "A");
        ("summary", VStr "Mostly harmless terms.");
        ("dirtyDozen", VObj [("data_sale", VObj [("status", VStr "safe"); ("finding", VStr "ok")])]);
        ("highlights", VObj [("good", VArr [VStr "a"; VStr "b"]); ("bad", VArr [])]);
        ("criticalQuotes", VArr [])].

(** The second one reports the same category with a worse status. *)
Definition result_D : value :=
  VObj [("grade", VStr "D");
        ("summary", VStr "Sells personal data.");
        ("dirtyDozen",
           VObj [("data_sale", VObj [("status", VStr "danger"); ("finding", VStr "sells data")])]);
        ("highlights", VObj [("good", VArr [VStr "b"; VStr "c"]); ("bad", VArr [])]);
        ("criticalQuotes", VArr [])].

(** A result as the normalizer can return it, whose finding for the
    category of [result_A] is [null]. *)
Definition null_finding_result : value :=
  VObj [("grade", VStr "D");
        ("summary", VStr "Sells personal data.");
        ("dirtyDozen", VObj [("data_sale", VNull)]);
        ("highlights", VObj [("good", VArr [VStr "b"; VStr "c"]); ("bad", VArr [])]);
        ("criticalQuotes", VArr [])].

(** A result whose only entry has the value [finding] under [key]. *)
Definition result_with (key : string) (finding : value) : value :=
  VObj [("grade", VStr "B");
        ("summary", VStr "Fine print is mostly okay here.");
        ("dirtyDozen", VObj [(key, finding)]);
        ("highlights", VObj [("good", VArr []); ("bad", VArr [])]);
        ("criticalQuotes", VArr [])].

(** A list without its repetitions, each element at its first occurrence. *)
Fixpoint dedup_first (l : list string) : list string :=
  match l with
  | [] => []
  | x :: rest => x :: filter (λ y, y ≠ x) (dedup_first rest)
  end.


(** [v] is an array of strings. *)
Definition string_array (v : value) : Prop := ∃ l, v = VArr (VStr <$> l).

(** The strings of an array of strings. *)
Definition strings_of (v : value) : list string :=
  match v with
  | VArr elems => omap (λ e, match e with VStr s => Some s | _ => None end) elems
  | _ => []
  end.

(** The elements of an array. *)
Definition elements (v : value) : list value :=
  match v with
  | VArr elems => elems
  | _ => []
  end.

End Merger.

(** ** Properties of the merger *)

Module MergerFacts.
Import Merger.

Lemma get_object o k : is_object o = true → get o k = Ok (prop o k).
Proof. by destruct o. Qed.

Lemma get_opt_prop o k : get_opt o k = prop o k.
Proof. by destruct o. Qed.

(** The twelve category ids are category keys. *)
Lemma DIRTY_DOZEN_IDS_category_keys :
  Forall (λ id, category_key id = true) DIRTY_DOZEN_IDS.
Proof. repeat constructor. Qed.

(** *** The grade *)

Lemma worse_grade_object worst r :
  is_object r = true →
  worse_grade worst r
  = Ok (if grade_index r >? indexOf gradeOrder worst then prop r "grade" else worst).
Proof. intros H. unfold worse_grade. by rewrite get_object. Qed.

Lemma index_from_bounds order s i :
  index_from i order s = -1 ∨ i ≤ index_from i order s < i + Z.of_nat (length order).
Proof.
  revert i. induction order as [| x order IH]; intros i; cbn [index_from length]; [by left |].
  destruct (String.eqb x s); [right; lia |].
  destruct (IH (i + 1)) as [-> | ?]; [by left | right; lia].
Qed.

Lemma indexOf_lower order v : -1 ≤ indexOf order v.
Proof.
  destruct v; cbn; try lia.
  destruct (index_from_bounds order s 0); lia.
Qed.

(** The scan keeps a grade of maximal index among the accumulator and the
    grades seen, and it is the accumulator or one of these grades. *)
Lemma reduce_worse_grade results worst :
  Forall (λ r, is_object r = true) results →
  ∃ w, reduce worse_grade worst results = Ok w
       ∧ (w = worst ∨ ∃ r, r ∈ results ∧ w = prop r "grade" ∧ 0 ≤ grade_index r)
       ∧ indexOf gradeOrder worst ≤ indexOf gradeOrder w
       ∧ Forall (λ r, grade_index r ≤ indexOf gradeOrder w) results.
Proof.
  intros Hobj. revert worst.
  induction Hobj as [| r results Hr _ IH]; intros worst; cbn [reduce].
  - exists worst. repeat split; [by left | lia | constructor].
  - rewrite worse_grade_object by done. monad_simpl.
    pose proof (indexOf_lower gradeOrder worst) as Hlow.
    destruct (Z.gtb_spec (grade_index r) (indexOf gradeOrder worst)) as [Hgt | Hle].
    + destruct (IH (prop r "grade")) as (w & -> & Hw & Hmono & Hall).
      exists w. repeat split.
      * right. destruct Hw as [-> | (r' & Hin & -> & Hpos)].
        -- exists r. split; [left |]. split; [done |]. lia.
        -- exists r'. split; [by right | done].
      * fold (grade_index r) in Hmono. lia.
      * constructor; [done | done].
    + destruct (IH worst) as (w & -> & Hw & Hmono & Hall).
      exists w. repeat split.
      * destruct Hw as [-> | (r' & Hin & -> & Hpos)]; [by left |].
        right. exists r'. split; [by right | done].
      * done.
      * constructor; [lia | done].
Qed.

Lemma worse_grade_Ok worst r acc :
  worse_grade worst r = Ok acc →
  acc = if grade_index r >? indexOf gradeOrder worst then prop r "grade" else worst.
Proof.
  unfold worse_grade, get. destruct (nullish r); [done |]. monad_simpl. by intros [= <-].
Qed.

(** The same whenever the scan returns, whatever the results are. *)
Lemma reduce_worse_grade_Ok results worst w :
  reduce worse_grade worst results = Ok w →
  (w = worst ∨ ∃ r, r ∈ results ∧ w = prop r "grade" ∧ 0 ≤ grade_index r)
  ∧ indexOf gradeOrder worst ≤ indexOf gradeOrder w
  ∧ Forall (λ r, grade_index r ≤ indexOf gradeOrder w) results.
Proof.
  revert worst. induction results as [| r results IH]; intros worst; cbn [reduce].
  - intros [= <-]. repeat split; [by left | lia | constructor].
  - destruct (worse_grade worst r) as [acc |] eqn:Hstep; monad_simpl; [| done].
    apply worse_grade_Ok in Hstep. intros (Hw & Hmono & Hall)%IH.
    pose proof (indexOf_lower gradeOrder worst) as Hlow.
    destruct (Z.gtb_spec (grade_index r) (indexOf gradeOrder worst)) as [Hgt | Hle];
      subst acc; repeat split.
    + right. destruct Hw as [-> | (r' & Hin & -> & Hpos)].
      * exists r. split; [left |]. split; [done |]. lia.
      * exists r'. split; [by right | done].
    + fold (grade_index r) in Hmono. lia.
    + constructor; [done | done].
    + destruct Hw as [-> | (r' & Hin & -> & Hpos)]; [by left |].
      right. exists r'. split; [by right | done].
    + done.
    + constructor; [lia | done].
Qed.

(** *** The dirtyDozen map *)

(** A read of an object that still has the prototype of the literal. *)
Lemma read_plain m key :
  read (plain m) key
  = match m !! key with
    | Some existing => Data existing
    | None => if includes Object_prototype_names key then BuiltIn else Data VUndefined
    end.
Proof.
  unfold read, plain. cbn [own prototype inherited]. destruct (m !! key); [done |].
  unfold Object_prototype_member. by destruct (String.eqb_spec key "__proto__") as [-> | _].
Qed.

(** An assignment to a key other than [__proto__] makes an own property. *)
Lemma set_property_plain m key finding :
  key ≠ "__proto__" → set_property (plain m) key finding = plain (<[key := finding]> m).
Proof.
  intros Hkey. unfold set_property. by destruct (String.eqb_spec key "__proto__").
Qed.

Lemma category_key_not_proto key : category_key key = true → key ≠ "__proto__".
Proof. by intros H ->. Qed.

Lemma get_truthy v k : truthy v = true → get v k = Ok (prop v k).
Proof. by destruct v. Qed.

Lemma merge_entry_pure m key finding :
  objects_only m → category_key key = true → is_object finding = true →
  merge_entry (plain m) (key, finding)
  = Ok (plain (match m !! key with
               | Some existing =>
                   if status_rank finding >? status_rank existing
                   then <[key := finding]> m else m
               | None => <[key := finding]> m
               end)).
Proof.
  intros Hm Hkey Hf. pose proof (category_key_not_proto key Hkey) as Hproto.
  unfold merge_entry. rewrite read_plain.
  destruct (m !! key) as [existing |] eqn:Hk.
  - pose proof (Hm _ _ Hk) as He. cbn beta in He. cbn [member_truthy member_status_index].
    assert (truthy existing = true) as -> by (by destruct existing).
    unfold status_index. rewrite (get_object finding) by done. monad_simpl.
    rewrite (get_object existing) by done. monad_simpl.
    fold (status_rank finding) (status_rank existing).
    destruct (status_rank finding >? status_rank existing); [| done].
    by rewrite set_property_plain.
  - unfold category_key in Hkey. apply negb_true_iff in Hkey. rewrite Hkey.
    cbn [member_truthy truthy negb]. monad_simpl. by rewrite set_property_plain.
Qed.

Lemma merge_entry_object m key finding :
  objects_only m → category_key key = true → is_object finding = true →
  ∃ m', merge_entry (plain m) (key, finding) = Ok (plain m')
        ∧ objects_only m'
        ∧ ∀ k, m' !! k = if decide (k = key) then keep (m !! k) finding else m !! k.
Proof.
  intros Hm Hkey Hf. rewrite merge_entry_pure by done.
  assert (Hins : objects_only (<[key := finding]> m)) by (by apply map_Forall_insert_2).
  eexists. split; [done |].
  destruct (m !! key) as [existing |] eqn:Hk;
    [destruct (status_rank finding >? status_rank existing) eqn:Hgt |];
    (split; [done |]); intros k; destruct (decide (k = key)) as [-> | Hne];
    rewrite ?lookup_insert_eq, ?lookup_insert_ne, ?Hk by done; cbn [keep];
    rewrite ?Hgt; done.
Qed.

Lemma reduce_merge_entry entries m :
  objects_only m → Forall finding_entry entries →
  ∃ m', reduce merge_entry (plain m) entries = Ok (plain m')
        ∧ objects_only m'
        ∧ ∀ k, m' !! k = foldl keep (m !! k) (findings_for k entries).
Proof.
  intros Hm Hall. revert m Hm.
  induction Hall as [| [key finding] entries [Hkey Hf] _ IH]; intros m Hm; cbn [reduce].
  - by exists m.
  - destruct (merge_entry_object m key finding Hm Hkey Hf) as (m1 & -> & Hm1 & Hlook).
    monad_simpl.
    destruct (IH m1 Hm1) as (m' & -> & Hm' & Hlook'). exists m'. split; [done |]. split; [done |].
    intros k. rewrite Hlook', Hlook. unfold findings_for. rewrite filter_cons. cbn [fst].
    destruct (decide (k = key)) as [-> | Hne].
    + rewrite decide_True by done. done.
    + rewrite decide_False by done. done.
Qed.

Lemma findings_for_app key l1 l2 :
  findings_for key (l1 ++ l2) = findings_for key l1 ++ findings_for key l2.
Proof. unfold findings_for. by rewrite filter_app, fmap_app. Qed.

Lemma merge_result_object d r :
  is_object r = true → merge_result d r = reduce merge_entry d (dirtyDozen_entries r).
Proof. intros Hr. unfold merge_result. by rewrite get_object. Qed.

Lemma reduce_merge_result results m :
  objects_only m → Forall analysis_result results →
  ∃ m', reduce merge_result (plain m) results = Ok (plain m')
        ∧ objects_only m'
        ∧ ∀ k, m' !! k = foldl keep (m !! k) (findings_for k (all_entries results)).
Proof.
  intros Hm Hall. revert m Hm.
  induction Hall as [| r results [Hr Hentries] _ IH]; intros m Hm; cbn [reduce].
  - by exists m.
  - rewrite merge_result_object by done.
    destruct (reduce_merge_entry _ m Hm Hentries) as (m1 & -> & Hm1 & Hlook). monad_simpl.
    destruct (IH m1 Hm1) as (m' & -> & Hm' & Hlook'). exists m'. split; [done |]. split; [done |].
    intros k. rewrite Hlook', Hlook. unfold all_entries. rewrite fmap_cons. cbn [concat].
    by rewrite findings_for_app, foldl_app.
Qed.

(** **** Whenever the merge returns *)

Lemma keep_truthy kept finding :
  kept_truthy kept → truthy finding = true → kept_truthy (keep kept finding).
Proof.
  intros Hkept Hf f. destruct kept as [existing |]; cbn [keep].
  - destruct (status_rank finding >? status_rank existing); intros [= <-]; [done |].
    by apply Hkept.
  - by intros [= <-].
Qed.

(** One entry under a key other than [__proto__]: the object keeps the
    prototype of the literal, the other keys keep their findings, and a
    truthy finding under a category key is kept or not as [keep] says. *)
Lemma merge_entry_plain m key finding d :
  key ≠ "__proto__" →
  merge_entry (plain m) (key, finding) = Ok d →
  ∃ m', d = plain m'
        ∧ (∀ k, k ≠ key → m' !! k = m !! k)
        ∧ (category_key key = true → truthy finding = true → kept_truthy (m !! key) →
             m' !! key = keep (m !! key) finding).
Proof.
  intros Hproto. unfold merge_entry. rewrite read_plain.
  destruct (m !! key) as [existing |] eqn:Hk.
  - cbn [member_truthy member_status_index].
    destruct (truthy existing) eqn:He; cbn [negb]; monad_simpl.
    + destruct (status_index finding) as [v |] eqn:Hv; monad_simpl; [| done].
      unfold status_index in Hv |- *. rewrite (get_truthy existing) by done. monad_simpl.
      fold (status_rank existing).
      destruct (v >? status_rank existing) eqn:Hgt; intros [= <-].
      * rewrite set_property_plain by done. eexists. split; [done |]. split.
        -- intros k Hne. by rewrite lookup_insert_ne.
        -- intros _ Hf _. rewrite lookup_insert_eq. cbn [keep].
           rewrite (get_truthy finding) in Hv by done. injection Hv as <-.
           fold (status_rank finding) in Hgt. by rewrite Hgt.
      * exists m. split; [done |]. split; [done |].
        intros _ Hf _. rewrite Hk. cbn [keep].
        rewrite (get_truthy finding) in Hv by done. injection Hv as <-.
        fold (status_rank finding) in Hgt. by rewrite Hgt.
    + intros [= <-]. rewrite set_property_plain by done. eexists. split; [done |]. split.
      * intros k Hne. by rewrite lookup_insert_ne.
      * intros _ _ Hkept. rewrite (Hkept existing eq_refl) in He. discriminate He.
  - destruct (includes Object_prototype_names key) eqn:Hin;
      cbn [member_truthy member_status_index truthy negb]; monad_simpl.
    + destruct (status_index finding) as [v |]; monad_simpl; [| done].
      destruct (v >? _); intros [= <-].
      * rewrite set_property_plain by done. eexists. split; [done |]. split.
        -- intros k Hne. by rewrite lookup_insert_ne.
        -- unfold category_key. rewrite Hin. discriminate.
      * exists m. split; [done |]. split; [done |].
        unfold category_key. rewrite Hin. discriminate.
    + intros [= <-]. rewrite set_property_plain by done. eexists. split; [done |]. split.
      * intros k Hne. by rewrite lookup_insert_ne.
      * intros _ _ _. by rewrite lookup_insert_eq.
Qed.

Lemma reduce_merge_entry_plain entries m d key :
  "__proto__" ∉ entries.*1 →
  reduce merge_entry (plain m) entries = Ok d →
  category_key key = true →
  Forall (λ finding, truthy finding = true) (findings_for key entries) →
  kept_truthy (m !! key) →
  ∃ m', d = plain m'
        ∧ m' !! key = foldl keep (m !! key) (findings_for key entries)
        ∧ kept_truthy (m' !! key).
Proof.
  revert m. induction entries as [| [k finding] entries IH]; intros m Hproto; cbn [reduce].
  - intros [= <-] _ _ Hkept. by exists m.
  - rewrite fmap_cons, not_elem_of_cons in Hproto. destruct Hproto as [Hk Hproto].
    cbn [fst] in Hk.
    destruct (merge_entry (plain m) (k, finding)) as [d1 |] eqn:Hstep; monad_simpl; [| done].
    apply merge_entry_plain in Hstep as (m1 & -> & Hother & Hsame); [| done].
    intros Hrest Hkey Hall Hkept. unfold findings_for in Hall |- *.
    rewrite filter_cons in Hall |- *. cbn [fst] in Hall |- *.
    destruct (decide (k = key)) as [-> | Hne].
    + rewrite fmap_cons in Hall |- *. cbn [snd foldl] in Hall |- *.
      apply Forall_cons_1 in Hall as [Hf Hall].
      rewrite <- (Hsame Hkey Hf Hkept).
      apply (IH m1); try done. rewrite (Hsame Hkey Hf Hkept). by apply keep_truthy.
    + rewrite <- (Hother key) by done.
      apply (IH m1); try done. by rewrite (Hother key).
Qed.

Lemma merge_result_Ok d r d' :
  merge_result d r = Ok d' → reduce merge_entry d (dirtyDozen_entries r) = Ok d'.
Proof.
  unfold merge_result, get, dirtyDozen_entries. by destruct (nullish r).
Qed.

Lemma reduce_merge_result_plain results m d key :
  "__proto__" ∉ (all_entries results).*1 →
  reduce merge_result (plain m) results = Ok d →
  category_key key = true →
  Forall (λ finding, truthy finding = true) (findings_for key (all_entries results)) →
  kept_truthy (m !! key) →
  ∃ m', d = plain m'
        ∧ m' !! key = foldl keep (m !! key) (findings_for key (all_entries results)).
Proof.
  revert m. induction results as [| r results IH]; intros m; cbn [reduce].
  - intros _ [= <-] _ _ _. by exists m.
  - unfold all_entries. rewrite fmap_cons. cbn [concat]. fold (all_entries results).
    rewrite fmap_app, not_elem_of_app, findings_for_app, Forall_app, foldl_app.
    intros [Hproto1 Hproto] Hd Hkey [Hall1 Hall] Hkept.
    destruct (merge_result (plain m) r) as [d1 |] eqn:Hstep; monad_simpl_in Hd; [| done].
    apply merge_result_Ok in Hstep.
    destruct (reduce_merge_entry_plain _ _ _ key Hproto1 Hstep Hkey Hall1 Hkept)
      as (m1 & -> & <- & Hkept1).
    by apply (IH m1).
Qed.

Lemma foldl_keep_Some findings seen e :
  earliest_worst e seen →
  ∃ f, foldl keep (Some e) findings = Some f ∧ earliest_worst f (seen ++ findings).
Proof.
  revert seen e. induction findings as [| x findings IH]; intros seen e He; cbn [foldl keep].
  - exists e. by rewrite app_nil_r.
  - replace (seen ++ x :: findings) with ((seen ++ [x]) ++ findings)
      by (by rewrite <- app_assoc).
    destruct He as (before & after & -> & Hbefore & Hafter).
    destruct (Z.gtb_spec (status_rank x) (status_rank e)) as [Hgt | Hle]; apply IH.
    + exists (before ++ e :: after), []. split; [done |]. split; [| constructor].
      apply Forall_app. split; [| constructor].
      * eapply Forall_impl; [exact Hbefore |]. intros y Hy. cbn beta in Hy. lia.
      * lia.
      * eapply Forall_impl; [exact Hafter |]. intros y Hy. cbn beta in Hy. lia.
    + exists before, (after ++ [x]). split; [by rewrite <- app_assoc |]. split; [done |].
      apply Forall_app. split; [done |]. by constructor.
Qed.

Lemma foldl_keep_None findings :
  match foldl keep None findings with
  | None => findings = []
  | Some f => earliest_worst f findings
  end.
Proof.
  destruct findings as [| x findings]; [done |]. cbn [foldl keep].
  destruct (foldl_keep_Some findings [x] x) as (f & -> & Hf); [| done].
  exists [], []. by repeat split.
Qed.

(** *** Highlights and quotes *)

Lemma good_of_object r :
  is_object r = true → good_of r = Ok (or_else (good_field r) (VArr [])).
Proof.
  intros Hr. unfold good_of. rewrite get_object by done. monad_simpl.
  by rewrite get_opt_prop.
Qed.

Lemma bad_of_object r :
  is_object r = true → bad_of r = Ok (or_else (bad_field r) (VArr [])).
Proof.
  intros Hr. unfold bad_of. rewrite get_object by done. monad_simpl.
  by rewrite get_opt_prop.
Qed.

Lemma quotes_of_object r :
  is_object r = true → quotes_of r = Ok (or_else (quotes_field r) (VArr [])).
Proof. intros Hr. unfold quotes_of. by rewrite get_object. Qed.

Lemma flatMap_objects (f : value → result value) (g : value → value) results :
  (∀ r, is_object r = true → f r = Ok (g r)) →
  Forall (λ r, is_object r = true) results →
  flatMap f results = Ok (concat ((λ r, flatten1 (g r)) <$> results)).
Proof.
  intros Hf Hall. induction Hall as [| r results Hr _ IH]; cbn [flatMap]; [done |].
  rewrite Hf, IH by done. done.
Qed.

Lemma analysis_results_objects results :
  Forall analysis_result results → Forall (λ r, is_object r = true) results.
Proof. intros H. eapply Forall_impl; [exact H |]. by intros r [Hr _]. Qed.

(** What [mergeChunkResults] has computed when it returns. *)
Lemma mergeChunkResults_inv results m :
  mergeChunkResults results = Ok m →
  reduce worse_grade (VStr "A") results = Ok (grade m)
  ∧ reduce merge_result empty_object results
    = Ok {| own := dirtyDozen m; prototype := dirtyDozenPrototype m |}
  ∧ (∃ goods, flatMap good_of results = Ok goods
              ∧ good (highlights m) = take 5 (spread_set goods))
  ∧ (∃ bads, flatMap bad_of results = Ok bads
             ∧ bad (highlights m) = take 10 (spread_set bads))
  ∧ (∃ quotes, flatMap quotes_of results = Ok quotes
               ∧ criticalQuotes m = take 5 quotes)
  ∧ summary m = or_else (get_opt (default VUndefined (head results)) "summary")
                        (VStr "Analysis complete.").
Proof.
  unfold mergeChunkResults.
  destruct (reduce worse_grade (VStr "A") results) as [w | e]; monad_simpl; [| done].
  destruct (reduce merge_result empty_object results) as [[d p] | e]; monad_simpl; [| done].
  destruct (flatMap good_of results) as [goods | e]; monad_simpl; [| done].
  destruct (flatMap bad_of results) as [bads | e]; monad_simpl; [| done].
  destruct (flatMap quotes_of results) as [quotes | e]; monad_simpl; [| done].
  intros [= <-]. cbn. repeat split; eauto.
Qed.

(** On analysis results the merger returns, and each field of what it
    returns is a function of the corresponding fields of the results. *)
Lemma mergeChunkResults_Ok results :
  Forall analysis_result results →
  ∃ m, mergeChunkResults results = Ok m
       ∧ reduce worse_grade (VStr "A") results = Ok (grade m)
       ∧ (∀ k, dirtyDozen m !! k = foldl keep None (findings_for k (all_entries results)))
       ∧ dirtyDozenPrototype m = ObjectPrototype
       ∧ good (highlights m)
         = take 5 (spread_set (concat
             ((λ r, flatten1 (or_else (good_field r) (VArr []))) <$> results)))
       ∧ bad (highlights m)
         = take 10 (spread_set (concat
             ((λ r, flatten1 (or_else (bad_field r) (VArr []))) <$> results)))
       ∧ criticalQuotes m
         = take 5 (concat ((λ r, flatten1 (or_else (quotes_field r) (VArr []))) <$> results)).
Proof.
  intros Hall. pose proof (analysis_results_objects _ Hall) as Hobj.
  unfold mergeChunkResults.
  destruct (reduce_worse_grade results (VStr "A") Hobj) as (w & -> & _). monad_simpl.
  change empty_object with (plain ∅).
  destruct (reduce_merge_result results ∅ (map_Forall_empty _) Hall) as (d & -> & _ & Hd).
  monad_simpl.
  rewrite (flatMap_objects good_of (λ r, or_else (good_field r) (VArr []))),
    (flatMap_objects bad_of (λ r, or_else (bad_field r) (VArr []))),
    (flatMap_objects quotes_of (λ r, or_else (quotes_field r) (VArr [])));
    [| by auto using good_of_object, bad_of_object, quotes_of_object ..].
  monad_simpl. eexists. split; [done |]. cbn. repeat split; done.
Qed.

(** Outside analysis results the merger can throw: a [null] finding for a
    key that already has a finding makes [value.status] a TypeError. *)
Lemma mergeChunkResults_null_finding :
  mergeChunkResults [result_A; VObj [("dirtyDozen", VObj [("data_sale", VNull)])]]
  = Throw TypeError.
Proof. reflexivity. Qed.

(** *** The claims about the grade *)

Lemma index_from_elem_of order s i :
  s ∈ order → i ≤ index_from i order s.
Proof.
  revert i. induction order as [| x order IH]; intros i Hin; [by apply elem_of_nil in Hin |].
  cbn [index_from]. destruct (String.eqb_spec x s) as [-> | Hne]; [lia |].
  apply elem_of_cons in Hin as [-> | Hin]; [done |]. specialize (IH (i + 1) Hin). lia.
Qed.

Lemma index_from_not_elem_of order s i :
  s ∉ order → index_from i order s = -1.
Proof.
  revert i. induction order as [| x order IH]; intros i Hin; [done |].
  cbn [index_from]. destruct (String.eqb_spec x s) as [-> | Hne].
  - destruct Hin. by left.
  - apply IH. intros H. apply Hin. by right.
Qed.

Lemma graded_index r : graded r → 0 ≤ grade_index r.
Proof.
  intros (g & Hg & Hin). unfold grade_index. rewrite Hg. cbn [indexOf].
  by apply index_from_elem_of.
Qed.

Lemma ungraded_index r : ungraded r → grade_index r = -1.
Proof.
  intros H. unfold grade_index. destruct (prop r "grade") as [| | | | g | |] eqn:Hg; try done.
  cbn [indexOf]. apply index_from_not_elem_of. intros Hin. by apply (H g).
Qed.

Lemma grade_index_0 r : grade_index r = 0 → prop r "grade" = VStr "A".
Proof.
  unfold grade_index. destruct (prop r "grade") as [| | | | g | |]; try done.
  cbn [indexOf gradeOrder index_from].
  destruct (String.eqb_spec "A" g) as [<- | _]; [done |].
  intros H. repeat (destruct (String.eqb _ g); [discriminate H |]). discriminate H.
Qed.


Lemma sample_results_ok : Forall analysis_result [result_A; result_D].
Proof. repeat constructor. Qed.


(** A result that the normalizer returns as it is. *)
Lemma null_finding_result_normalized JSON_parse greater_than_10 :
  Normalizer.parseAnalysisResponse JSON_parse greater_than_10 null_finding_result
  = null_finding_result.
Proof. reflexivity. Qed.


(** *** The claims about the dirtyDozen *)



(** Under the key [__proto__], a finding whose status is one of the four
    becomes the prototype of the merged dirtyDozen, which gets no own
    property; one whose status is not is dropped. *)
Lemma proto_key_finding :
  (∃ m, mergeChunkResults [result_with "__proto__" (VObj [("status", VStr "danger")])] = Ok m
        ∧ dirtyDozen m = ∅
        ∧ dirtyDozenPrototype m = ObjectParent [("status", VStr "danger")])
  ∧ (∃ m, mergeChunkResults [result_with "__proto__" (VObj [("status", VStr "n/a")])] = Ok m
          ∧ dirtyDozen m = ∅
          ∧ dirtyDozenPrototype m = ObjectPrototype).
Proof. split; eexists; (split; [reflexivity |]); split; reflexivity. Qed.


(** *** The claims about highlights and quotes *)

Lemma filter_dedup_first (P : string → Prop) `{!∀ x, Decision (P x)} l :
  filter P (dedup_first l) = dedup_first (filter P l).
Proof.
  induction l as [| x l IH]; [done |]. cbn [dedup_first].
  destruct (decide (P x)) as [HP | HP].
  - rewrite !filter_cons_True by done. cbn [dedup_first]. f_equal.
    rewrite <- IH, !list_filter_filter. apply list_filter_iff. intros y. tauto.
  - rewrite !filter_cons_False by done. rewrite <- IH.
    apply list_filter_filter_l. intros y Hy ->. done.
Qed.

(** The defining property of [dedup_first]: the head stays, and the rest
    is treated with the head removed. *)
Lemma dedup_first_cons x l :
  dedup_first (x :: l) = x :: dedup_first (filter (λ y, y ≠ x) l).
Proof. cbn [dedup_first]. by rewrite filter_dedup_first. Qed.

Lemma elem_of_dedup_first x l : x ∈ dedup_first l ↔ x ∈ l.
Proof.
  induction l as [| y l IH]; [done |]. cbn [dedup_first].
  rewrite !elem_of_cons, list_elem_of_filter, IH.
  destruct (decide (x = y)); tauto.
Qed.

Lemma NoDup_dedup_first l : NoDup (dedup_first l).
Proof.
  induction l as [| x l IH]; cbn [dedup_first]; [constructor |].
  apply NoDup_cons. split; [| by apply NoDup_filter].
  rewrite list_elem_of_filter. intros [Hx _]. by apply Hx.
Qed.

Lemma dedup_first_sublist l : dedup_first l `sublist_of` l.
Proof.
  induction l as [| x l IH]; cbn [dedup_first]; [done |].
  apply sublist_skip. etrans; [apply sublist_filter | done].
Qed.

Lemma existsb_same_string x seen :
  existsb (same_value_zero (VStr x)) (VStr <$> seen) = bool_decide (x ∈ seen).
Proof.
  induction seen as [| y seen IH]; [done |]. cbn [fmap list_fmap existsb same_value_zero].
  destruct (String.eqb_spec x y) as [-> | Hne]; cbn [orb].
  - symmetry. apply bool_decide_eq_true_2. by left.
  - rewrite IH. apply bool_decide_ext. rewrite elem_of_cons. tauto.
Qed.

Lemma set_insert_all_strings seen l :
  set_insert_all (VStr <$> seen) (VStr <$> l)
  = VStr <$> (seen ++ dedup_first (filter (λ y, y ∉ seen) l)).
Proof.
  revert seen. induction l as [| x l IH]; intros seen.
  - cbn. by rewrite app_nil_r.
  - cbn [fmap list_fmap set_insert_all]. rewrite existsb_same_string.
    destruct (decide (x ∈ seen)) as [Hin | Hnin].
    + rewrite bool_decide_eq_true_2 by done. fold (VStr <$> l). rewrite IH.
      by rewrite filter_cons_False by (by intros ?).
    + rewrite bool_decide_eq_false_2 by done. fold (VStr <$> l).
      cbn [stored_in_set]. change [VStr x] with (VStr <$> [x]). rewrite <- fmap_app, IH.
      rewrite filter_cons_True by done. rewrite dedup_first_cons.
      rewrite <- app_assoc. cbn [app]. do 4 f_equal.
      rewrite list_filter_filter. apply list_filter_iff.
      intros y. rewrite elem_of_app, list_elem_of_singleton. tauto.
Qed.

Lemma spread_set_strings l : spread_set (VStr <$> l) = VStr <$> dedup_first l.
Proof.
  unfold spread_set. change [] with (VStr <$> []) at 1.
  rewrite (set_insert_all_strings [] l). cbn [app]. do 2 f_equal.
  induction l as [| x l IH]; [done |].
  rewrite filter_cons_True by (by intros ?%elem_of_nil). by rewrite IH.
Qed.

Lemma strings_of_array l : strings_of (VArr (VStr <$> l)) = l.
Proof. cbn [strings_of]. induction l as [| x l IH]; cbn; [done | by rewrite IH]. Qed.

Lemma flatten1_string_array (field : value) :
  string_array field →
  flatten1 (or_else field (VArr [])) = VStr <$> strings_of field.
Proof. intros [l ->]. by rewrite strings_of_array. Qed.

Lemma flatten1_array (field : value) :
  isArray field = true → flatten1 (or_else field (VArr [])) = elements field.
Proof. by destruct field. Qed.

Lemma concat_string_arrays (field : value → value) results :
  Forall (λ r, string_array (field r)) results →
  concat ((λ r, flatten1 (or_else (field r) (VArr []))) <$> results)
  = VStr <$> concat ((λ r, strings_of (field r)) <$> results).
Proof.
  intros Hall. induction Hall as [| r results Hr _ IH]; [done |].
  rewrite !fmap_cons. cbn [concat]. by rewrite fmap_app, IH, flatten1_string_array.
Qed.

Lemma concat_arrays (field : value → value) results :
  Forall (λ r, isArray (field r) = true) results →
  concat ((λ r, flatten1 (or_else (field r) (VArr []))) <$> results)
  = concat ((λ r, elements (field r)) <$> results).
Proof.
  intros Hall. induction Hall as [| r results Hr _ IH]; [done |].
  rewrite !fmap_cons. cbn [concat]. by rewrite IH, flatten1_array.
Qed.

Lemma string_array_field_object (r : value) :
  string_array (good_field r) → is_object r = true.
Proof. intros [l Hl]. by destruct r. Qed.


Lemma sample_results_fields :
  Forall (λ r, string_array (good_field r) ∧ string_array (bad_field r)
               ∧ isArray (quotes_field r) = true)
         [result_A; result_D; null_finding_result].
Proof.
  constructor; [| constructor; [| constructor; [| constructor]]].
  - split; [by exists ["a"; "b"] | split; [by exists [] | done]].
  - split; [by exists ["b"; "c"] | split; [by exists [] | done]].
  - split; [by exists ["b"; "c"] | split; [by exists [] | done]].
Qed.



End MergerFacts.

(** * LLMInvoker: what [callLLM] does with the response of [fetch] *)

Module Invoker.

(** The table [HTTP_ERROR_MESSAGES], by status code. *)
Definition HTTP_ERROR_MESSAGES : list (Z * string) :=
  [(400, "Bad request - check your API endpoint and model name");
   (401, "Invalid API key - please check your API key in settings");
   (403, "Access denied - your API key may not have permission for this model");
   (404, "Not found - check your API endpoint URL");
   (429, "Rate limit exceeded - please wait a moment and try again");
   (500, "Server error - the API service is having issues");
   (502, "Bad gateway - the API service is temporarily unavailable");
   (503, "Service unavailable - the API service is temporarily down")].

(** [HTTP_ERROR_MESSAGES[status]]. *)
Fixpoint table_lookup (status : Z) (table : list (Z * string)) : value :=
  match table with
  | [] => VUndefined
  | (code, message) :: rest =>
      if status =? code then VStr message else table_lookup status rest
  end.

(** What [callLLM] reads of a response: its status, and what
    [response.json()] settles to, the parsed body or a rejection. *)
Record Response : Type := {
  status : Z;
  json : result value
}.

(** [response.ok]: the status is in the range 200 to 299. *)
Definition ok (response : Response) : bool :=
  (200 <=? status response) && (status response <=? 299).

(** [await response.json().catch(() => ({}))]. *)
Definition errorData_of (response : Response) : value :=
  try_catch (json response) (VObj []).

(** The template literal [`Request failed (${status})`]. *)
Definition request_failed (status : Z) : string :=
  String.append "Request failed (" (String.append (pretty status) ")").

(** [errorData.error?.message || errorData.message
     || HTTP_ERROR_MESSAGES[response.status] || `Request failed (...)`]. *)
Definition errorMessage (errorData : value) (status : Z) : result value :=
  error ← get errorData "error";
  let embedded := get_opt error "message" in
  if truthy embedded then mret embedded
  else
    message ← get errorData "message";
    if truthy message then mret message
    else mret (or_else (table_lookup status HTTP_ERROR_MESSAGES)
                       (VStr (request_failed status))).

(** [v?.[0]]. *)
Definition first_opt (v : value) : value :=
  match v with
  | VArr (x :: _) => x
  | VStr (String c _) => VStr (String c EmptyString)
  | VObj props => prop v "0"
  | _ => VUndefined
  end.

Section Host.

(** [Number::toString] of the host: the decimal form of a number. *)
Variable Number_toString : float → string.

(** [elems.join()], with [convert] for the conversion of an element to a
    string: the elements are converted in order and separated by commas,
    [null] and [undefined] giving the empty string. *)
Definition join (convert : value → result string) : list value → result string :=
  fix join (elems : list value) : result string :=
    match elems with
    | [] => mret ""
    | x :: rest =>
        first ← (if nullish x then mret "" else convert x);
        match rest with
        | [] => mret first
        | _ :: _ => others ← join rest; mret (first +:+ "," +:+ others)
        end
    end.

(** ToString, the conversion [new Error(v)] applies to its argument.  An
    array is converted by [join].  An object is converted by its [toString] member:
    the inherited one answers [[object Object]]; an own property of that
    name is data, not a function, and the conversion falls back on
    [valueOf], which yields no primitive either: a TypeError. *)
Fixpoint ToString (v : value) : result string :=
  match v with
  | VUndefined => mret "undefined"
  | VNull => mret "null"
  | VBool b => mret (if b then "true" else "false")
  | VNum n => mret (Number_toString n)
  | VStr s => mret s
  | VArr elems => join ToString elems
  | VObj props =>
      match lookup_prop "toString" props with
      | Some _ => Throw TypeError
      | None => mret "[object Object]"
      end
  end.

(** [new Error(v)]: the message is the string form of [v]; without an
    argument, or with [undefined], it is the empty string that every
    error inherits. *)
Definition new_Error (v : value) : result exn :=
  match v with
  | VUndefined => mret (Error (VStr ""))
  | _ => message ← ToString v; mret (Error (VStr message))
  end.

(** The part of [callLLM] that follows [await fetch(...)]. *)
Definition callLLM (response : Response) : result value :=
  if negb (ok response) then
    message ← errorMessage (errorData_of response) (status response);
    error ← new_Error message;
    Throw error
  else
    data ← json response;
    choices ← get data "choices";
    let content := get_opt (get_opt (first_opt choices) "message") "content" in
    if truthy content then mret content
    else
      candidates ← get data "candidates";
      let parts := get_opt (get_opt (first_opt candidates) "content") "parts" in
      mret (or_else (get_opt (first_opt parts) "text") (VStr "")).

End Host.

(** ** Vocabulary of the properties *)

(** The message embedded in an error body, if any: [error.message] before
    [message], a falsy one counting as none. *)
Definition embedded_message (errorData : value) : option value :=
  if truthy (get_opt (prop errorData "error") "message")
  then Some (get_opt (prop errorData "error") "message")
  else if truthy (prop errorData "message") then Some (prop errorData "message")
  else None.

End Invoker.

Module InvokerFacts.
Import Invoker.

Lemma errorMessage_priority errorData status :
  nullish errorData = false →
  errorMessage errorData status
  = Ok (default (or_else (table_lookup status HTTP_ERROR_MESSAGES)
                         (VStr (request_failed status)))
                (embedded_message errorData)).
Proof.
  intros Hnn. unfold errorMessage, embedded_message, get. rewrite Hnn. monad_simpl.
  destruct (truthy (get_opt (prop errorData "error") "message")); [done |].
  monad_simpl. by destruct (truthy (prop errorData "message")).
Qed.

(** The table and the generic text give a string. *)
Lemma table_lookup_string status :
  ∃ text, or_else (table_lookup status HTTP_ERROR_MESSAGES) (VStr (request_failed status))
          = VStr text.
Proof.
  unfold or_else. generalize HTTP_ERROR_MESSAGES. intros table.
  induction table as [| [code message] table IH]; cbn [table_lookup]; [by eexists |].
  destruct (status =? code); [| exact IH].
  destruct (truthy (VStr message)); by eexists.
Qed.

Lemma table_lookup_listed status message :
  (status, message) ∈ HTTP_ERROR_MESSAGES →
  or_else (table_lookup status HTTP_ERROR_MESSAGES) (VStr (request_failed status))
  = VStr message.
Proof.
  unfold HTTP_ERROR_MESSAGES. intros H.
  repeat (apply elem_of_cons in H as [[= -> ->] | H]; [reflexivity |]).
  by apply elem_of_nil in H.
Qed.

Lemma table_lookup_unlisted status :
  status ∉ HTTP_ERROR_MESSAGES.*1 →
  or_else (table_lookup status HTTP_ERROR_MESSAGES) (VStr (request_failed status))
  = VStr (request_failed status).
Proof.
  unfold HTTP_ERROR_MESSAGES. cbn [fmap list_fmap fst]. intros H.
  cbn [table_lookup].
  repeat match goal with
         | |- context [status =? ?code] =>
             destruct (Z.eqb_spec status code) as [-> | _];
             [exfalso; apply H; set_solver |]
         end.
  reflexivity.
Qed.

Section Host.
Variable Number_toString : float → string.

Local Abbreviation ToString := (ToString Number_toString).
Local Abbreviation new_Error := (new_Error Number_toString).
Local Abbreviation callLLM := (callLLM Number_toString).

(** On a response that is not ok and whose body is not the JSON value
    [null], [callLLM] throws the [Error] made from the message embedded in
    the body, else from the table entry of the status, else from the
    generic text; or what the making of that [Error] throws. *)
Lemma callLLM_not_ok response :
  ok response = false →
  nullish (errorData_of response) = false →
  callLLM response
  = (error ← new_Error (default (or_else (table_lookup (status response) HTTP_ERROR_MESSAGES)
                                         (VStr (request_failed (status response))))
                                (embedded_message (errorData_of response)));
     Throw error).
Proof.
  intros Hok Hnn. unfold Invoker.callLLM. rewrite Hok. cbn [negb].
  by rewrite errorMessage_priority.
Qed.

(** A body that is not valid JSON counts as the empty object, which
    embeds no message. *)
Lemma callLLM_unparseable_body status e :
  ok {| status := status; json := Throw e |} = false →
  callLLM {| status := status; json := Throw e |}
  = Throw (Error (or_else (table_lookup status HTTP_ERROR_MESSAGES)
                          (VStr (request_failed status)))).
Proof.
  intros Hok. rewrite callLLM_not_ok by done.
  change (embedded_message _) with (@None value). cbn [default from_option id Invoker.status].
  by destruct (table_lookup_string status) as [text ->].
Qed.

(** HTTP 429 with a body that does not parse. *)
Lemma callLLM_rate_limited e :
  callLLM {| status := 429; json := Throw e |}
  = Throw (Error (VStr "Rate limit exceeded - please wait a moment and try again")).
Proof. reflexivity. Qed.

(** Observed behaviour for C6 (a defect of the code): on a response that
    is not ok and whose body is the JSON value [null], reading
    [errorData.error] throws a TypeError; no message is resolved, neither
    from the table nor the generic one. *)
Theorem callLLM_null_body_TypeError :
  ok {| status := 500; json := Ok VNull |} = false
  ∧ callLLM {| status := 500; json := Ok VNull |} = Throw TypeError
  ∧ callLLM {| status := 500; json := Ok VNull |}
    ≠ Throw (Error (VStr "Server error - the API service is having issues")).
Proof. repeat split; [reflexivity .. | discriminate]. Qed.

End Host.

End InvokerFacts.

(** * Further properties of the normalizer *)

Module Normalized.
Import Normalizer.

(** The grade the normalizer settles for a string grade: its upper case
    when that is one of A, B, C, D, F, and C otherwise. *)
Definition letter_grade (g : string) : string :=
  if String.eqb g "" then "C"
  else if includes validGrades (toUpperCase g) then toUpperCase g
  else "C".

(** The result for a reply without any usable field. *)
Definition DEFAULT_RESULT : value :=
  VObj [("grade", VStr "C");
        ("summary", VStr FALLBACK_SUMMARY);
        ("dirtyDozen", VObj []);
        ("highlights", VObj [("good", VArr []); ("bad", VArr [])]);
        ("criticalQuotes", VArr [])].

(** A reply with a grade in lower case and a summary of nine code units. *)
Definition terse_reply : value :=
  VObj [("grade", VStr "b"); ("summary", VStr "Too short")].

End Normalized.

Module NormalizedFacts.
Import Normalizer Normalized.

Section Host.
Variable JSON_parse : string → result value.
Variable greater_than_10 : value → result bool.
Local Abbreviation parseAnalysisResponse :=
  (parseAnalysisResponse JSON_parse greater_than_10).

(** X1. For a reply that is an object with a string grade and a string
    summary, the normalizer never falls back to the sentinel.  The grade
    is matched without regard to case: it becomes its upper case when
    that is one of A, B, C, D, F, and C otherwise.  The summary is kept
    when it has more than 10 code units, and replaced by the fallback
    summary when it has 10 or fewer.  The other fields are settled from
    the reply alone. *)
Theorem normalized_object_reply (props : list (string * value)) (g s : string) :
  prop (VObj props) "grade" = VStr g →
  prop (VObj props) "summary" = VStr s →
  parseAnalysisResponse (VObj props)
  = validated_from (VObj props) (VStr (letter_grade g))
      (10 <? Z.of_nat (String.length s))
  ∧ prop (parseAnalysisResponse (VObj props)) "grade" = VStr (letter_grade g)
  ∧ prop (parseAnalysisResponse (VObj props)) "summary"
    = VStr (if 10 <? Z.of_nat (String.length s) then s else FALLBACK_SUMMARY)
  ∧ parseAnalysisResponse (VObj props) ≠ SENTINEL.
Proof.
  intros Hg Hs.
  assert (parseAnalysisResponse (VObj props)
          = validated_from (VObj props) (VStr (letter_grade g))
              (10 <? Z.of_nat (String.length s))) as Hr.
  { unfold Normalizer.parseAnalysisResponse, parse_body. cbn [parsed_reply]. monad_simpl.
    rewrite (NormalizerFacts.validate_complete greater_than_10 _ (VStr (letter_grade g))
               (10 <? Z.of_nat (String.length s))); [done | |].
    - rewrite NormalizerFacts.normalize_grade_cases by done. rewrite Hg.
      unfold letter_grade. destruct (String.eqb g ""); [done |].
      by destruct (includes validGrades (toUpperCase g)).
    - by rewrite Hs. }
  split; [exact Hr |]. rewrite Hr. unfold validated_from. rewrite Hs.
  split; [done |]. split; [by destruct (10 <? Z.of_nat (String.length s)) |].
  intros [= Hgrade _]. unfold letter_grade in Hgrade.
  destruct (String.eqb g ""); [done |].
  destruct (includes validGrades (toUpperCase g)) eqn:Hin; [| done].
  rewrite Hgrade in Hin. discriminate Hin.
Qed.

(** X2. A reply that is an empty object, or an array, whatever it holds, is
    not a failure for the normalizer: the result is graded C, with the
    fallback summary and no finding, highlight or quote.  The same holds
    for a string reply whose text parses to the empty object. *)
Theorem empty_reply_graded_C (elems : list value) :
  parseAnalysisResponse (VObj []) = DEFAULT_RESULT
  ∧ parseAnalysisResponse (VArr elems) = DEFAULT_RESULT
  ∧ (∀ text, JSON_parse (json_text text) = Ok (VObj []) →
       parseAnalysisResponse (VStr text) = DEFAULT_RESULT)
  ∧ DEFAULT_RESULT ≠ SENTINEL.
Proof.
  split; [reflexivity |]. split; [reflexivity |]. split; [| discriminate].
  intros text Htext.
  unfold Normalizer.parseAnalysisResponse, parse_body, parsed_reply, extractJSON.
  by rewrite Htext.
Qed.

End Host.

Lemma normalized_object_reply_witness :
  prop terse_reply "grade" = VStr "b"
  ∧ ∀ JSON_parse greater_than_10,
      prop (parseAnalysisResponse JSON_parse greater_than_10 terse_reply) "grade" = VStr "B"
      ∧ prop (parseAnalysisResponse JSON_parse greater_than_10 terse_reply) "summary"
        = VStr FALLBACK_SUMMARY.
Proof.
  split; [reflexivity |]. intros JSON_parse greater_than_10.
  destruct (normalized_object_reply JSON_parse greater_than_10
              [("grade", VStr "b"); ("summary", VStr "Too short")] "b" "Too short"
              eq_refl eq_refl) as (_ & Hgrade & Hsummary & _).
  split; [exact Hgrade | exact Hsummary].
Defined.

End NormalizedFacts.

(** * Further properties of the merger *)

Module Merging.
Import Normalizer.

(** No element is SameValueZero-equal to an earlier one. *)
Definition distinct (l : list value) : Prop :=
  ∀ (i j : nat) x y,
    (i < j)%nat → l !! i = Some x → l !! j = Some y → same_value_zero y x = false.

(** A result with seven good highlights, one of them twice. *)
Definition wordy_result : value :=
  VObj [("grade", VStr "B");
        ("highlights",
           VObj [("good", VArr (VStr <$> ["a"; "b"; "a"; "c"; "d"; "e"; "f"]));
                 ("bad", VArr [])]);
        ("criticalQuotes", VArr [])].

(** A host whose [JSON.parse] rejects every text, and one whose
    comparison always throws. *)
Definition no_JSON_parse : string → result value := λ _, Throw SyntaxError.
Definition no_greater_than_10 : value → result bool := λ _, Throw TypeError.

End Merging.

Module MergingFacts.
Import Merger Normalizer Merging.

Lemma index_from_nonneg order s i :
  0 ≤ i → 0 ≤ index_from i order s → s ∈ order.
Proof.
  revert i. induction order as [| x order IH]; intros i Hi; cbn [index_from]; [lia |].
  destruct (String.eqb_spec x s) as [-> | _]; [intros _; by left |].
  intros H. right. apply (IH (i + 1)); [lia | done].
Qed.

Lemma indexOf_nonneg order v :
  0 ≤ indexOf order v → ∃ s, v = VStr s ∧ s ∈ order.
Proof.
  destruct v; cbn [indexOf]; try lia.
  intros H. eexists. split; [done |]. by apply (index_from_nonneg order s 0).
Qed.

(** The scan never leaves the list [gradeOrder]. *)
Lemma reduce_worse_grade_in_order results worst w :
  (∃ g, worst = VStr g ∧ g ∈ gradeOrder) →
  reduce worse_grade worst results = Ok w →
  ∃ g, w = VStr g ∧ g ∈ gradeOrder.
Proof.
  revert worst. induction results as [| r results IH]; intros worst Hworst; cbn [reduce].
  - by intros [= <-].
  - destruct (worse_grade worst r) as [acc | e] eqn:Hstep; monad_simpl; [| done].
    apply IH. unfold worse_grade in Hstep.
    destruct (get r "grade") as [grade | e]; monad_simpl; [| done].
    injection Hstep as <-.
    destruct (Z.gtb_spec (indexOf gradeOrder grade) (indexOf gradeOrder worst)); [| done].
    apply indexOf_nonneg. pose proof (MergerFacts.indexOf_lower gradeOrder worst). lia.
Qed.

(** X3. Whatever the results, a merged grade is one of A, B, C, D, F: the
    merger never returns the grade [?], nor a grade in lower case. *)
Theorem merged_grade_in_gradeOrder (results : list value) (m : AnalysisResult) :
  mergeChunkResults results = Ok m →
  ∃ g, grade m = VStr g ∧ g ∈ gradeOrder.
Proof.
  intros (Hg & _)%MergerFacts.mergeChunkResults_inv.
  apply (reduce_worse_grade_in_order results (VStr "A")); [| done].
  exists "A". split; [done | by left].
Qed.

Lemma merged_grade_in_gradeOrder_witness :
  ∃ m, mergeChunkResults [result_D; SENTINEL] = Ok m
       ∧ ∃ g, grade m = VStr g ∧ g ∈ gradeOrder.
Proof.
  assert (∃ m, mergeChunkResults [result_D; SENTINEL] = Ok m) as [m Hm].
  { eexists. vm_compute. reflexivity. }
  exists m. split; [exact Hm |].
  exact (merged_grade_in_gradeOrder [result_D; SENTINEL] m Hm).
Defined.

(** *** Chunks that all failed to parse *)

Lemma reduce_worse_grade_sentinels n :
  reduce worse_grade (VStr "A") (replicate n SENTINEL) = Ok (VStr "A").
Proof. induction n as [| n IH]; [done |]. cbn [replicate reduce]. exact IH. Qed.

Lemma reduce_merge_result_sentinels n :
  reduce merge_result empty_object (replicate n SENTINEL) = Ok empty_object.
Proof. induction n as [| n IH]; [done |]. cbn [replicate reduce]. exact IH. Qed.

Lemma flatMap_sentinels (f : value → result value) n :
  f SENTINEL = Ok (VArr []) → flatMap f (replicate n SENTINEL) = Ok [].
Proof.
  intros Hf. induction n as [| n IH]; [done |]. cbn [replicate flatMap].
  by rewrite Hf, IH.
Qed.

(** X4. When every chunk came back as the sentinel of the normalizer, the
    merged analysis is graded A: its summary says that the analysis could
    not be parsed, and it has no finding, highlight or quote. *)
Theorem merged_sentinels_graded_A (n : nat) :
  mergeChunkResults (replicate (S n) SENTINEL)
  = Ok {| grade := VStr "A";
          summary := prop SENTINEL "summary";
          dirtyDozen := ∅;
          dirtyDozenPrototype := ObjectPrototype;
          highlights := {| good := []; bad := [] |};
          criticalQuotes := [] |}.
Proof.
  unfold mergeChunkResults.
  rewrite reduce_worse_grade_sentinels, reduce_merge_result_sentinels,
    !flatMap_sentinels by done.
  reflexivity.
Qed.

(** *** A chunk that failed to parse among others *)

Lemma reduce_app {A B} (f : A → B → result A) init (l1 l2 : list B) :
  reduce f init (l1 ++ l2) = (acc ← reduce f init l1; reduce f acc l2).
Proof.
  revert init. induction l1 as [| x l1 IH]; intros init; [done |].
  cbn [app reduce]. destruct (f init x) as [acc | e]; monad_simpl; [apply IH | done].
Qed.

Lemma flatMap_app (f : value → result value) (l1 l2 : list value) :
  flatMap f (l1 ++ l2)
  = (ys1 ← flatMap f l1; ys2 ← flatMap f l2; mret (ys1 ++ ys2)).
Proof.
  induction l1 as [| x l1 IH]; cbn [app flatMap].
  - monad_simpl. by destruct (flatMap f l2).
  - destruct (f x) as [y | e]; monad_simpl; [| done]. rewrite IH.
    destruct (flatMap f l1) as [ys1 | e]; monad_simpl; [| done].
    destruct (flatMap f l2) as [ys2 | e]; monad_simpl; [| done].
    by rewrite app_assoc.
Qed.

Lemma flatMap_sentinel_cons (f : value → result value) (l : list value) :
  f SENTINEL = Ok (VArr []) → flatMap f (SENTINEL :: l) = flatMap f l.
Proof. intros Hf. cbn [flatMap]. rewrite Hf. monad_simpl. by destruct (flatMap f l). Qed.

Lemma worse_grade_sentinel worst :
  (∃ g, worst = VStr g ∧ g ∈ gradeOrder) → worse_grade worst SENTINEL = Ok worst.
Proof.
  intros (g & -> & Hg).
  pose proof (MergerFacts.index_from_elem_of gradeOrder g 0 Hg) as Hidx.
  change (worse_grade (VStr g) SENTINEL)
    with (Ok (if -1 >? index_from 0 gradeOrder g then VStr "?" else VStr g)).
  destruct (Z.gtb_spec (-1) (index_from 0 gradeOrder g)); [lia | done].
Qed.

Lemma reduce_worse_grade_skips before after :
  reduce worse_grade (VStr "A") (before ++ SENTINEL :: after)
  = reduce worse_grade (VStr "A") (before ++ after).
Proof.
  rewrite !reduce_app.
  destruct (reduce worse_grade (VStr "A") before) as [acc | e] eqn:Hacc; monad_simpl; [| done].
  cbn [reduce]. rewrite worse_grade_sentinel; [done |].
  apply (reduce_worse_grade_in_order before (VStr "A")); [| done].
  exists "A". split; [done | by left].
Qed.

Lemma reduce_merge_result_skips before after :
  reduce merge_result empty_object (before ++ SENTINEL :: after)
  = reduce merge_result empty_object (before ++ after).
Proof.
  rewrite !reduce_app.
  by destruct (reduce merge_result empty_object before) as [acc | e].
Qed.

Lemma flatMap_skips (f : value → result value) before after :
  f SENTINEL = Ok (VArr []) →
  flatMap f (before ++ SENTINEL :: after) = flatMap f (before ++ after).
Proof. intros Hf. by rewrite !flatMap_app, flatMap_sentinel_cons. Qed.

(** X5. A chunk whose reply could not be parsed leaves no trace in the merge:
    when it is not the first chunk, the merger gives what it gives
    without it, the same result or the same exception.  The failure of
    the chunk is not reported, and the sentinel's grade [?] never shows. *)
Theorem unparsed_chunk_is_dropped (before after : list value) :
  before ≠ [] →
  mergeChunkResults (before ++ SENTINEL :: after) = mergeChunkResults (before ++ after).
Proof.
  intros Hne. unfold mergeChunkResults.
  rewrite reduce_worse_grade_skips, reduce_merge_result_skips, !flatMap_skips by done.
  by destruct before.
Qed.

Lemma unparsed_chunk_is_dropped_witness :
  mergeChunkResults [result_D; SENTINEL; result_A] = mergeChunkResults [result_D; result_A].
Proof. by apply (unparsed_chunk_is_dropped [result_D] [result_A]). Defined.

(** *** Sizes and repetitions *)

Lemma eqb_zero_l n m :
  PrimFloat.eqb n 0 = true →
  PrimFloat.eqb 0 m = PrimFloat.eqb n m ∧ PrimFloat.is_nan n = false.
Proof.
  unfold PrimFloat.is_nan. rewrite !FloatAxioms.eqb_spec.
  change (Prim2SF 0) with (S754_zero false).
  by destruct (Prim2SF n) as [sign | sign | | sign mantissa exponent]; try destruct sign.
Qed.

(** The set compares the value it stores as it compares the value added. *)
Lemma same_value_zero_stored x a :
  same_value_zero (stored_in_set x) a = same_value_zero x a.
Proof.
  destruct x as [| | | n | | |]; try done. cbn [stored_in_set].
  destruct (PrimFloat.eqb n 0) eqn:Hzero; [| done].
  destruct a as [| | | m | | |]; try done. cbn [same_value_zero].
  destruct (eqb_zero_l n m Hzero) as [-> ->]. done.
Qed.

Lemma distinct_snoc seen x :
  distinct seen → existsb (same_value_zero x) seen = false →
  distinct (seen ++ [stored_in_set x]).
Proof.
  intros Hseen Hx i j a b Hij Ha Hb.
  assert (existsb (same_value_zero (stored_in_set x)) seen = false) as Hx'.
  { rewrite <- Hx. clear. induction seen as [| a seen IH]; [done |].
    cbn [existsb]. by rewrite IH, same_value_zero_stored. }
  clear Hx. revert Hx' Ha Hb. generalize (stored_in_set x). clear x. intros x Hx Ha Hb.
  destruct (decide (j < length seen)%nat) as [Hj | Hj].
  - rewrite lookup_app_l in Ha, Hb by lia. by apply (Hseen i j).
  - assert (i < length seen)%nat as Hi.
    { apply lookup_lt_Some in Hb. rewrite length_app in Hb. cbn in Hb. lia. }
    rewrite lookup_app_l in Ha by done.
    rewrite lookup_app_r in Hb by lia.
    apply list_lookup_singleton_Some in Hb as [_ <-].
    apply list_elem_of_lookup_2 in Ha.
    destruct (same_value_zero x a) eqn:Heq; [| done].
    assert (existsb (same_value_zero x) seen = true) as Hex; [| congruence].
    apply existsb_exists. exists a. split; [by apply list_elem_of_In | done].
Qed.

Lemma distinct_set_insert_all seen l :
  distinct seen → distinct (set_insert_all seen l).
Proof.
  revert seen. induction l as [| x l IH]; intros seen Hseen; cbn [set_insert_all]; [done |].
  destruct (existsb (same_value_zero x) seen) eqn:Hx; [by apply IH |].
  apply IH. by apply distinct_snoc.
Qed.

Lemma distinct_take n l : distinct l → distinct (take n l).
Proof.
  intros Hl i j x y Hij [Hx _]%lookup_take_Some [Hy _]%lookup_take_Some.
  by apply (Hl i j).
Qed.

Lemma distinct_spread_set n l : distinct (take n (spread_set l)).
Proof.
  apply distinct_take, distinct_set_insert_all. intros i j x y _ Hx. done.
Qed.

(** X6. Whatever the results, a merged analysis has at most 5 good
    highlights, 10 bad ones and 5 quotes, and no highlight is repeated
    within its list. *)
Theorem merged_sizes_bounded (results : list value) (m : AnalysisResult) :
  mergeChunkResults results = Ok m →
  (length (good (highlights m)) ≤ 5)%nat
  ∧ (length (bad (highlights m)) ≤ 10)%nat
  ∧ (length (criticalQuotes m) ≤ 5)%nat
  ∧ distinct (good (highlights m))
  ∧ distinct (bad (highlights m)).
Proof.
  intros (_ & _ & (goods & _ & ->) & (bads & _ & ->) & (quotes & _ & ->) & _)
         %MergerFacts.mergeChunkResults_inv.
  rewrite !length_take. repeat split; try lia; apply distinct_spread_set.
Qed.

Lemma merged_sizes_bounded_witness :
  ∃ m, mergeChunkResults [wordy_result; wordy_result] = Ok m
       ∧ (length (good (highlights m)) ≤ 5)%nat
       ∧ (length (bad (highlights m)) ≤ 10)%nat
       ∧ (length (criticalQuotes m) ≤ 5)%nat
       ∧ distinct (good (highlights m))
       ∧ distinct (bad (highlights m)).
Proof.
  assert (∃ m, mergeChunkResults [wordy_result; wordy_result] = Ok m) as [m Hm].
  { eexists. vm_compute. reflexivity. }
  exists m. split; [exact Hm |].
  exact (merged_sizes_bounded [wordy_result; wordy_result] m Hm).
Defined.

(** *** The merger after the normalizer *)

Section Host.
Variable JSON_parse : string → result value.
Variable greater_than_10 : value → result bool.
Local Abbreviation parseAnalysisResponse :=
  (parseAnalysisResponse JSON_parse greater_than_10).

Lemma length_exceeds_10_truthy summary :
  length_exceeds_10 greater_than_10 summary = Ok true → truthy summary = true.
Proof.
  destruct summary as [| | | | s | |]; try done.
  destruct s; [done |]. done.
Qed.

(** A normalized result is an object with a truthy summary. *)
Lemma normalized_summary_truthy response :
  is_object (parseAnalysisResponse response) = true
  ∧ truthy (prop (parseAnalysisResponse response) "summary") = true.
Proof.
  unfold Normalizer.parseAnalysisResponse, parse_body.
  destruct (parsed_reply JSON_parse response) as [parsed | e]; monad_simpl; [| done].
  destruct (validate greater_than_10 parsed) as [r | e] eqn:Hr; [| done].
  apply NormalizerFacts.validate_validated in Hr
    as (g & summary & d & gd & bd & q & -> & _ & Hlong & _).
  split; [done |]. by apply length_exceeds_10_truthy in Hlong.
Qed.

(** X7. When the merger runs on normalized chunk results, the merged summary
    is the summary of the first chunk, as the normalizer settled it: the
    summaries of the later chunks are dropped, and the default
    [Analysis complete.] of the merger is never used. *)
Theorem merged_summary_of_first_chunk (reply : value) (replies : list value)
    (m : AnalysisResult) :
  mergeChunkResults (parseAnalysisResponse <$> reply :: replies) = Ok m →
  summary m = prop (parseAnalysisResponse reply) "summary".
Proof.
  intros (_ & _ & _ & _ & _ & ->)%MergerFacts.mergeChunkResults_inv.
  rewrite fmap_cons. cbn [head default from_option id].
  destruct (normalized_summary_truthy reply) as [Hobj Htruthy].
  rewrite MergerFacts.get_opt_prop. unfold or_else. by rewrite Htruthy.
Qed.

End Host.

Lemma merged_summary_of_first_chunk_witness :
  ∃ m, mergeChunkResults
         (parseAnalysisResponse no_JSON_parse no_greater_than_10
            <$> [VStr "no json"; result_D]) = Ok m
       ∧ summary m = prop SENTINEL "summary".
Proof.
  assert (∃ m, mergeChunkResults
                 (parseAnalysisResponse no_JSON_parse no_greater_than_10
                    <$> [VStr "no json"; result_D]) = Ok m) as [m Hm].
  { eexists. vm_compute. reflexivity. }
  exists m. split; [exact Hm |].
  exact (merged_summary_of_first_chunk no_JSON_parse no_greater_than_10
           (VStr "no json") [result_D] m Hm).
Defined.

End MergingFacts.

(** * The error branch and the reply of [callLLM] *)

Module Reply.
Import Invoker.

(** What the error branch hands to [new Error]: the message embedded in
    the body when there is one, else the table entry of the status, else
    the generic text. *)
Definition chosen_message (response : Response) : value :=
  default (or_else (table_lookup (status response) HTTP_ERROR_MESSAGES)
                   (VStr (request_failed (status response))))
          (embedded_message (errorData_of response)).

(** A response with status 418 whose body has an [error] that is a string,
    and one whose body has an empty array as [message]. *)
Definition teapot : Response :=
  {| status := 418; json := Ok (VObj [("error", VStr "teapot")]) |}.
Definition empty_array_message : Response :=
  {| status := 418; json := Ok (VObj [("message", VArr [])]) |}.

(** [data.choices?.[0]?.message?.content], the reply in the OpenAI format. *)
Definition openai_content (data : value) : value :=
  get_opt (get_opt (first_opt (prop data "choices")) "message") "content".

(** [data.candidates?.[0]?.content?.parts?.[0]?.text], the reply in the
    Gemini format. *)
Definition gemini_text (data : value) : value :=
  get_opt (first_opt (get_opt (get_opt (first_opt (prop data "candidates")) "content")
                        "parts")) "text".

End Reply.

Module ReplyFacts.
Import Invoker Reply.

Lemma request_failed_truthy status : truthy (VStr (request_failed status)) = true.
Proof. reflexivity. Qed.

Lemma table_lookup_truthy status :
  truthy (or_else (table_lookup status HTTP_ERROR_MESSAGES) (VStr (request_failed status)))
  = true.
Proof.
  unfold or_else.
  destruct (truthy (table_lookup status HTTP_ERROR_MESSAGES)) eqn:H; [exact H |].
  apply request_failed_truthy.
Qed.

Lemma chosen_message_truthy response : truthy (chosen_message response) = true.
Proof.
  unfold chosen_message, embedded_message.
  destruct (truthy (get_opt (prop (errorData_of response) "error") "message")) eqn:H1;
    [exact H1 |].
  destruct (truthy (prop (errorData_of response) "message")) eqn:H2; [exact H2 |].
  apply table_lookup_truthy.
Qed.

Section Host.
Variable Number_toString : float → string.

Local Abbreviation ToString := (ToString Number_toString).
Local Abbreviation callLLM := (callLLM Number_toString).

Lemma join_throws (convert : value → result string) elems e :
  Forall (λ x, ∀ e, convert x = Throw e → e = TypeError) elems →
  join convert elems = Throw e → e = TypeError.
Proof.
  intros Hall. revert e. induction Hall as [| x rest Hx _ IH]; intros e; [discriminate |].
  cbn [join]. destruct (nullish x); monad_simpl.
  - destruct rest as [| y rest]; [discriminate |].
    destruct (join convert (y :: rest)) as [others | e'] eqn:Hrest; monad_simpl;
      [discriminate |].
    intros [= <-]. by apply IH.
  - destruct (convert x) as [first | e'] eqn:Hfirst; monad_simpl.
    + destruct rest as [| y rest]; [discriminate |].
      destruct (join convert (y :: rest)) as [others | e''] eqn:Hrest; monad_simpl;
        [discriminate |].
      intros [= <-]. by apply IH.
    + intros [= <-]. by apply Hx.
Qed.

(** The conversion to a string throws nothing but a TypeError. *)
Lemma ToString_throws v e : ToString v = Throw e → e = TypeError.
Proof.
  revert v e. fix IH 1. intros [| | b | n | s | elems | props] e; cbn [Invoker.ToString];
    try discriminate.
  - apply join_throws. induction elems as [| x rest IHrest]; constructor; [| exact IHrest].
    intros e'. apply IH.
  - destruct (lookup_prop "toString" props); [| discriminate]. by intros [= <-].
Qed.

(** X8. On a response that is not ok, whatever its body except the JSON
    value [null], [callLLM] throws.  What it hands to [new Error] is the
    message of the body ([error.message] before [message]) when that is
    truthy, and otherwise the table entry of the status or the generic
    text with the status code; this value is truthy, and it is a string
    when the body embeds no message.  What is thrown is the [Error] whose
    message is the string form of this value, or a TypeError when the
    value has none; when the value is a string, the message of the
    [Error] is this string, and it is not empty. *)
Theorem callLLM_error_has_message (response : Response) :
  ok response = false →
  nullish (errorData_of response) = false →
  truthy (chosen_message response) = true
  ∧ (embedded_message (errorData_of response) = None →
       ∃ text, chosen_message response = VStr text)
  ∧ callLLM response
    = match ToString (chosen_message response) with
      | Ok text => Throw (Error (VStr text))
      | Throw _ => Throw TypeError
      end
  ∧ ∀ text, chosen_message response = VStr text →
            text ≠ "" ∧ callLLM response = Throw (Error (VStr text)).
Proof.
  intros Hok Hnn. pose proof (chosen_message_truthy response) as Htruthy.
  assert (Hcall : callLLM response
                  = match ToString (chosen_message response) with
                    | Ok text => Throw (Error (VStr text))
                    | Throw _ => Throw TypeError
                    end).
  { rewrite InvokerFacts.callLLM_not_ok by done. fold (chosen_message response).
    assert (new_Error Number_toString (chosen_message response)
            = (message ← ToString (chosen_message response); mret (Error (VStr message))))
      as -> by (by destruct (chosen_message response)).
    destruct (ToString (chosen_message response)) as [text | e] eqn:Htext; [done |].
    monad_simpl. by rewrite (ToString_throws _ _ Htext). }
  split; [exact Htruthy |]. split; [| split; [exact Hcall |]].
  - intros Hnone. unfold chosen_message. rewrite Hnone.
    apply InvokerFacts.table_lookup_string.
  - intros text Htext. rewrite Hcall, Htext. split; [| done].
    intros ->. rewrite Htext in Htruthy. discriminate Htruthy.
Qed.

(** An empty array as embedded message makes an [Error] whose message is
    the empty string. *)
Lemma callLLM_empty_array_message :
  chosen_message empty_array_message = VArr []
  ∧ callLLM empty_array_message = Throw (Error (VStr "")).
Proof. split; reflexivity. Qed.

Lemma callLLM_ok_data response data :
  ok response = true →
  json response = Ok data →
  nullish data = false →
  callLLM response
  = Ok (or_else (openai_content data) (or_else (gemini_text data) (VStr ""))).
Proof.
  intros Hok Hjson Hnn. unfold Invoker.callLLM. rewrite Hok, Hjson. cbn [negb]. monad_simpl.
  unfold get. rewrite Hnn. monad_simpl. fold (openai_content data).
  fold (gemini_text data).
  destruct (truthy (openai_content data)) eqn:Ho; unfold or_else; by rewrite Ho.
Qed.

(** X9. On an ok response [callLLM] never answers with a falsy value other
    than the empty string: when the body parses to anything but [null] or
    [undefined], the reply is the OpenAI content when that is truthy,
    else the Gemini text when that is truthy, else [''].  A body that does
    not parse is not caught here, unlike in the error branch: the
    rejection of [response.json()] is the outcome. *)
Theorem callLLM_ok_reply (response : Response) :
  ok response = true →
  match json response with
  | Throw e => callLLM response = Throw e
  | Ok data =>
      if nullish data then callLLM response = Throw TypeError
      else
        ∃ reply,
          callLLM response = Ok reply
          ∧ reply = or_else (openai_content data) (or_else (gemini_text data) (VStr ""))
          ∧ (truthy reply = true ∨ reply = VStr "")
  end.
Proof.
  intros Hok. destruct (json response) as [data | e] eqn:Hjson.
  - destruct (nullish data) eqn:Hnn.
    + unfold Invoker.callLLM. rewrite Hok, Hjson. monad_simpl. unfold get. rewrite Hnn.
      by monad_simpl.
    + eexists. split; [by apply callLLM_ok_data |]. split; [done |].
      unfold or_else.
      destruct (truthy (openai_content data)) eqn:Ho; [by left |].
      destruct (truthy (gemini_text data)) eqn:Hg; [by left | by right].
  - unfold Invoker.callLLM. rewrite Hok, Hjson. by monad_simpl.
Qed.

End Host.

Lemma callLLM_error_has_message_witness :
  ok teapot = false
  ∧ ∀ Number_toString,
      callLLM Number_toString teapot = Throw (Error (VStr "Request failed (418)")).
Proof.
  split; [reflexivity |]. intros Number_toString.
  destruct (callLLM_error_has_message Number_toString teapot eq_refl eq_refl)
    as (_ & _ & _ & Hstring).
  exact (proj2 (Hstring "Request failed (418)" eq_refl)).
Defined.

Lemma callLLM_ok_reply_witness :
  ok {| status := 200;
        json := Ok (VObj [("content", VArr [VObj [("text", VStr "hello")]])]) |} = true
  ∧ ∀ Number_toString,
      callLLM Number_toString
        {| status := 200;
           json := Ok (VObj [("content", VArr [VObj [("text", VStr "hello")]])]) |}
      = Ok (VStr "").
Proof.
  split; [reflexivity |]. intros Number_toString.
  pose proof (callLLM_ok_reply Number_toString
    {| status := 200;
       json := Ok (VObj [("content", VArr [VObj [("text", VStr "hello")]])]) |}
    eq_refl) as H.
  cbn [json nullish] in H. destruct H as (reply & -> & -> & _). reflexivity.
Defined.

End ReplyFacts.

(** * Settings: [getSettings], [validateSettings] and the popup's check *)

Module Settings.

(** The message of the [Error] of [validateSettings]. *)
Definition CONFIGURATION_MESSAGE : string :=
  "Please configure your API settings (endpoint, model, and API key).".

(** [storage.get(keys)] of [utils/browser.js], from the API object and
    what [api.storage.local.get(keys)] settles to: the empty object when
    the storage API is not there. *)
Definition storage_get (api : value) (local_get : result value) : result value :=
  if negb (truthy (get_opt (get_opt api "storage") "local")) then mret (VObj [])
  else local_get.

(** [getSettings()], from what [storage.get('settings')] gave:
    [result.settings || {}]. *)
Definition getSettings (result : value) : JS.result value :=
  settings ← get result "settings"; mret (or_else settings (VObj [])).

(** [!settings.endpoint || !settings.model || !settings.apiKey]. *)
Definition incomplete (settings : value) : result bool :=
  endpoint ← get settings "endpoint";
  if negb (truthy endpoint) then mret true
  else
    model ← get settings "model";
    if negb (truthy model) then mret true
    else apiKey ← get settings "apiKey"; mret (negb (truthy apiKey)).

(** [validateSettings(settings)]. *)
Definition validateSettings (settings : value) : result unit :=
  missing ← incomplete settings;
  if missing : bool then Throw (Error (VStr CONFIGURATION_MESSAGE)) else mret ().

(** [a && b]. *)
Definition and_then (a b : value) : value := if truthy a then b else a.

(** [isConfigured(settings)] of the popup:
    [Boolean(settings?.endpoint && settings?.model && settings?.apiKey)]. *)
Definition isConfigured (settings : value) : bool :=
  truthy (and_then (and_then (get_opt settings "endpoint") (get_opt settings "model"))
                   (get_opt settings "apiKey")).

(** The settings the background script stores when the extension is
    installed. *)
Definition installed_settings : value :=
  VObj [("endpoint", VStr ""); ("model", VStr ""); ("apiKey", VStr "")].

(** What the storage holds after installation. *)
Definition installed_storage : value :=
  VObj [("settings", installed_settings); ("analyzedSites", VObj [])].

(** [saveSettingsHandler()] of the popup, from the values of the three
    input fields: the settings it stores, or nothing when the trimmed
    endpoint or model is empty and it shows an error instead. *)
Definition saveSettingsHandler (apiEndpoint modelName apiKey : string) : option value :=
  let settings :=
    VObj [("endpoint", VStr (Normalizer.trim apiEndpoint));
          ("model", VStr (Normalizer.trim modelName));
          ("apiKey", VStr (Normalizer.trim apiKey))] in
  if negb (truthy (prop settings "endpoint")) || negb (truthy (prop settings "model"))
  then None
  else Some settings.

End Settings.

Module SettingsFacts.
Import Settings.

Lemma truthy_and_then a b : truthy (and_then a b) = truthy a && truthy b.
Proof. unfold and_then. by destruct (truthy a) eqn:Ha. Qed.

Lemma validateSettings_cases settings :
  nullish settings = false →
  validateSettings settings
  = if isConfigured settings then Ok () else Throw (Error (VStr CONFIGURATION_MESSAGE)).
Proof.
  intros Hnn. unfold validateSettings, incomplete, isConfigured, get, get_opt.
  rewrite !truthy_and_then, Hnn. monad_simpl.
  destruct (truthy (prop settings "endpoint")); monad_simpl; [| done].
  destruct (truthy (prop settings "model")); monad_simpl; [| done].
  by destruct (truthy (prop settings "apiKey")).
Qed.

Lemma getSettings_not_nullish result settings :
  getSettings result = Ok settings → nullish settings = false.
Proof.
  unfold getSettings. destruct (get result "settings") as [s | e]; monad_simpl; [| done].
  intros [= <-]. unfold or_else. destruct (truthy s) eqn:Hs; [| done]. by destruct s.
Qed.

(** X10. The background script and the popup agree on what configured means:
    on settings that are not [null] or [undefined], [validateSettings]
    passes exactly when the popup's [isConfigured] is true, and throws
    the configuration [Error] otherwise, never anything else.
    [getSettings] only yields such settings, so the check of the stored
    settings never ends in a TypeError.  The settings stored at
    installation are not configured. *)
Theorem validateSettings_agrees_with_isConfigured :
  (∀ settings,
     nullish settings = false →
     validateSettings settings
     = if isConfigured settings then Ok ()
       else Throw (Error (VStr CONFIGURATION_MESSAGE)))
  ∧ (∀ result settings,
       getSettings result = Ok settings →
       nullish settings = false
       ∧ (validateSettings settings = Ok () ↔ isConfigured settings = true)
       ∧ (validateSettings settings = Throw (Error (VStr CONFIGURATION_MESSAGE))
          ↔ isConfigured settings = false))
  ∧ isConfigured installed_settings = false
  ∧ validateSettings installed_settings = Throw (Error (VStr CONFIGURATION_MESSAGE)).
Proof.
  split; [exact validateSettings_cases |]. split; [| by split].
  intros result settings Hnn%getSettings_not_nullish. split; [exact Hnn |].
  rewrite validateSettings_cases by done.
  by destruct (isConfigured settings).
Qed.

(** X11. The popup saves settings without an API key: it checks the endpoint
    and the model only.  What it saves is configured exactly when the
    trimmed key is not empty; settings saved with a blank key are refused
    by [validateSettings], so that every analysis fails with the
    configuration error until a key is entered. *)
Theorem saved_settings_need_key (apiEndpoint modelName apiKey : string) (settings : value) :
  saveSettingsHandler apiEndpoint modelName apiKey = Some settings →
  (Normalizer.trim apiKey = "" →
     isConfigured settings = false
     ∧ validateSettings settings = Throw (Error (VStr CONFIGURATION_MESSAGE)))
  ∧ (Normalizer.trim apiKey ≠ "" →
       isConfigured settings = true ∧ validateSettings settings = Ok ()).
Proof.
  unfold saveSettingsHandler. cbn [prop lookup_prop String.eqb Ascii.eqb Bool.eqb].
  destruct (truthy (VStr (Normalizer.trim apiEndpoint))) eqn:He; [| done].
  destruct (truthy (VStr (Normalizer.trim modelName))) eqn:Hm; [| done].
  intros [= <-].
  assert (∀ b, truthy (VStr (Normalizer.trim apiKey)) = b →
            isConfigured (VObj [("endpoint", VStr (Normalizer.trim apiEndpoint));
                                ("model", VStr (Normalizer.trim modelName));
                                ("apiKey", VStr (Normalizer.trim apiKey))]) = b) as Hconf.
  { intros b Hb. unfold isConfigured. rewrite !truthy_and_then.
    cbn [get_opt nullish prop lookup_prop String.eqb Ascii.eqb Bool.eqb].
    by rewrite He, Hm, Hb. }
  split.
  - intros Hk. assert (isConfigured
      (VObj [("endpoint", VStr (Normalizer.trim apiEndpoint));
             ("model", VStr (Normalizer.trim modelName));
             ("apiKey", VStr (Normalizer.trim apiKey))]) = false) as H.
    { apply Hconf. cbn [truthy]. by rewrite Hk. }
    split; [exact H |]. rewrite validateSettings_cases by done. by rewrite H.
  - intros Hk. assert (isConfigured
      (VObj [("endpoint", VStr (Normalizer.trim apiEndpoint));
             ("model", VStr (Normalizer.trim modelName));
             ("apiKey", VStr (Normalizer.trim apiKey))]) = true) as H.
    { apply Hconf. cbn [truthy]. by destruct (String.eqb_spec (Normalizer.trim apiKey) ""). }
    split; [exact H |]. rewrite validateSettings_cases by done. by rewrite H.
Qed.

Lemma saved_settings_need_key_witness :
  ∃ settings,
    saveSettingsHandler " https://api.openai.com/v1" "gpt-4o-mini" "  " = Some settings
    ∧ validateSettings settings = Throw (Error (VStr CONFIGURATION_MESSAGE)).
Proof.
  eexists. split; [reflexivity |].
  apply (saved_settings_need_key " https://api.openai.com/v1" "gpt-4o-mini" "  ");
    reflexivity.
Defined.

End SettingsFacts.

(** * The orchestrator: [analyzePolicyWithLLM], [analyzeInChunks] and the
      request of [callLLM] *)

Module Analyzer.
Import Chunking Normalizer Merger Settings.

(** [endpoint.replace(/\/?$/, '/chat/completions')]: the only match of
    the pattern takes the last code unit when that is a slash, and is
    the empty match at the end otherwise. *)
Definition apiUrl (endpoint : string) : string :=
  String.append (default endpoint (strip_suffix "/" endpoint)) "/chat/completions".

(** What varies in the request [callLLM] hands to [fetch]: the URL, the
    value interpolated after [Bearer ] in the Authorization header, and
    the [model] and the two message contents of the body.  The method
    POST, the content type, [temperature: 0.3], [max_tokens: 4096] and
    the [json_object] response format are the same in every request. *)
Record Request : Type := {
  url : string;
  bearer : value;
  model : value;
  systemPrompt : string;
  userPrompt : string
}.

(** The line feed of the template literals. *)
Definition LF : string := String (ascii_of_nat 10) EmptyString.

(** [getAnalysisUserPrompt(policyText, policyType)] of [utils/prompts.js]. *)
Definition getAnalysisUserPrompt (policyText policyType : string) : string :=
  String.concat ""
    ["Analyze this "; policyType; " and return a JSON assessment:"; LF; LF;
     "---BEGIN POLICY---"; LF; policyText; LF; "---END POLICY---"; LF; LF;
     "Remember: Be brief, use plain English, cite specific quotes for concerns."].

(** [`${policyType} (Part ${i + 1} of ${chunks.length})`]. *)
Definition part_label (policyType : string) (i n : nat) : string :=
  String.concat "" [policyType; " (Part "; pretty (S i); " of "; pretty n; ")"].

(** The chunks of a text, as strings. *)
Definition chunks_of (policyText : string) : list string :=
  string_of_list_ascii <$> split_chunks (list_ascii_of_string policyText).

(** When all the promises are fulfilled, [Promise.all] is fulfilled with
    their values in order; when one is rejected, it is rejected with the
    reason of the one rejected first.  Which one that is depends on the
    timing of the responses, so the relation leaves it open. *)
Inductive Promise_all {A : Type} (promises : list (result A)) : result (list A) → Prop :=
| all_fulfilled values :
    promises = Ok <$> values → Promise_all promises (Ok values)
| one_rejected e :
    Throw e ∈ promises → Promise_all promises (Throw e).

(** What [analyzePolicyWithLLM] resolves to: the result of the
    normalizer, or the one of the merger. *)
Inductive Analysis : Type :=
| Single (result : value)
| Merged (result : AnalysisResult).

Section Host.

Variable JSON_parse : string → result value.
Variable greater_than_10 : value → result bool.
Variable Number_toString : float → string.

(** The system prompt of [utils/prompts.js]. *)
Variable ANALYSIS_SYSTEM_PROMPT : string.

(** [fetch] of the host: what its [n]-th call, with this request, settles
    to, a response or the rejection of a network failure. *)
Variable fetch : nat → Request → result Invoker.Response.

(** The start of [callLLM]: the destructuring of the settings and the
    request.  An endpoint that is not a string has no [replace] method. *)
Definition request_of (settings : value) (systemPrompt userPrompt : string)
  : result Request :=
  endpoint ← get settings "endpoint";
  model ← get settings "model";
  apiKey ← get settings "apiKey";
  match endpoint with
  | VStr endpoint =>
      mret {| url := apiUrl endpoint; bearer := apiKey; model := model;
              systemPrompt := systemPrompt; userPrompt := userPrompt |}
  | _ => Throw TypeError
  end.

(** [callLLM(settings, systemPrompt, userPrompt)] as the [n]-th call:
    the request it sends, if it gets that far, and its outcome. *)
Definition callLLM (n : nat) (settings : value) (systemPrompt userPrompt : string)
  : option Request * result value :=
  match request_of settings systemPrompt userPrompt with
  | Throw e => (None, Throw e)
  | Ok request =>
      (Some request, response ← fetch n request; Invoker.callLLM Number_toString response)
  end.

(** The three statements that [analyzePolicyWithLLM] and the callback of
    [chunks.map] share: the user prompt, the call and the normalizer. *)
Definition analyze_text (n : nat) (settings : value) (policyText policyType : string)
  : option Request * result value :=
  let userPrompt := getAnalysisUserPrompt policyText policyType in
  let call := callLLM n settings ANALYSIS_SYSTEM_PROMPT userPrompt in
  (call.1, response ← call.2;
           mret (parseAnalysisResponse JSON_parse greater_than_10 response)).

(** The calls of [chunks.map(async (chunk, i) => ...)]: each callback runs
    up to its [fetch] before the next one starts, so the requests leave
    in the order of the chunks. *)
Definition chunk_calls (settings : value) (policyText policyType : string)
  : list (option Request * result value) :=
  let chunks := chunks_of policyText in
  imap (λ i chunk, analyze_text i settings chunk (part_label policyType i (length chunks)))
       chunks.

(** [analyzeInChunks(policyText, policyType, settings)] resolves to
    [outcome]. *)
Definition analyzeInChunks (policyText policyType : string) (settings : value)
    (outcome : result AnalysisResult) : Prop :=
  ∃ settled,
    Promise_all (snd <$> chunk_calls settings policyText policyType) settled
    ∧ outcome = (chunkResults ← settled; mergeChunkResults chunkResults).

(** The first two statements of [analyzePolicyWithLLM], from what
    [storage.get('settings')] settled to. *)
Definition checked_settings (stored : result value) : result value :=
  result ← stored;
  settings ← getSettings result;
  _ ← validateSettings settings;
  mret settings.

(** [policyText.length > MAX_TEXT_LENGTH]. *)
Definition too_long (policyText : string) : bool :=
  Z.of_nat (String.length policyText) >? MAX_TEXT_LENGTH.

(** The requests [analyzePolicyWithLLM(policyText, policyType)] sends, in
    order. *)
Definition requests_sent (stored : result value) (policyText policyType : string)
  : list Request :=
  match checked_settings stored with
  | Throw _ => []
  | Ok settings =>
      if too_long policyText
      then omap fst (chunk_calls settings policyText policyType)
      else option_list (analyze_text 0 settings policyText policyType).1
  end.

(** [analyzePolicyWithLLM(policyText, policyType)] resolves to [outcome]. *)
Definition analyzePolicyWithLLM (stored : result value) (policyText policyType : string)
    (outcome : result Analysis) : Prop :=
  match checked_settings stored with
  | Throw e => outcome = Throw e
  | Ok settings =>
      if too_long policyText
      then ∃ merged, analyzeInChunks policyText policyType settings merged
                     ∧ outcome = (result ← merged; mret (Merged result))
      else outcome = (result ← (analyze_text 0 settings policyText policyType).2;
                      mret (Single result))
  end.

(** ** Vocabulary of the properties *)

(** The request for a text, under settings whose endpoint is the string
    [endpoint]. *)
Definition request_for (settings : value) (endpoint policyText policyType : string)
  : Request :=
  {| url := apiUrl endpoint;
     bearer := prop settings "apiKey";
     model := prop settings "model";
     systemPrompt := ANALYSIS_SYSTEM_PROMPT;
     userPrompt := getAnalysisUserPrompt policyText policyType |}.

End Host.

(** Settings as the popup stores them, and the storage that holds them. *)
Definition sample_settings : value :=
  VObj [("endpoint", VStr "https://api.openai.com/v1/");
        ("model", VStr "gpt-4o-mini");
        ("apiKey", VStr "sk-test")].
Definition sample_storage : value := VObj [("settings", sample_settings)].

(** A text of 50001 code units. *)
Definition long_policy : string := string_of_list_ascii long_text.

(** A host in which every number prints as 0. *)
Definition zero_Number_toString : float → string := λ _, "0".

(** A host that answers every request with an ok response whose text is
    in a [content] array, a format that [callLLM] does not read. *)
Definition other_format : nat → Request → result Invoker.Response :=
  λ _ _, Ok {| Invoker.status := 200;
               Invoker.json :=
                 Ok (VObj [("content", VArr [VObj [("text", VStr "{}")]])]) |}.

End Analyzer.

(** * [extractJSON]: the text handed to [JSON.parse] *)

Module Extractor.

(** No code unit of [s] is a brace. *)
Fixpoint brace_free (s : string) : bool :=
  match s with
  | EmptyString => true
  | String c rest =>
      negb (Ascii.eqb c "{") && negb (Ascii.eqb c "}") && brace_free rest
  end.

(** [open], then [body] between braces, then [close]. *)
Definition around (open body close : string) : string :=
  open +:+ String "{" (body +:+ String "}" close).

(** [s] holds [{body}] between two texts without braces. *)
Definition framed (body s : string) : Prop :=
  ∃ a b, s = around a body b ∧ brace_free a = true ∧ brace_free b = true.

(** The last code unit of a string. *)
Fixpoint last_code_unit (s : string) : option ascii :=
  match s with
  | EmptyString => None
  | String c EmptyString => Some c
  | String _ rest => last_code_unit rest
  end.

End Extractor.

(** * Facts about strings *)

Module StringFacts.
Import Normalizer Extractor.
Implicit Types (s t p : string) (c : ascii) (n m : nat).

Lemma append_String c s t : String c s +:+ t = String c (s +:+ t).
Proof. reflexivity. Qed.

Lemma append_nil_l s : "" +:+ s = s.
Proof. reflexivity. Qed.

Lemma append_nil_r s : s +:+ "" = s.
Proof. induction s as [| c s IH]; [done |]. by rewrite append_String, IH. Qed.

Lemma append_assoc s t p : (s +:+ t) +:+ p = s +:+ (t +:+ p).
Proof. induction s as [| c s IH]; [done |]. by rewrite !append_String, IH. Qed.

Lemma length_append s t :
  String.length (s +:+ t) = (String.length s + String.length t)%nat.
Proof. induction s as [| c s IH]; [done |]. rewrite append_String. cbn. by rewrite IH. Qed.

Lemma append_inv_head s t p : s +:+ t = s +:+ p → t = p.
Proof. induction s as [| c s IH]; [done |]. rewrite !append_String. intros [= H]. auto. Qed.

Lemma substring_0_0 s : substring 0 0 s = "".
Proof. by destruct s. Qed.

Lemma substring_0_append s t : substring 0 (String.length s) (s +:+ t) = s.
Proof.
  induction s as [| c s IH]; [apply substring_0_0 |].
  rewrite append_String. cbn. by rewrite IH.
Qed.

Lemma substring_0_length s : substring 0 (String.length s) s = s.
Proof. rewrite <- (append_nil_r s) at 2. apply substring_0_append. Qed.

Lemma substring_skip_append s t n m :
  substring (String.length s + n) m (s +:+ t) = substring n m t.
Proof. induction s as [| c s IH]; [done |]. rewrite append_String. cbn. exact IH. Qed.

Lemma substring_split s n :
  (n ≤ String.length s)%nat →
  substring 0 n s +:+ substring n (String.length s - n) s = s.
Proof.
  revert n. induction s as [| c s IH]; intros n Hn.
  - by destruct n.
  - destruct n as [| n].
    + cbn [substring]. rewrite Nat.sub_0_r. cbn [String.length].
      change (String c (substring 0 (String.length s) s) = String c s).
      by rewrite substring_0_length.
    + cbn [substring String.length Nat.sub]. rewrite append_String.
      rewrite IH; [done |]. cbn in Hn. lia.
Qed.

Lemma strip_suffix_append s p : strip_suffix p (s +:+ p) = Some s.
Proof.
  unfold strip_suffix. rewrite length_append.
  replace (String.length s + String.length p - String.length p)%nat
    with (String.length s) by lia.
  rewrite <- (Nat.add_0_r (String.length s)) at 2.
  rewrite substring_skip_append, substring_0_length, String.eqb_refl.
  rewrite substring_0_append.
  destruct (Nat.leb_spec (String.length p) (String.length s + String.length p)); [done | lia].
Qed.

Lemma strip_suffix_Some s p r : strip_suffix p s = Some r → s = r +:+ p.
Proof.
  unfold strip_suffix.
  destruct (Nat.leb_spec (String.length p) (String.length s)) as [Hle |]; [| done].
  destruct (String.eqb_spec
              (substring (String.length s - String.length p) (String.length p) s) p)
    as [Heq |]; [| done].
  intros [= <-]. set (n := (String.length s - String.length p)%nat) in *.
  rewrite <- (substring_split s n) at 1 by lia. f_equal.
  replace (String.length s - n)%nat with (String.length p) by lia. exact Heq.
Qed.

Lemma last_code_unit_append s t :
  t ≠ "" → last_code_unit (s +:+ t) = last_code_unit t.
Proof.
  intros Ht. induction s as [| c s IH]; [done |]. rewrite append_String.
  cbn [last_code_unit]. rewrite IH.
  destruct (s +:+ t) eqn:Hst; [| done].
  destruct s; [done | discriminate Hst].
Qed.

Lemma strip_suffix_last s c :
  last_code_unit s ≠ Some c → strip_suffix (String c "") s = None.
Proof.
  intros Hlast. destruct (strip_suffix (String c "") s) as [r |] eqn:Hr; [| done].
  apply strip_suffix_Some in Hr as ->. by rewrite last_code_unit_append in Hlast.
Qed.

End StringFacts.

Module AnalyzerFacts.
Import Chunking Normalizer Merger Merging Settings Analyzer StringFacts.

(** *** The URL *)

(** X12. [callLLM] posts to the endpoint followed by [/chat/completions],
    after removing one trailing slash: an endpoint gives the same URL
    with and without it.  Nothing else is recognized: an endpoint that
    already ends with [/chat/completions] gets the path a second time. *)
Theorem apiUrl_trailing_slash (endpoint : string) (c : ascii) :
  apiUrl "" = "/chat/completions"
  ∧ apiUrl (endpoint +:+ "/") = endpoint +:+ "/chat/completions"
  ∧ apiUrl (endpoint +:+ String c "")
    = (if Ascii.eqb c "/" then endpoint else endpoint +:+ String c "")
      +:+ "/chat/completions"
  ∧ apiUrl (endpoint +:+ "/chat/completions")
    = endpoint +:+ "/chat/completions/chat/completions".
Proof.
  unfold apiUrl. repeat split.
  - by rewrite strip_suffix_append.
  - destruct (Ascii.eqb_spec c "/") as [-> | Hc].
    + by rewrite strip_suffix_append.
    + rewrite strip_suffix_last; [done |].
      rewrite last_code_unit_append by done. cbn. congruence.
  - rewrite strip_suffix_last.
    + cbn [default]. by rewrite append_assoc.
    + by rewrite last_code_unit_append.
Qed.

(** *** Strings and chunks *)

Lemma length_list_ascii_of_string s :
  length (list_ascii_of_string s) = String.length s.
Proof. induction s as [| c s IH]; [done |]. cbn. by rewrite IH. Qed.

Lemma string_of_list_ascii_app (l1 l2 : list ascii) :
  string_of_list_ascii (l1 ++ l2) = string_of_list_ascii l1 +:+ string_of_list_ascii l2.
Proof. induction l1 as [| c l1 IH]; [done |]. cbn. by rewrite IH. Qed.

Lemma length_string_of_list_ascii (l : list ascii) :
  String.length (string_of_list_ascii l) = length l.
Proof. induction l as [| c l IH]; [done |]. cbn. by rewrite IH. Qed.

Lemma concat_no_separator x (xs : list string) :
  String.concat "" (x :: xs) = x +:+ String.concat "" xs.
Proof. destruct xs; [by rewrite append_nil_r | done]. Qed.

Lemma concat_string_of_list_ascii (ls : list (list ascii)) :
  String.concat "" (string_of_list_ascii <$> ls) = string_of_list_ascii (concat ls).
Proof.
  induction ls as [| l ls IH]; [done |].
  rewrite fmap_cons, concat_no_separator, IH. cbn [concat].
  by rewrite string_of_list_ascii_app.
Qed.

(** The chunks of a text, read one after the other, are the text. *)
Lemma concat_chunks_of policyText : String.concat "" (chunks_of policyText) = policyText.
Proof.
  unfold chunks_of, split_chunks. rewrite concat_string_of_list_ascii.
  rewrite ChunkingFacts.concat_chunk_loop by done. cbn [concat drop Z.to_nat app].
  apply string_of_list_ascii_of_string.
Qed.

Lemma length_chunks_of policyText :
  Z.of_nat (length (chunks_of policyText)) = chunk_count (list_ascii_of_string policyText).
Proof. unfold chunks_of. rewrite length_fmap. apply ChunkingFacts.length_split_chunks. Qed.

Lemma chunks_of_sizes policyText :
  Forall (λ chunk, 0 < Z.of_nat (String.length chunk) ≤ chunkSize) (chunks_of policyText).
Proof.
  unfold chunks_of. apply Forall_fmap.
  eapply Forall_impl; [apply ChunkingFacts.split_chunks_sizes |].
  intros chunk H. cbn. by rewrite length_string_of_list_ascii.
Qed.

Lemma too_long_two_chunks policyText :
  too_long policyText = true → (2 ≤ length (chunks_of policyText))%nat.
Proof.
  unfold too_long. intros Hlong%Z.gtb_lt.
  pose proof (length_chunks_of policyText) as Hlen.
  pose proof (ChunkingFacts.chunk_count_ceiling (list_ascii_of_string policyText)) as Hc.
  rewrite length_list_ascii_of_string in Hc.
  unfold chunkSize, MAX_TEXT_LENGTH in *. lia.
Qed.

(** *** Settings *)

Lemma isConfigured_not_nullish settings : isConfigured settings = true → nullish settings = false.
Proof. by destruct settings. Qed.

Lemma checked_settings_Ok stored settings :
  checked_settings stored = Ok settings →
  isConfigured settings = true ∧ nullish settings = false.
Proof.
  unfold checked_settings. destruct stored as [result | e]; monad_simpl; [| done].
  destruct (getSettings result) as [s | e] eqn:Hs; monad_simpl; [| done].
  apply SettingsFacts.getSettings_not_nullish in Hs.
  rewrite SettingsFacts.validateSettings_cases by done.
  destruct (isConfigured s) eqn:Hc; monad_simpl; [| done].
  by intros [= <-].
Qed.

Lemma checked_settings_stored result :
  nullish result = false →
  checked_settings (Ok result)
  = let settings := or_else (prop result "settings") (VObj []) in
    if isConfigured settings then Ok settings
    else Throw (Error (VStr CONFIGURATION_MESSAGE)).
Proof.
  intros Hnn. unfold checked_settings. monad_simpl. unfold getSettings, get.
  rewrite Hnn. monad_simpl.
  rewrite SettingsFacts.validateSettings_cases.
  - by destruct (isConfigured _).
  - unfold or_else. destruct (truthy (prop result "settings")) eqn:Hs; [| done].
    by destruct (prop result "settings").
Qed.

Section Host.

Variable JSON_parse : string → result value.
Variable greater_than_10 : value → result bool.
Variable Number_toString : float → string.
Variable ANALYSIS_SYSTEM_PROMPT : string.
Variable fetch : nat → Request → result Invoker.Response.

Local Abbreviation requests_sent :=
  (requests_sent JSON_parse greater_than_10 Number_toString ANALYSIS_SYSTEM_PROMPT fetch).
Local Abbreviation analyzePolicyWithLLM :=
  (analyzePolicyWithLLM JSON_parse greater_than_10 Number_toString ANALYSIS_SYSTEM_PROMPT fetch).
Local Abbreviation chunk_calls :=
  (chunk_calls JSON_parse greater_than_10 Number_toString ANALYSIS_SYSTEM_PROMPT fetch).
Local Abbreviation analyze_text :=
  (analyze_text JSON_parse greater_than_10 Number_toString ANALYSIS_SYSTEM_PROMPT fetch).
Local Abbreviation parseAnalysisResponse :=
  (parseAnalysisResponse JSON_parse greater_than_10).
Local Abbreviation request_for := (request_for ANALYSIS_SYSTEM_PROMPT).

(** X13. No request leaves before the settings are complete: when the stored
    settings are missing or lack a truthy endpoint, model or key,
    [analyzePolicyWithLLM] sends nothing and is rejected with the
    configuration [Error], whatever the text and its length. *)
Theorem analysis_needs_configuration (result : value) (policyText policyType : string) :
  nullish result = false →
  isConfigured (or_else (prop result "settings") (VObj [])) = false →
  requests_sent (Ok result) policyText policyType = []
  ∧ ∀ outcome,
      analyzePolicyWithLLM (Ok result) policyText policyType outcome
      ↔ outcome = Throw (Error (VStr CONFIGURATION_MESSAGE)).
Proof.
  intros Hnn Hconf. unfold Analyzer.requests_sent, Analyzer.analyzePolicyWithLLM.
  rewrite checked_settings_stored by done. cbn zeta. by rewrite Hconf.
Qed.

Lemma request_of_usable settings endpoint systemPrompt userPrompt :
  isConfigured settings = true →
  prop settings "endpoint" = VStr endpoint →
  request_of settings systemPrompt userPrompt
  = Ok {| url := apiUrl endpoint;
          bearer := prop settings "apiKey";
          model := prop settings "model";
          systemPrompt := systemPrompt;
          userPrompt := userPrompt |}.
Proof.
  intros Hnn%isConfigured_not_nullish He. unfold request_of, get. rewrite Hnn. monad_simpl.
  by rewrite He.
Qed.

Lemma analyze_text_usable n settings endpoint policyText policyType :
  isConfigured settings = true →
  prop settings "endpoint" = VStr endpoint →
  analyze_text n settings policyText policyType
  = (Some (request_for settings endpoint policyText policyType),
     response ← fetch n (request_for settings endpoint policyText policyType);
     reply ← Invoker.callLLM Number_toString response;
     mret (parseAnalysisResponse reply)).
Proof.
  intros Hc He. unfold Analyzer.analyze_text, callLLM.
  rewrite (request_of_usable _ endpoint) by done. cbn [fst snd]. f_equal.
  by destruct (fetch n _).
Qed.

Lemma omap_imap_Some {A B C} (g : nat → A → option B * C) (h : nat → A → B) (l : list A) :
  (∀ i x, (g i x).1 = Some (h i x)) → omap fst (imap g l) = imap h l.
Proof.
  revert g h. induction l as [| x l IH]; intros g h Hg; [done |].
  cbn [imap omap list_omap]. rewrite Hg. f_equal. apply IH. intros i y. apply Hg.
Qed.


(** *** The outcome of the chunked path *)

Lemma Ok_fmap_inj {A} (l1 l2 : list A) : Ok <$> l1 = Ok <$> l2 → l1 = l2.
Proof.
  revert l2. induction l1 as [| x l1 IH]; intros [| y l2]; try done.
  rewrite !fmap_cons. intros [= -> H]. f_equal. by apply IH.
Qed.

Lemma Throw_not_fulfilled {A} (values : list A) e : Throw e ∉ Ok <$> values.
Proof. intros (x & H & _)%list_elem_of_fmap. discriminate H. Qed.

(** X15. The chunked path is all or nothing.  When every chunk call is
    fulfilled, the analysis is what the merger makes of the normalized
    replies, in chunk order, and nothing else.  When one is rejected (a
    network failure, an HTTP error, a body without JSON), the analysis is
    rejected with the reason of a rejected chunk: the chunks that
    succeeded are not merged and no partial result is returned. *)
Theorem chunked_analysis_all_or_nothing (stored : result value) (settings : value)
    (policyText policyType : string) :
  checked_settings stored = Ok settings →
  too_long policyText = true →
  let promises := snd <$> chunk_calls settings policyText policyType in
  (∀ values, promises = Ok <$> values →
     ∀ outcome,
       analyzePolicyWithLLM stored policyText policyType outcome
       ↔ outcome = (merged ← mergeChunkResults values; mret (Merged merged)))
  ∧ (∀ e, Throw e ∈ promises →
       ∀ outcome,
         analyzePolicyWithLLM stored policyText policyType outcome →
         ∃ e', outcome = Throw e' ∧ Throw e' ∈ promises).
Proof.
  intros Hs Hlong promises. unfold Analyzer.analyzePolicyWithLLM, analyzeInChunks.
  rewrite Hs, Hlong. fold promises. split.
  - intros values Hvalues outcome. split.
    + intros (merged & (settled & Hall & ->) & ->).
      destruct Hall as [values' Hvalues' | e He].
      * rewrite Hvalues in Hvalues'. apply Ok_fmap_inj in Hvalues' as <-. monad_simpl.
        by destruct (mergeChunkResults values).
      * rewrite Hvalues in He. by apply Throw_not_fulfilled in He.
    + intros ->. exists (mergeChunkResults values). split; [| done].
      exists (Ok values). split; [by constructor | done].
  - intros e He outcome (merged & (settled & Hall & ->) & ->).
    destruct Hall as [values Hvalues | e' He'].
    + rewrite Hvalues in He. by apply Throw_not_fulfilled in He.
    + by exists e'.
Qed.

(** *** A reply in neither format *)


End Host.

Lemma analysis_needs_configuration_witness :
  nullish installed_storage = false
  ∧ ∀ JSON_parse greater_than_10 Number_toString ANALYSIS_SYSTEM_PROMPT fetch,
      requests_sent JSON_parse greater_than_10 Number_toString ANALYSIS_SYSTEM_PROMPT fetch
        (Ok installed_storage) "We sell your data." "Privacy Policy" = [].
Proof.
  split; [reflexivity |].
  intros JSON_parse greater_than_10 Number_toString ANALYSIS_SYSTEM_PROMPT fetch.
  apply (analysis_needs_configuration JSON_parse greater_than_10 Number_toString
           ANALYSIS_SYSTEM_PROMPT fetch
           installed_storage "We sell your data." "Privacy Policy"); reflexivity.
Defined.


Lemma chunked_analysis_all_or_nothing_witness :
  analyzePolicyWithLLM no_JSON_parse no_greater_than_10 zero_Number_toString "" other_format
    (Ok sample_storage) long_policy "Privacy Policy"
    (Ok (Merged {| grade := VStr "A";
                   summary := prop SENTINEL "summary";
                   dirtyDozen := ∅;
                   dirtyDozenPrototype := ObjectPrototype;
                   highlights := {| good := []; bad := [] |};
                   criticalQuotes := [] |})).
Proof.
  assert (too_long long_policy = true) as Hlong by (vm_compute; reflexivity).
  destruct (chunked_analysis_all_or_nothing no_JSON_parse no_greater_than_10
              zero_Number_toString "" other_format (Ok sample_storage) sample_settings long_policy
              "Privacy Policy" eq_refl Hlong) as [Hfulfilled _].
  apply (Hfulfilled [SENTINEL; SENTINEL]); [vm_compute |]; reflexivity.
Defined.


End AnalyzerFacts.

(** * Facts about [extractJSON] *)

Module ExtractorFacts.
Import Normalizer Extractor StringFacts.
Implicit Types (s t a b body : string) (c : ascii).

Lemma brace_free_String c s :
  brace_free (String c s) = true → c ≠ "{"%char ∧ c ≠ "}"%char ∧ brace_free s = true.
Proof.
  cbn [brace_free]. rewrite !andb_true_iff, !negb_true_iff.
  intros [[H1 H2] H3]. repeat split; [| | done]; intros ->; discriminate.
Qed.

Lemma brace_free_append s t :
  brace_free (s +:+ t) = brace_free s && brace_free t.
Proof.
  induction s as [| c s IH]; [done |]. rewrite append_String. cbn [brace_free].
  rewrite IH. by rewrite !andb_assoc.
Qed.

Lemma trimStart_suffix s : ∃ dropped, s = dropped +:+ trimStart s.
Proof.
  induction s as [| c s [dropped IH]]; [by exists "" |]. cbn [trimStart].
  destruct (is_space c); [| by exists ""].
  exists (String c dropped). by rewrite append_String, <- IH.
Qed.

Lemma trimEnd_prefix s : ∃ dropped, s = trimEnd s +:+ dropped.
Proof.
  induction s as [| c s [dropped IH]]; [by exists "" |]. cbn [trimEnd].
  destruct (trimEnd s) as [| d kept] eqn:Hkept.
  - destruct (is_space c).
    + exists (String c s). reflexivity.
    + exists s. reflexivity.
  - exists dropped. rewrite append_String. by rewrite <- IH.
Qed.

Lemma brace_free_trimStart s : brace_free s = true → brace_free (trimStart s) = true.
Proof.
  destruct (trimStart_suffix s) as [dropped H]. rewrite H at 1.
  rewrite brace_free_append. by intros [_ ?]%andb_true_iff.
Qed.

Lemma brace_free_trimEnd s : brace_free s = true → brace_free (trimEnd s) = true.
Proof.
  destruct (trimEnd_prefix s) as [dropped H]. rewrite H at 1.
  rewrite brace_free_append. by intros [? _]%andb_true_iff.
Qed.

Lemma trimStart_around a body b :
  trimStart (around a body b) = around (trimStart a) body b.
Proof.
  induction a as [| c a IH]; [done |]. unfold around. rewrite append_String.
  cbn [trimStart]. destruct (is_space c); [exact IH | done].
Qed.

Lemma trimEnd_keeps s c t :
  is_space c = false → trimEnd (s +:+ String c t) = s +:+ String c (trimEnd t).
Proof.
  intros Hc. induction s as [| d s IH].
  - rewrite !append_nil_l. cbn [trimEnd]. rewrite Hc. by destruct (trimEnd t).
  - rewrite append_String. cbn [trimEnd]. rewrite IH.
    rewrite append_String. by destruct s.
Qed.

Lemma trimEnd_around a body b :
  trimEnd (around a body b) = around a body (trimEnd b).
Proof.
  unfold around.
  change (a +:+ String "{" (body +:+ String "}" b))
    with (a +:+ (String "{" body +:+ String "}" b)).
  rewrite <- append_assoc, trimEnd_keeps by done. by rewrite append_assoc.
Qed.

Lemma trim_framed body s : framed body s → framed body (trim s).
Proof.
  intros (a & b & -> & Ha & Hb). unfold trim.
  rewrite trimStart_around, trimEnd_around.
  exists (trimStart a), (trimEnd b).
  auto using brace_free_trimStart, brace_free_trimEnd.
Qed.

(** A prefix without an opening brace can only be taken from the text
    before the object. *)
Lemma strip_prefix_around p a body b rest :
  indexOf_char "{" p = None → p ≠ "" →
  strip_prefix p (around a body b) = Some rest →
  ∃ a', a = p +:+ a' ∧ rest = around a' body b.
Proof.
  revert a. induction p as [| x p IH]; intros a Hp Hne; [done |].
  cbn [indexOf_char] in Hp.
  destruct (Ascii.eqb_spec "{" x) as [| Hx]; [done |].
  destruct a as [| c a]; unfold around.
  - rewrite append_nil_l. cbn [strip_prefix].
    destruct (Ascii.eqb_spec x "{"); [congruence | done].
  - rewrite append_String. cbn [strip_prefix].
    destruct (Ascii.eqb_spec x c) as [-> | _]; [| done].
    destruct p as [| y p].
    + cbn [strip_prefix]. intros [= <-]. by exists a.
    + intros Hrest. destruct (IH a) as (a' & -> & ->); [| done | exact Hrest |].
      * by destruct (indexOf_char "{" (String y p)).
      * by exists a'.
Qed.

Lemma strip_opening_fence_framed body s :
  framed body s → framed body (strip_opening_fence s).
Proof.
  intros (a & b & -> & Ha & Hb). unfold strip_opening_fence.
  destruct (strip_prefix "```" (around a body b)) as [rest |] eqn:Hfence;
    [| by exists a, b].
  apply strip_prefix_around in Hfence as (a1 & -> & ->); [| done ..].
  rewrite brace_free_append in Ha. apply andb_true_iff in Ha as [_ Ha1].
  destruct (strip_prefix "json" (around a1 body b)) as [rest |] eqn:Hjson;
    cbn [default from_option id].
  - apply strip_prefix_around in Hjson as (a2 & -> & ->); [| done ..].
    rewrite brace_free_append in Ha1. apply andb_true_iff in Ha1 as [_ Ha2].
    rewrite trimStart_around. exists (trimStart a2), b.
    auto using brace_free_trimStart.
  - rewrite trimStart_around. exists (trimStart a1), b.
    auto using brace_free_trimStart.
Qed.

Lemma append_eq_append s1 s2 t1 t2 :
  s1 +:+ s2 = t1 +:+ t2 →
  (∃ k, s1 = t1 +:+ k ∧ t2 = k +:+ s2) ∨ (∃ k, t1 = s1 +:+ k ∧ s2 = k +:+ t2).
Proof.
  revert t1. induction s1 as [| c s1 IH]; intros t1 H.
  - right. by exists t1.
  - destruct t1 as [| d t1].
    + left. by exists (String c s1).
    + rewrite !append_String in H. injection H as -> H.
      destruct (IH t1 H) as [(k & -> & ->) | (k & -> & ->)]; [left | right]; by exists k.
Qed.

Lemma last_code_unit_around a body :
  last_code_unit (a +:+ String "{" (body +:+ "}")) = Some "}"%char.
Proof.
  change (a +:+ String "{" (body +:+ "}")) with (a +:+ (String "{" body +:+ "}")).
  by rewrite <- append_assoc, last_code_unit_append.
Qed.

Lemma around_split a body b : around a body b = (a +:+ String "{" (body +:+ "}")) +:+ b.
Proof.
  unfold around. rewrite append_assoc, append_String. do 2 f_equal.
  by rewrite append_assoc.
Qed.

(** A suffix made of back quotes can only be taken from the text after
    the object. *)
Lemma strip_suffix_around a body b rest :
  strip_suffix "```" (around a body b) = Some rest →
  ∃ b', b = b' +:+ "```" ∧ rest = around a body b'.
Proof.
  intros H%strip_suffix_Some. rewrite around_split in H. symmetry in H.
  apply append_eq_append in H as [(k & -> & ->) | (k & Hk & Hfence)].
  - exists k. by rewrite around_split.
  - destruct k as [| c1 k].
    + rewrite append_nil_r in Hk. rewrite append_nil_l in Hfence. subst.
      exists "". by rewrite around_split, append_nil_r.
    + exfalso. pose proof (last_code_unit_around a body) as Hlast.
      rewrite Hk, last_code_unit_append in Hlast by done.
      rewrite append_String in Hfence. injection Hfence as <- Hfence.
      destruct k as [| c2 k]; [discriminate Hlast |].
      rewrite append_String in Hfence. injection Hfence as <- Hfence.
      destruct k as [| c3 k]; [discriminate Hlast |].
      rewrite append_String in Hfence. injection Hfence as <- Hfence.
      destruct k; [discriminate Hlast | discriminate Hfence].
Qed.

Lemma strip_closing_fence_framed body s :
  framed body s → framed body (strip_closing_fence s).
Proof.
  intros (a & b & -> & Ha & Hb). unfold strip_closing_fence.
  destruct (strip_suffix "```" (around a body b)) as [rest |] eqn:Hfence;
    [| by exists a, b].
  apply strip_suffix_around in Hfence as (b' & -> & ->).
  rewrite brace_free_append in Hb. apply andb_true_iff in Hb as [Hb' _].
  rewrite trimEnd_around. exists a, (trimEnd b'). auto using brace_free_trimEnd.
Qed.

Lemma indexOf_char_around a body b :
  brace_free a = true → indexOf_char "{" (around a body b) = Some (String.length a).
Proof.
  induction a as [| c a IH]; [done |]. intros (Hc & _ & Ha)%brace_free_String.
  unfold around. rewrite append_String. cbn [indexOf_char String.length].
  destruct (Ascii.eqb_spec "{" c); [congruence |].
  unfold around in IH. by rewrite IH.
Qed.

Lemma lastIndexOf_char_brace_free b :
  brace_free b = true → lastIndexOf_char "}" b = None.
Proof.
  induction b as [| c b IH]; [done |]. intros (_ & Hc & Hb)%brace_free_String.
  cbn [lastIndexOf_char]. rewrite IH by done.
  destruct (Ascii.eqb_spec "}" c); [congruence | done].
Qed.

Lemma lastIndexOf_char_append s c t :
  lastIndexOf_char c t = None →
  lastIndexOf_char c (s +:+ String c t) = Some (String.length s).
Proof.
  intros Ht. induction s as [| d s IH].
  - rewrite append_nil_l. cbn [lastIndexOf_char]. by rewrite Ht, Ascii.eqb_refl.
  - rewrite append_String. cbn [lastIndexOf_char String.length]. by rewrite IH.
Qed.

Lemma lastIndexOf_char_around a body b :
  brace_free b = true →
  lastIndexOf_char "}" (around a body b)
  = Some (String.length a + S (String.length body))%nat.
Proof.
  intros Hb. unfold around.
  change (a +:+ String "{" (body +:+ String "}" b))
    with (a +:+ (String "{" body +:+ String "}" b)).
  rewrite <- append_assoc, lastIndexOf_char_append
    by (by apply lastIndexOf_char_brace_free).
  by rewrite length_append.
Qed.

(** X17. The reply may wrap its JSON object in prose and in a Markdown fence:
    when the text before the first brace of the object and the text after
    its last brace hold no brace, the text handed to [JSON.parse] is the
    object alone, from its opening to its closing brace, with nothing
    added or removed inside. *)
Theorem json_text_extracts_object (before body after : string) :
  brace_free before = true →
  brace_free after = true →
  json_text (around before body after) = around "" body "".
Proof.
  intros Hbefore Hafter. unfold json_text.
  assert (framed body (around before body after)) as Hframed by (by exists before, after).
  apply trim_framed in Hframed.
  set (clean := if startsWith "```" (trim (around before body after))
                then strip_closing_fence
                       (strip_opening_fence (trim (around before body after)))
                else trim (around before body after)).
  assert (framed body clean) as (a & b & -> & Ha & Hb).
  { subst clean. destruct (startsWith _ _); [| done].
    by apply strip_closing_fence_framed, strip_opening_fence_framed. }
  rewrite indexOf_char_around, lastIndexOf_char_around by done.
  unfold js_substring.
  rewrite Nat.min_l, Nat.max_r by lia.
  replace (String.length a + S (String.length body) + 1 - String.length a)%nat
    with (String.length (String "{" (body +:+ "}")))
    by (cbn [String.length]; rewrite length_append; cbn [String.length]; lia).
  rewrite around_split, append_assoc.
  rewrite <- (Nat.add_0_r (String.length a)) at 1.
  rewrite substring_skip_append, substring_0_append.
  unfold around. by rewrite !append_nil_l.
Qed.

Lemma json_text_extracts_object_witness :
  json_text (around (String.concat Analyzer.LF ["Sure, here it is:"; "```json"; ""])
                    " grade: B "
                    (String.concat Analyzer.LF [""; "```"; "Anything else?"]))
  = "{ grade: B }".
Proof.
  apply (json_text_extracts_object
           (String.concat Analyzer.LF ["Sure, here it is:"; "```json"; ""])
           " grade: B "
           (String.concat Analyzer.LF [""; "```"; "Anything else?"]));
    reflexivity.
Defined.

End ExtractorFacts.

(** * The background script: the analysis cache and the message router *)

Module Background.

(** A tab id: the integer Chrome gives a tab, or [undefined] when the
    sender of a message is not a tab ([sender.tab?.id]) or the message
    names none. *)
Abbreviation TabId := (option Z).

(** ToBoolean of a tab id. *)
Definition tab_truthy (tabId : TabId) : bool :=
  match tabId with
  | Some n => negb (n =? 0)
  | None => false
  end.

(** [a || b] on tab ids. *)
Definition tab_or (a b : TabId) : TabId := if tab_truthy a then a else b.

(** [analysisCache], a [Map] from tab ids to entries. *)
Abbreviation Cache := (gmap TabId value).

(** [analysisCache.get(tabId)]. *)
Definition cache_get (cache : Cache) (tabId : TabId) : value :=
  default VUndefined (cache !! tabId).

(** Defining the property [k] in an object literal under construction: a
    property already there keeps its place and takes the new value. *)
Fixpoint assign (props : list (string * value)) (k : string) (v : value)
  : list (string * value) :=
  match props with
  | [] => [(k, v)]
  | (k', v') :: rest =>
      if String.eqb k k' then (k, v) :: rest else (k', v') :: assign rest k v
  end.

(** The object literal [{...base, k1: v1, ..., kn: vn}]. *)
Definition spread_with (base : value) (updates : list (string * value)) : value :=
  VObj (foldl (λ props update, assign props update.1 update.2)
              (Merger.Object_entries base) updates).

(** [error.message]: the string that an [Error] carries; the engine words
    the message of the errors it throws itself. *)
Definition message_of (native_message : exn → value) (e : exn) : value :=
  match e with
  | Error (VStr s) => VStr s
  | _ => native_message e
  end.

Section Host.

(** The message of an error the engine made. *)
Variable native_message : exn → value.

(** What the three [chrome.action] calls of [updateBadge(tabId, grade)]
    settle to. *)
Variable updateBadge : TabId → value → result unit.

(** What the calls of [showIndicator(tabId, text, color)] settle to. *)
Variable showIndicator : TabId → string → string → result unit.

(** [handleLegalLinksFound(tabId, data)], with the value of [Date.now()].
    The indicator is not awaited: its outcome is lost. *)
Definition handleLegalLinksFound (cache : Cache) (tabId : TabId) (data now : value)
  : result Cache :=
  if negb (tab_truthy tabId) then mret cache
  else
    domain ← get data "domain";
    links ← get data "links";
    mret (<[tabId := VObj [("status", VStr "detected");
                           ("domain", domain);
                           ("links", links);
                           ("analysis", VNull);
                           ("timestamp", now)]]> cache).

(** [handleAnalyzePolicy(data, tabId)] up to its [await]: the entry of
    the tab is marked as analyzing. *)
Definition begin_analysis (cache : Cache) (data : value) (tabId : TabId) : result Cache :=
  policyText ← get data "policyText";
  policyType ← get data "policyType";
  url ← get data "url";
  domain ← get data "domain";
  let existing := or_else (cache_get cache tabId) (VObj []) in
  mret (<[tabId := spread_with existing
                     [("status", VStr "analyzing");
                      ("policyType", policyType);
                      ("url", url);
                      ("domain", domain)]]> cache).

(** The [catch] block: the error is stored, the indicator is awaited and
    the error is thrown again. *)
Definition analysis_failed (cache : Cache) (tabId : TabId) (error : exn)
  : Cache * result value :=
  (<[tabId := spread_with (cache_get cache tabId)
                [("status", VStr "error");
                 ("error", message_of native_message error)]]> cache,
   _ ← showIndicator tabId "!" "#ef4444"; Throw error).

(** [handleAnalyzePolicy] from the moment [analyzePolicyWithLLM] has
    settled to [outcome], on the cache as it is then: the cache it
    leaves and what it settles to, when no other message is handled
    while the badge or the indicator is awaited. *)
Definition settle_analysis (cache : Cache) (tabId : TabId) (outcome : result value)
    (now : value) : Cache * result value :=
  match outcome with
  | Throw error => analysis_failed cache tabId error
  | Ok analysis =>
      let stored :=
        <[tabId := spread_with (cache_get cache tabId)
                     [("status", VStr "complete");
                      ("analysis", analysis);
                      ("timestamp", now)]]> cache in
      match (grade ← get analysis "grade"; updateBadge tabId grade) with
      | Throw error => analysis_failed stored tabId error
      | Ok _ => (stored, Ok (VObj [("success", VBool true); ("analysis", analysis)]))
      end
  end.

(** [handleAnalyzePolicy(data, tabId)] when no other message is handled
    while the analysis runs. *)
Definition handleAnalyzePolicy (cache : Cache) (data : value) (tabId : TabId)
    (outcome : result value) (now : value) : Cache * result value :=
  match begin_analysis cache data tabId with
  | Throw error => (cache, Throw error)
  | Ok started => settle_analysis started tabId outcome now
  end.

(** What the router sends back for ANALYZE_POLICY:
    [.then(sendResponse).catch(err => sendResponse({ error: err.message }))]. *)
Definition analysis_response (settled : result value) : value :=
  match settled with
  | Ok response => response
  | Throw err => VObj [("error", message_of native_message err)]
  end.

(** The response to GET_ANALYSIS:
    [analysisCache.get(message.tabId || tabId) || null]. *)
Definition get_analysis (cache : Cache) (message_tabId tabId : TabId) : value :=
  or_else (cache_get cache (tab_or message_tabId tabId)) VNull.

(** CLEAR_CACHE, and the listener of [chrome.tabs.onRemoved]:
    [analysisCache.delete(tabId)]. *)
Definition clear_cache (cache : Cache) (tabId : TabId) : Cache := delete tabId cache.

(** The listener of [chrome.runtime.onMessage] on a message of the given
    type: the cache it leaves and the response it sends at once, if any.
    For ANALYZE_POLICY the response comes later, from [settle_analysis]. *)
Definition onMessage (cache : Cache) (type : string) (data : value)
    (message_tabId tabId : TabId) (now : value) : result (Cache * option value) :=
  if String.eqb type "LEGAL_LINKS_FOUND" then
    cache ← handleLegalLinksFound cache tabId data now; mret (cache, None)
  else if String.eqb type "ANALYZE_POLICY" then
    mret (match begin_analysis cache data tabId with
          | Ok started => started
          | Throw _ => cache
          end, None)
  else if String.eqb type "GET_ANALYSIS" then
    mret (cache, Some (get_analysis cache message_tabId tabId))
  else if String.eqb type "CLEAR_CACHE" then
    mret (clear_cache cache tabId, Some (VObj [("success", VBool true)]))
  else mret (cache, None).

End Host.

(** ** Vocabulary of the properties *)

(** An entry of the cache, as the handlers make them. *)
Definition entry (v : value) : Prop := is_object v = true.

(** Every value the cache holds is an entry. *)
Definition entries_only (cache : Cache) : Prop := map_Forall (λ _ v, entry v) cache.

(** A host whose badge and indicator calls succeed, and which words
    every error of its own the same way. *)
Definition badge_ok : TabId → value → result unit := λ _ _, Ok ().
Definition indicator_ok : TabId → string → string → result unit := λ _ _ _, Ok ().
Definition plain_message : exn → value := λ _, VStr "error".

(** The cache after the content script of tab 7 has reported its links,
    and after an analysis of that tab has completed. *)
Definition detected_cache : Cache :=
  {[ Some 7 := VObj [("status", VStr "detected");
                     ("domain", VStr "example.com");
                     ("links", VArr [VStr "https://example.com/privacy"]);
                     ("analysis", VNull);
                     ("timestamp", VNum 1)] ]}.
Definition analyzed_cache : Cache :=
  {[ Some 7 := VObj [("status", VStr "complete");
                     ("analysis", Merger.result_A);
                     ("timestamp", VNum 2)] ]}.

End Background.

Module BackgroundFacts.
Import Background.

Lemma lookup_prop_assign k props k' v :
  lookup_prop k (assign props k' v)
  = if String.eqb k k' then Some v else lookup_prop k props.
Proof.
  induction props as [| [k0 v0] props IH]; cbn [assign lookup_prop]; [done |].
  destruct (String.eqb_spec k' k0) as [-> | Hne]; cbn [lookup_prop].
  - by destruct (String.eqb k k0).
  - rewrite IH. destruct (String.eqb_spec k k0) as [-> | _]; [| done].
    by destruct (String.eqb_spec k0 k').
Qed.

Lemma lookup_prop_app k (l1 l2 : list (string * value)) :
  lookup_prop k (l1 ++ l2)
  = match lookup_prop k l1 with Some v => Some v | None => lookup_prop k l2 end.
Proof.
  induction l1 as [| [k0 v0] l1 IH]; cbn [app lookup_prop]; [done |].
  by destruct (String.eqb k k0).
Qed.

(** Reading a property of [{...base, updates}]: the last update of the
    key, else the property of the base. *)
Lemma lookup_prop_updates k props updates :
  lookup_prop k (foldl (λ props update, assign props update.1 update.2) props updates)
  = match lookup_prop k (reverse updates) with
    | Some v => Some v
    | None => lookup_prop k props
    end.
Proof.
  revert props. induction updates as [| [k' v] updates IH]; intros props; [done |].
  cbn [foldl fst snd]. rewrite IH, reverse_cons, lookup_prop_app, lookup_prop_assign.
  destruct (lookup_prop k (reverse updates)); [done |]. cbn [lookup_prop].
  by destruct (String.eqb k k').
Qed.

Lemma prop_spread_with base updates k :
  is_object base = true ∨ base = VUndefined →
  prop (spread_with base updates) k
  = default (prop base k) (lookup_prop k (reverse updates)).
Proof.
  intros Hbase. unfold spread_with. cbn [prop]. rewrite lookup_prop_updates.
  destruct (lookup_prop k (reverse updates)); [done |].
  destruct Hbase as [Hobj | ->]; [| done]. by destruct base.
Qed.

(** Reads a property of an entry made by one or two spreads. *)
Ltac read_entry :=
  repeat (rewrite prop_spread_with by (first [done | by left]);
          cbn [reverse rev_append lookup_prop String.eqb Ascii.eqb Bool.eqb
               default from_option id]).

Lemma cache_get_entry cache tabId :
  entries_only cache →
  is_object (cache_get cache tabId) = true ∨ cache_get cache tabId = VUndefined.
Proof.
  intros Hcache. unfold cache_get. destruct (cache !! tabId) as [v |] eqn:Hv; [| by right].
  left. exact (Hcache _ _ Hv).
Qed.

Lemma cache_get_insert cache tabId v : cache_get (<[tabId := v]> cache) tabId = v.
Proof. unfold cache_get. by rewrite lookup_insert_eq. Qed.

Lemma cache_get_insert_ne cache tabId tabId' v :
  tabId ≠ tabId' → cache_get (<[tabId := v]> cache) tabId' = cache_get cache tabId'.
Proof. intros H. unfold cache_get. by rewrite lookup_insert_ne. Qed.

Section Host.

Variable native_message : exn → value.
Variable updateBadge : TabId → value → result unit.
Variable showIndicator : TabId → string → string → result unit.

Local Abbreviation settle_analysis :=
  (settle_analysis native_message updateBadge showIndicator).
Local Abbreviation analysis_failed := (analysis_failed native_message showIndicator).
Local Abbreviation handleAnalyzePolicy :=
  (handleAnalyzePolicy native_message updateBadge showIndicator).
Local Abbreviation analysis_response := (analysis_response native_message).
Local Abbreviation message_of := (message_of native_message).

(** The handlers only store objects. *)
Lemma handlers_keep_entries cache tabId data outcome now :
  entries_only cache →
  (∀ cache', handleLegalLinksFound cache tabId data now = Ok cache' → entries_only cache')
  ∧ (∀ cache', begin_analysis cache data tabId = Ok cache' → entries_only cache')
  ∧ entries_only (settle_analysis cache tabId outcome now).1
  ∧ entries_only (clear_cache cache tabId).
Proof.
  intros Hcache.
  assert (∀ c t v, entries_only c → is_object v = true → entries_only (<[t := v]> c))
    as Hinsert by (intros c t v Hc Hv; by apply map_Forall_insert_2).
  repeat split.
  - intros cache'. unfold handleLegalLinksFound.
    destruct (tab_truthy tabId); cbn [negb]; [| by intros [= <-]].
    destruct (get data "domain"); monad_simpl; [| done].
    destruct (get data "links"); monad_simpl; [| done].
    intros [= <-]. by apply Hinsert.
  - intros cache'. unfold begin_analysis.
    destruct (get data "policyText"); monad_simpl; [| done].
    destruct (get data "policyType"); monad_simpl; [| done].
    destruct (get data "url"); monad_simpl; [| done].
    destruct (get data "domain"); monad_simpl; [| done].
    intros [= <-]. by apply Hinsert.
  - unfold Background.settle_analysis, Background.analysis_failed.
    destruct outcome as [analysis | error]; [| by apply Hinsert].
    destruct (_ ≫= _); cbn [fst]; by repeat apply Hinsert.
  - by apply map_Forall_delete.
Qed.

(** X18. When the analysis and the badge update succeed, the entry of the tab
    is complete: it holds the analysis and the time, and every other
    field it had before (the links and the domain of the detection, the
    policy type and the URL of the request) is still there.  The entries
    of the other tabs are untouched, and the response carries the
    analysis. *)
Theorem completed_analysis_is_cached (cache : Cache) (tabId : TabId)
    (analysis now : value) :
  entries_only cache →
  (grade ← get analysis "grade"; updateBadge tabId grade) = Ok () →
  let settled := settle_analysis cache tabId (Ok analysis) now in
  let entry := cache_get settled.1 tabId in
  analysis_response settled.2 = VObj [("success", VBool true); ("analysis", analysis)]
  ∧ prop entry "status" = VStr "complete"
  ∧ prop entry "analysis" = analysis
  ∧ prop entry "timestamp" = now
  ∧ (∀ k, k ∉ ["status"; "analysis"; "timestamp"] →
       prop entry k = prop (cache_get cache tabId) k)
  ∧ (∀ other, other ≠ tabId → settled.1 !! other = cache !! other)
  ∧ get_analysis settled.1 None tabId = entry.
Proof.
  intros Hcache Hbadge. unfold Background.settle_analysis. rewrite Hbadge.
  cbn [fst snd Background.analysis_response]. rewrite cache_get_insert.
  pose proof (cache_get_entry cache tabId Hcache) as Hentry.
  repeat split; try (by read_entry).
  - intros k Hk. rewrite prop_spread_with by done. cbn.
    destruct (String.eqb_spec k "timestamp") as [-> | _]; [by destruct Hk; repeat constructor |].
    destruct (String.eqb_spec k "analysis") as [-> | _]; [by destruct Hk; repeat constructor |].
    destruct (String.eqb_spec k "status") as [-> | _]; [by destruct Hk; repeat constructor | done].
  - intros other Hother. by rewrite lookup_insert_ne.
  - unfold get_analysis, tab_or. cbn [tab_truthy]. by rewrite cache_get_insert.
Qed.

(** X19. When the analysis fails, the entry of the tab is marked as an error
    with the message of the failure, and nothing else of it changes: an
    analysis stored by an earlier success stays in the entry, with its
    time.  When the analysis succeeds but the badge update fails, the
    entry holds the new analysis and is marked as an error all the same,
    and the sender gets the error instead of the analysis. *)
Theorem failed_analysis_keeps_entry (cache : Cache) (tabId : TabId)
    (outcome : result value) (now : value) (error : exn) :
  entries_only cache →
  (analysis ← outcome; grade ← get analysis "grade"; updateBadge tabId grade)
  = Throw error →
  showIndicator tabId "!" "#ef4444" = Ok () →
  let settled := settle_analysis cache tabId outcome now in
  let entry := cache_get settled.1 tabId in
  settled.2 = Throw error
  ∧ analysis_response settled.2 = VObj [("error", message_of error)]
  ∧ prop entry "status" = VStr "error"
  ∧ prop entry "error" = message_of error
  ∧ match outcome with
    | Throw _ =>
        ∀ k, k ∉ ["status"; "error"] → prop entry k = prop (cache_get cache tabId) k
    | Ok analysis => prop entry "analysis" = analysis ∧ prop entry "timestamp" = now
    end.
Proof.
  intros Hcache Hfail Hindicator. unfold Background.settle_analysis.
  pose proof (cache_get_entry cache tabId Hcache) as Hentry.
  destruct outcome as [analysis | e]; monad_simpl_in Hfail.
  - monad_simpl_in Hfail. rewrite Hfail. unfold Background.analysis_failed.
    cbn [fst snd]. rewrite Hindicator. monad_simpl.
    rewrite !cache_get_insert. cbn [Background.analysis_response].
    repeat split; by read_entry.
  - injection Hfail as ->. unfold Background.analysis_failed.
    cbn [fst snd]. rewrite Hindicator. monad_simpl.
    rewrite !cache_get_insert. cbn [Background.analysis_response].
    repeat split; try (by read_entry).
    intros k Hk. rewrite prop_spread_with by done. cbn.
    destruct (String.eqb_spec k "error") as [-> | _]; [by destruct Hk; repeat constructor |].
    destruct (String.eqb_spec k "status") as [-> | _]; [by destruct Hk; repeat constructor | done].
Qed.

(** X20. A sender that is no tab has no tab id.  Its LEGAL_LINKS_FOUND is
    ignored, as is the one of the tab 0.  Its ANALYZE_POLICY is filed
    under [undefined]: whatever the analysis gives, GET_ANALYSIS answers
    every request that names a tab as it did before, and only a request
    without any tab id gets the entry. *)
Theorem analysis_without_tab (cache : Cache) (data : value) (outcome : result value)
    (now : value) (message_tabId sender : TabId) :
  tab_truthy message_tabId = true →
  let after := (handleAnalyzePolicy cache data None outcome now).1 in
  handleLegalLinksFound cache None data now = Ok cache
  ∧ handleLegalLinksFound cache (Some 0) data now = Ok cache
  ∧ get_analysis after message_tabId sender = get_analysis cache message_tabId sender
  ∧ (∀ tabId, tab_truthy tabId = true →
       get_analysis after None tabId = get_analysis cache None tabId)
  ∧ (nullish data = false → get_analysis after None None = cache_get after None
                            ∧ is_object (cache_get after None) = true).
Proof.
  intros Htab after.
  assert (∀ tabId, tab_truthy tabId = true → cache_get after tabId = cache_get cache tabId)
    as Hframe.
  { intros tabId HtabId. assert (None ≠ tabId) as Hne by (intros <-; discriminate HtabId).
    subst after. unfold Background.handleAnalyzePolicy.
    destruct (begin_analysis cache data None) as [started |] eqn:Hbegin; [| done].
    assert (cache_get started tabId = cache_get cache tabId) as <-.
    { unfold begin_analysis in Hbegin.
      destruct (get data "policyText"); monad_simpl_in Hbegin; [| done].
      destruct (get data "policyType"); monad_simpl_in Hbegin; [| done].
      destruct (get data "url"); monad_simpl_in Hbegin; [| done].
      destruct (get data "domain"); monad_simpl_in Hbegin; [| done].
      injection Hbegin as <-. by rewrite cache_get_insert_ne. }
    unfold Background.settle_analysis, Background.analysis_failed.
    destruct outcome as [analysis | e]; cbn [fst].
    - destruct (_ ≫= _); cbn [fst]; by rewrite !cache_get_insert_ne.
    - by rewrite cache_get_insert_ne. }
  split; [done |]. split; [done |]. split; [| split].
  - unfold get_analysis, tab_or. rewrite Htab. by rewrite Hframe.
  - intros tabId HtabId. unfold get_analysis, tab_or. cbn [tab_truthy].
    by rewrite Hframe.
  - intros Hdata.
    assert (is_object (cache_get after None) = true) as Hentry.
    { subst after. unfold Background.handleAnalyzePolicy, begin_analysis, get.
      rewrite Hdata. monad_simpl.
      unfold Background.settle_analysis, Background.analysis_failed.
      destruct outcome as [analysis | e]; cbn [fst].
      - destruct (_ ≫= _); cbn [fst]; by rewrite !cache_get_insert.
      - by rewrite cache_get_insert. }
    split; [| exact Hentry].
    unfold get_analysis, tab_or. cbn [tab_truthy]. unfold or_else.
    by destruct (cache_get after None).
Qed.

(** X21. CLEAR_CACHE and the closing of a tab drop the entry of the tab and no
    other: GET_ANALYSIS then answers [null] for it.  An analysis that
    settles afterwards files a new entry for the tab, which holds the
    analysis but none of the fields of the request. *)
Theorem cleared_tab_is_forgotten (cache : Cache) (tabId : TabId)
    (analysis now : value) :
  (grade ← get analysis "grade"; updateBadge tabId grade) = Ok () →
  let cleared := clear_cache cache tabId in
  get_analysis cleared None tabId = VNull
  ∧ (tab_truthy tabId = true → ∀ sender, get_analysis cleared tabId sender = VNull)
  ∧ (∀ other, other ≠ tabId → cleared !! other = cache !! other)
  ∧ onMessage cache "CLEAR_CACHE" VUndefined None tabId now
    = Ok (cleared, Some (VObj [("success", VBool true)]))
  ∧ cache_get (settle_analysis cleared tabId (Ok analysis) now).1 tabId
    = VObj [("status", VStr "complete"); ("analysis", analysis); ("timestamp", now)].
Proof.
  intros Hbadge cleared.
  assert (cache_get cleared tabId = VUndefined) as Hgone.
  { unfold cache_get, cleared, clear_cache. by rewrite lookup_delete_eq. }
  repeat split.
  - unfold get_analysis, tab_or. cbn [tab_truthy]. by rewrite Hgone.
  - intros Htab sender. unfold get_analysis, tab_or. by rewrite Htab, Hgone.
  - intros other Hother. unfold cleared, clear_cache. by rewrite lookup_delete_ne.
  - unfold Background.settle_analysis. rewrite Hbadge. cbn [fst].
    by rewrite cache_get_insert, Hgone.
Qed.

End Host.

Lemma completed_analysis_is_cached_witness :
  entries_only detected_cache
  ∧ prop (cache_get (settle_analysis plain_message badge_ok indicator_ok
                       detected_cache (Some 7) (Ok Merger.result_A) (VNum 2)).1 (Some 7))
         "links"
    = VArr [VStr "https://example.com/privacy"].
Proof.
  assert (entries_only detected_cache) as Hcache by (by apply map_Forall_singleton).
  split; [exact Hcache |].
  destruct (completed_analysis_is_cached plain_message badge_ok indicator_ok
              detected_cache (Some 7) Merger.result_A (VNum 2) Hcache eq_refl)
    as (_ & _ & _ & _ & Hkept & _).
  rewrite Hkept; [reflexivity |].
  intros Hin. repeat (apply elem_of_cons in Hin as [Hin | Hin]; [discriminate Hin |]).
  by apply elem_of_nil in Hin.
Defined.

Lemma failed_analysis_keeps_entry_witness :
  entries_only analyzed_cache
  ∧ prop (cache_get (settle_analysis plain_message badge_ok indicator_ok analyzed_cache
                       (Some 7) (Throw (Error (VStr "Rate limit exceeded"))) (VNum 3)).1
                    (Some 7))
         "analysis"
    = Merger.result_A.
Proof.
  assert (entries_only analyzed_cache) as Hcache by (by apply map_Forall_singleton).
  split; [exact Hcache |].
  destruct (failed_analysis_keeps_entry plain_message badge_ok indicator_ok
              analyzed_cache (Some 7) (Throw (Error (VStr "Rate limit exceeded"))) (VNum 3)
              (Error (VStr "Rate limit exceeded")) Hcache eq_refl eq_refl)
    as (_ & _ & _ & _ & Hkept).
  rewrite Hkept; [reflexivity |].
  intros Hin. repeat (apply elem_of_cons in Hin as [Hin | Hin]; [discriminate Hin |]).
  by apply elem_of_nil in Hin.
Defined.

Lemma analysis_without_tab_witness :
  tab_truthy (Some 7) = true
  ∧ get_analysis (handleAnalyzePolicy plain_message badge_ok indicator_ok detected_cache
                    (VObj [("policyText", VStr "We sell your data.")]) None
                    (Ok Merger.result_A) (VNum 2)).1
                 (Some 7) None
    = get_analysis detected_cache (Some 7) None.
Proof.
  split; [reflexivity |].
  destruct (analysis_without_tab plain_message badge_ok indicator_ok detected_cache
              (VObj [("policyText", VStr "We sell your data.")]) (Ok Merger.result_A)
              (VNum 2) (Some 7) None eq_refl) as (_ & _ & Hsame & _).
  exact Hsame.
Defined.

Lemma cleared_tab_is_forgotten_witness :
  get_analysis (clear_cache detected_cache (Some 7)) None (Some 7) = VNull.
Proof.
  destruct (cleared_tab_is_forgotten plain_message badge_ok indicator_ok detected_cache
              (Some 7) Merger.result_A (VNum 2) eq_refl) as (Hnull & _).
  exact Hnull.
Defined.

End BackgroundFacts.

(** * The browser layer: [detectBrowser], the API object and the domain *)

Module Browser.
Import Normalizer.

(** [hay.includes(needle)]. *)
Fixpoint contains (needle hay : string) : bool :=
  match strip_prefix needle hay with
  | Some _ => true
  | None =>
      match hay with
      | EmptyString => false
      | String _ rest => contains needle rest
      end
  end.

(** [s.replace(pattern, '')] for a string pattern: the first occurrence
    of the pattern is removed, wherever it is. *)
Fixpoint remove_first (pattern s : string) : string :=
  match strip_prefix pattern s with
  | Some rest => rest
  | None =>
      match s with
      | EmptyString => EmptyString
      | String c rest => String c (remove_first pattern rest)
      end
  end.

(** [getCurrentDomain()] of the content script, from
    [window.location.hostname]; the popup computes the domain of the
    active tab with the same expression. *)
Definition getCurrentDomain (hostname : string) : string :=
  remove_first "www." hostname.

(** [typeof g !== 'undefined'] for a global [g]; a global that is not
    declared counts as [undefined]. *)
Definition defined (g : value) : bool :=
  match g with
  | VUndefined => false
  | _ => true
  end.

(** [detectBrowser()], from the globals [chrome] and [browser] and from
    [navigator.userAgent]. *)
Definition detectBrowser (chrome browser : value) (userAgent : string) : result string :=
  in_chrome ← (if defined chrome
               then runtime ← get chrome "runtime"; mret (truthy (get_opt runtime "id"))
               else mret false);
  if in_chrome : bool then
    if defined browser then mret "firefox"
    else if contains "Safari" userAgent && negb (contains "Chrome" userAgent)
         then mret "safari"
         else mret "chrome"
  else
    in_browser ← (if defined browser
                  then runtime ← get browser "runtime"; mret (truthy (get_opt runtime "id"))
                  else mret false);
    if in_browser : bool then mret "firefox" else mret "unknown".

(** The constant [api]: [browser] when it has a runtime, else [chrome]
    when it has one, else [null]. *)
Definition api (chrome browser : value) : result value :=
  use_browser ← (if defined browser
                 then runtime ← get browser "runtime"; mret (truthy runtime)
                 else mret false);
  if use_browser : bool then mret browser
  else
    use_chrome ← (if defined chrome
                  then runtime ← get chrome "runtime"; mret (truthy runtime)
                  else mret false);
    if use_chrome : bool then mret chrome else mret VNull.

End Browser.

Module BrowserFacts.
Import Normalizer Browser Settings StringFacts.

Lemma strip_prefix_append p s : strip_prefix p (p +:+ s) = Some s.
Proof.
  induction p as [| c p IH]; [by destruct s |]. rewrite append_String.
  cbn [strip_prefix]. by rewrite Ascii.eqb_refl.
Qed.

(** X22. The domain is the host name without its first [www.], which need not
    be at the start: a leading [www.] is dropped, once, and so is one
    that comes after other characters. *)
Theorem domain_drops_first_www (before rest : string) :
  contains "www." before = false →
  getCurrentDomain ("www." +:+ rest) = rest
  ∧ getCurrentDomain ("www.www." +:+ rest) = "www." +:+ rest
  ∧ getCurrentDomain (before +:+ "www." +:+ rest) = before +:+ rest
  ∧ getCurrentDomain before = before.
Proof.
  intros Hbefore. unfold getCurrentDomain.
  split; [by destruct rest |]. split; [by destruct rest |]. split.
  - set (tail := "www." +:+ rest).
    induction before as [| c before IH]; [by destruct rest |].
    rewrite !append_String. cbn [remove_first].
    cbn [contains] in Hbefore.
    destruct (strip_prefix "www." (String c before)) eqn:Hq; [done |].
    destruct (strip_prefix "www." (String c (before +:+ tail)))
      as [r |] eqn:Hr; [| f_equal; by apply IH].
    exfalso. clear IH Hbefore. revert Hr Hq. subst tail. cbn [strip_prefix].
    destruct (Ascii.eqb "w" c); [| done].
    destruct before as [| c1 before]; [done |]. rewrite !append_String.
    cbn [strip_prefix]. destruct (Ascii.eqb "w" c1); [| done].
    destruct before as [| c2 before]; [done |]. rewrite !append_String.
    cbn [strip_prefix]. destruct (Ascii.eqb "w" c2); [| done].
    destruct before as [| c3 before]; [done |]. rewrite !append_String.
    cbn [strip_prefix]. destruct (Ascii.eqb "." c3); [| done]. done.
  - induction before as [| c before IH]; [done |].
    cbn [contains] in Hbefore. cbn [remove_first].
    destruct (strip_prefix "www." (String c before)); [done |].
    f_equal. by apply IH.
Qed.

Lemma domain_drops_first_www_witness :
  getCurrentDomain "docs.www.example.com" = "docs.example.com".
Proof.
  apply (domain_drops_first_www "docs." "example.com"); reflexivity.
Defined.

(** X23. When neither global has a runtime, there is no API object, the
    browser is reported as unknown, and the storage reads as empty: the
    settings are then the empty object, which [validateSettings]
    refuses.  A Chrome user agent names both Safari and Chrome: with a
    runtime id and no [browser] global the browser is never reported as
    Safari for it. *)
Theorem no_api_unknown_browser (chrome browser : value) (userAgent : string)
    (local_get : result value) :
  api chrome browser = Ok VNull →
  detectBrowser chrome browser userAgent = Ok "unknown"
  ∧ storage_get VNull local_get = Ok (VObj [])
  ∧ (settings ← (stored ← storage_get VNull local_get; getSettings stored);
     validateSettings settings)
    = Throw (Error (VStr CONFIGURATION_MESSAGE))
  ∧ (contains "Chrome" userAgent = true →
     ∀ chrome', detectBrowser chrome' VUndefined userAgent ≠ Ok "safari").
Proof.
  intros Hapi. split; [| split; [done | split; [done |]]].
  - unfold api in Hapi. unfold detectBrowser.
    destruct (defined browser) eqn:Hb.
    + destruct (get browser "runtime") as [rb | e] eqn:Hrb; monad_simpl_in Hapi; [| done].
      destruct (truthy rb) eqn:Htb; [injection Hapi as ->; discriminate Hrb |].
      assert (truthy (get_opt rb "id") = false) as Hidb by (by destruct rb).
      destruct (defined chrome) eqn:Hc.
      * destruct (get chrome "runtime") as [rc | e] eqn:Hrc; monad_simpl_in Hapi; [| done].
        destruct (truthy rc) eqn:Htc; [injection Hapi as ->; discriminate Hrc |].
        assert (truthy (get_opt rc "id") = false) as Hidc by (by destruct rc).
        monad_simpl. by rewrite Hidc, Hidb.
      * monad_simpl. by rewrite Hidb.
    + monad_simpl_in Hapi. destruct (defined chrome) eqn:Hc.
      * destruct (get chrome "runtime") as [rc | e] eqn:Hrc; monad_simpl_in Hapi; [| done].
        destruct (truthy rc) eqn:Htc; [injection Hapi as ->; discriminate Hrc |].
        assert (truthy (get_opt rc "id") = false) as Hidc by (by destruct rc).
        monad_simpl. by rewrite Hidc.
      * by monad_simpl.
  - intros Hchrome chrome'. unfold detectBrowser. cbn [defined]. rewrite Hchrome.
    rewrite andb_false_r.
    destruct (defined chrome'); monad_simpl; [| done].
    destruct (get chrome' "runtime") as [r | e]; monad_simpl; [| done].
    by destruct (truthy (get_opt r "id")).
Qed.

Lemma no_api_unknown_browser_witness :
  api (VObj []) VUndefined = Ok VNull
  ∧ detectBrowser (VObj []) VUndefined "Mozilla/5.0" = Ok "unknown".
Proof.
  split; [reflexivity |].
  apply (no_api_unknown_browser (VObj []) VUndefined "Mozilla/5.0" (Ok VNull)).
  reflexivity.
Defined.

End BrowserFacts.

(** * The popup: [getPageContent] *)

Module Popup.

(** The two messages of [getPageContent]. *)
Definition NO_POLICY_TEXT : string :=
  "Could not extract policy text. Make sure you're on a Terms of Service or Privacy Policy page.".
Definition REFRESH_FIRST : string :=
  "Please refresh this page first, then try scanning again.".

Section Host.

(** The host's relational comparison [v < 100] for a string, array or
    object [v]: the outcome of ToPrimitive and ToNumber followed by the
    comparison, or the TypeError the conversion throws. *)
Variable less_than_100 : value → result bool.

(** [text.length < 100] for a truthy [text].  A string or an array has
    its number of code units or elements as [length]; an object has the
    value of its own [length] property, if any; a number or [true] has
    none, and [undefined < 100] is false. *)
Definition length_below_100 (text : value) : result bool :=
  match text with
  | VStr s => Ok (Z.of_nat (String.length s) <? 100)
  | VArr elems => Ok (Z.of_nat (length elems) <? 100)
  | VObj props =>
      match lookup_prop "length" props with
      | Some (VNum n) => Ok (PrimFloat.ltb n 100)
      | Some VNull | Some (VBool _) => Ok true
      | Some (VStr _ as v) | Some (VArr _ as v) | Some (VObj _ as v) => less_than_100 v
      | Some VUndefined | None => Ok false
      end
  | VUndefined | VNull | VBool _ | VNum _ => Ok false
  end.

(** The [try] block of [getPageContent], from what
    [chrome.tabs.sendMessage(currentTabId, { type: 'EXTRACT_POLICY' })]
    settles to. *)
Definition page_content (sent : result value) : result value :=
  response ← sent;
  let text := get_opt response "text" in
  short ← (if negb (truthy text) then mret true else length_below_100 text);
  if short : bool then Throw (Error (VStr NO_POLICY_TEXT)) else mret response.

(** [getPageContent()]: whatever the [try] block throws, the [catch]
    block throws its own error. *)
Definition getPageContent (sent : result value) : result value :=
  match page_content sent with
  | Ok response => Ok response
  | Throw _ => Throw (Error (VStr REFRESH_FIRST))
  end.

End Host.

End Popup.

Module PopupFacts.
Import Popup.

(** X24. [getPageContent] has one way to fail: a message that cannot be
    delivered, a response without text and a text of fewer than 100 code
    units all end in the error that asks to refresh the page.  The error
    made for a missing or short text is caught by the function's own
    [catch] block and never reaches the caller.  A response passes, as it
    is, exactly when the [try] block returns it; a string text passes
    when it has at least 100 code units. *)
Theorem getPageContent_one_error (less_than_100 : value → result bool)
    (sent : result value) :
  (∀ e, getPageContent less_than_100 sent = Throw e → e = Error (VStr REFRESH_FIRST))
  ∧ getPageContent less_than_100 sent ≠ Throw (Error (VStr NO_POLICY_TEXT))
  ∧ (∀ response, getPageContent less_than_100 sent = Ok response →
       sent = Ok response ∧ truthy (get_opt response "text") = true)
  ∧ (∀ response s,
       sent = Ok response → get_opt response "text" = VStr s →
       getPageContent less_than_100 sent
       = if Z.of_nat (String.length s) <? 100
         then Throw (Error (VStr REFRESH_FIRST)) else Ok response).
Proof.
  unfold getPageContent. split; [| split; [| split]].
  - intros e. destruct (page_content less_than_100 sent); [done |]. by intros [= <-].
  - by destruct (page_content less_than_100 sent).
  - intros response. destruct (page_content less_than_100 sent) as [r | e] eqn:Hr; [| done].
    intros [= ->]. unfold page_content in Hr.
    destruct sent as [r |]; monad_simpl_in Hr; [| done].
    destruct (truthy (get_opt r "text")) eqn:Htext; monad_simpl_in Hr; [| done].
    destruct (length_below_100 less_than_100 (get_opt r "text")) as [[] |];
      monad_simpl_in Hr; try done.
    by injection Hr as ->.
  - intros response s -> Hs. unfold page_content. monad_simpl. rewrite Hs.
    cbn [length_below_100 truthy].
    destruct (String.eqb_spec s "") as [-> | Hne]; [done |]. monad_simpl.
    by destruct (Z.of_nat (String.length s) <? 100).
Qed.

End PopupFacts.
